(** * convox development mode ([pkg/start/gen2.go]): model and properties

    A shallow embedding of the second-generation [convox start] engine:
    the Dockerfile analysis that derives the directories to synchronise
    ([buildSources], [replaceEnv]), the build polling loop
    ([waitForBuild]), the change batching and file transfer
    ([watchPath], [handleAdds], [handleRemoves]), the log demultiplexer
    ([writeLogs]) and the top-level sequencing ([Start2]).

    Go strings are byte strings ([string]), read as UTF-8 where Go does;
    Go maps are [gmap]s; a Go [error] is its message, [None] standing
    for [nil].  Everything the
    engine reaches through an interface or the operating system (the
    provider, the file system, [docker inspect]) is read from explicit
    records of answers, so that every function below is total and can be
    evaluated. *)

From Stdlib Require Import String Ascii List Arith Lia Bool DecimalString DecimalNat.
From stdpp Require Import base option list gmap strings fin_maps.
Import ListNotations.

Open Scope string_scope.

(** ** Errors and results *)

(** A Go [error] value: [None] is [nil], [Some msg] an error whose
    [Error()] text is [msg].  [errors.WithStack] keeps the text. *)
Definition error : Type := option string.

(** The pair [(value, error)] returned by a fallible Go call. *)
Inductive result (A : Type) : Type :=
| Ok (a : A)
| Err (msg : string).

Arguments Ok {A} a.
Arguments Err {A} msg.

Definition is_err {A} (r : result A) : bool :=
  match r with Ok _ => false | Err _ => true end.

(** A call either returns or does not: it is blocked for good, or still
    blocked when the events given to it are used up. *)
Inductive run (A : Type) : Type :=
| Returns (a : A)
| Pending.

Arguments Returns {A} a.
Arguments Pending {A}.

Definition returned {A} (r : run A) : bool :=
  match r with Returns _ => true | Pending => false end.

(** ** Go's [unicode/utf8] and [unicode]

    A Go string is a sequence of bytes; the functions of [strings] that
    speak of white space or of letter case read it as UTF-8. *)
Module Utf8.

Local Open Scope N_scope.

(** A rune is a code point. *)
Definition rune : Type := N.

Definition RuneError : rune := 0xFFFD.
Definition RuneSelf : N := 0x80.
Definition UTFMax : nat := 4%nat.

Definition byte (c : ascii) : N := N_of_ascii c.

(** The tables [first] and [acceptRanges]: for the first byte of a
    sequence of more than one byte, the size of the sequence and the
    range its second byte must lie in. *)
Definition first (s0 : N) : option (nat * N * N) :=
  if (s0 <? 0xC2)%N then None
  else if (s0 <=? 0xDF)%N then Some (2%nat, 0x80, 0xBF)%N
  else if (s0 =? 0xE0)%N then Some (3%nat, 0xA0, 0xBF)%N
  else if (s0 <=? 0xEC)%N then Some (3%nat, 0x80, 0xBF)%N
  else if (s0 =? 0xED)%N then Some (3%nat, 0x80, 0x9F)%N
  else if (s0 <=? 0xEF)%N then Some (3%nat, 0x80, 0xBF)%N
  else if (s0 =? 0xF0)%N then Some (4%nat, 0x90, 0xBF)%N
  else if (s0 <=? 0xF3)%N then Some (4%nat, 0x80, 0xBF)%N
  else if (s0 =? 0xF4)%N then Some (4%nat, 0x80, 0x8F)%N
  else None.

(** A continuation byte, between [locb] and [hicb]. *)
Definition cont (b : N) : bool := ((0x80 <=? b) && (b <=? 0xBF))%N.

(** [utf8.DecodeRuneInString]: the first rune of [s] and its width in
    bytes; [(RuneError, 1)] for a byte that starts no valid sequence,
    [(RuneError, 0)] for the empty string. *)
Definition DecodeRuneInString (s : string) : rune * nat :=
  match s with
  | EmptyString => (RuneError, 0%nat)
  | String c0 t0 =>
      let s0 := byte c0 in
      if (s0 <? RuneSelf)%N then (s0, 1%nat)
      else
        match first s0 with
        | None => (RuneError, 1%nat)
        | Some (sz, lo, hi) =>
            if (String.length s <? sz)%nat then (RuneError, 1%nat)
            else
              match t0 with
              | EmptyString => (RuneError, 1%nat)
              | String c1 t1 =>
                  let s1 := byte c1 in
                  if ((s1 <? lo) || (hi <? s1))%N then (RuneError, 1%nat)
                  else if (sz <=? 2)%nat
                  then (N.lor (N.shiftl (N.land s0 0x1F) 6) (N.land s1 0x3F), 2%nat)
                  else
                    match t1 with
                    | EmptyString => (RuneError, 1%nat)
                    | String c2 t2 =>
                        let s2 := byte c2 in
                        if negb (cont s2) then (RuneError, 1%nat)
                        else if (sz <=? 3)%nat
                        then (N.lor (N.shiftl (N.land s0 0x0F) 12)
                                (N.lor (N.shiftl (N.land s1 0x3F) 6) (N.land s2 0x3F)),
                              3%nat)
                        else
                          match t2 with
                          | EmptyString => (RuneError, 1%nat)
                          | String c3 _ =>
                              let s3 := byte c3 in
                              if negb (cont s3) then (RuneError, 1%nat)
                              else (N.lor (N.shiftl (N.land s0 0x07) 18)
                                      (N.lor (N.shiftl (N.land s1 0x3F) 12)
                                         (N.lor (N.shiftl (N.land s2 0x3F) 6)
                                            (N.land s3 0x3F))),
                                    4%nat)
                          end
                    end
              end
        end
  end.

(** [s[i:]] and [s[:i]] *)
Definition from (i : nat) (s : string) : string :=
  String.substring i (String.length s - i) s.

Definition upto (i : nat) (s : string) : string := String.substring 0 i s.

(** The runes that [for i, r := range s] visits, each with the bytes it
    was read from. *)
Fixpoint range_from (fuel : nat) (s : string) : list (rune * string) :=
  match fuel, s with
  | S f, String _ _ =>
      let '(r, size) := DecodeRuneInString s in
      (r, upto size s) :: range_from f (from size s)
  | _, _ => []
  end.

Definition range (s : string) : list (rune * string) :=
  range_from (String.length s) s.

(** [utf8.RuneStart] *)
Definition RuneStart (b : N) : bool := negb (N.land b 0xC0 =? 0x80)%N.

(** The byte [s[i]]. *)
Definition at_ (s : string) (i : Z) : N :=
  match String.get (Z.to_nat i) s with
  | Some c => byte c
  | None => 0%N
  end.

(** The loop [for start--; start >= lim; start-- { if RuneStart(s[start])
    { break } }] of [DecodeLastRuneInString], entered with [start]
    already decremented. *)
Fixpoint backToStart (fuel : nat) (s : string) (lim start : Z) : Z :=
  match fuel with
  | O => start
  | S f =>
      if (start <? lim)%Z then start
      else if RuneStart (at_ s start) then start
      else backToStart f s lim (start - 1)%Z
  end.

(** [utf8.DecodeLastRuneInString] *)
Definition DecodeLastRuneInString (s : string) : rune * nat :=
  let end_ := Z.of_nat (String.length s) in
  if (end_ =? 0)%Z then (RuneError, 0%nat)
  else
    let start := (end_ - 1)%Z in
    let r := at_ s start in
    if (r <? RuneSelf)%N then (r, 1%nat)
    else
      let lim := Z.max 0 (end_ - Z.of_nat UTFMax) in
      let start := backToStart (S UTFMax) s lim (start - 1)%Z in
      let start := if (start <? lim)%Z then lim else start in
      let '(r, size) := DecodeRuneInString (from (Z.to_nat start) s) in
      if negb (start + Z.of_nat size =? end_)%Z then (RuneError, 1%nat)
      else (r, size).

Definition ascii_of (n : N) : ascii := ascii_of_N (N.land n 0xFF).

(** [utf8.AppendRune] to the empty string: the encoding of [r]. *)
Definition EncodeRune (r : rune) : string :=
  let tx (n : N) := ascii_of (N.lor 0x80 (N.land n 0x3F)) in
  let three (r : rune) :=
    String (ascii_of (N.lor 0xE0 (N.shiftr r 12)))
      (String (tx (N.shiftr r 6)) (String (tx r) "")) in
  if (r <=? 0x7F)%N then String (ascii_of r) ""
  else if (r <=? 0x7FF)%N
  then String (ascii_of (N.lor 0xC0 (N.shiftr r 6))) (String (tx r) "")
  else if ((0x10FFFF <? r) || ((0xD800 <=? r) && (r <=? 0xDFFF)))%N
  then three RuneError
  else if (r <=? 0xFFFF)%N then three r
  else String (ascii_of (N.lor 0xF0 (N.shiftr r 18)))
         (String (tx (N.shiftr r 12)) (String (tx (N.shiftr r 6)) (String (tx r) ""))).

End Utf8.

Module Unicode.

Local Open Scope N_scope.

(** [unicode.IsSpace]: in Latin-1 the six ASCII spaces, U+0085 and
    U+00A0; beyond, the table [White_Space]. *)
Definition IsSpace (r : Utf8.rune) : bool :=
  if (r <=? 0xFF)%N
  then ((0x09 <=? r) && (r <=? 0x0D) || (r =? 0x20) || (r =? 0x85) || (r =? 0xA0))%N
  else ((r =? 0x1680) || (0x2000 <=? r) && (r <=? 0x200A) || (r =? 0x2028) || (r =? 0x2029)
        || (r =? 0x202F) || (r =? 0x205F) || (r =? 0x3000))%N.

(** [unicode.ToUpper] and [unicode.ToLower]: the ASCII letters are
    mapped by arithmetic, the other runes through the case tables,
    [to] being [unicode.To(unicode.UpperCase, r)], respectively
    [unicode.To(unicode.LowerCase, r)]. *)
Definition ToUpper (to : Utf8.rune -> Utf8.rune) (r : Utf8.rune) : Utf8.rune :=
  if (r <=? 0x7F)%N
  then if ((0x61 <=? r) && (r <=? 0x7A))%N then (r - 0x20)%N else r
  else to r.

Definition ToLower (to : Utf8.rune -> Utf8.rune) (r : Utf8.rune) : Utf8.rune :=
  if (r <=? 0x7F)%N
  then if ((0x41 <=? r) && (r <=? 0x5A))%N then (r + 0x20)%N else r
  else to r.

End Unicode.

(** ** The slice of Go's [strings] package the engine uses *)
Module Strs.

Definition HasPrefix (s pre : string) : bool := String.prefix pre s.

Fixpoint HasSuffix_aux (fuel : nat) (s suf : string) : bool :=
  if String.eqb s suf then true
  else match fuel, s with
       | S f, String _ s' => HasSuffix_aux f s' suf
       | _, _ => false
       end.

Definition HasSuffix (s suf : string) : bool :=
  HasSuffix_aux (String.length s) s suf.

(** The scan behind [Replace]: [skip] counts the bytes of a replaced
    occurrence that are still to be passed over. *)
Fixpoint Replace_from (old new : string) (skip : nat) (s : string) : string :=
  match s with
  | EmptyString => match old with EmptyString => new | _ => EmptyString end
  | String c s' =>
      match skip with
      | S k => Replace_from old new k s'
      | O =>
          match old with
          | EmptyString => new ++ String c (Replace_from old new 0 s')
          | _ =>
              if String.prefix old s
              then new ++ Replace_from old new (String.length old - 1) s'
              else String c (Replace_from old new 0 s')
          end
      end
  end.

(** [strings.Replace(s, old, new, -1)]: every non-overlapping occurrence
    of [old], found left to right, becomes [new]. *)
Definition Replace (s old new : string) : string := Replace_from old new 0 s.

(** The table [asciiSpace]: tab, newline, vertical tab, form feed,
    carriage return and space. *)
Definition isSpace (c : ascii) : bool :=
  let n := nat_of_ascii c in (((9 <=? n) && (n <=? 13)) || (n =? 32))%nat.

(** Whether every byte of [s] is below [utf8.RuneSelf]. *)
Fixpoint isASCII (s : string) : bool :=
  match s with
  | EmptyString => true
  | String c s' => (Utf8.byte c <? Utf8.RuneSelf)%N && isASCII s'
  end.

(** The fast path of [Fields], for a string of ASCII bytes: the maximal
    runs of bytes that are no spaces; [cur] is the run being read. *)
Fixpoint Fields_aux (cur : string) (s : string) : list string :=
  match s with
  | EmptyString => match cur with EmptyString => [] | _ => [cur] end
  | String c s' =>
      if isSpace c
      then match cur with
           | EmptyString => Fields_aux EmptyString s'
           | _ => cur :: Fields_aux EmptyString s'
           end
      else Fields_aux (cur ++ String c EmptyString) s'
  end.

(** The loop of [FieldsFunc] over the runes of the string: [cur] is the
    span that is open, if one is. *)
Fixpoint FieldsFunc_runes (f : Utf8.rune -> bool) (cur : option string)
    (rs : list (Utf8.rune * string)) : list string :=
  match rs with
  | [] => match cur with Some span => [span] | None => [] end
  | (r, bytes) :: rest =>
      if f r
      then match cur with
           | Some span => span :: FieldsFunc_runes f None rest
           | None => FieldsFunc_runes f None rest
           end
      else FieldsFunc_runes f (Some (default "" cur ++ bytes)) rest
  end.

(** [strings.FieldsFunc] *)
Definition FieldsFunc (s : string) (f : Utf8.rune -> bool) : list string :=
  FieldsFunc_runes f None (Utf8.range s).

(** [strings.Fields]: the fields between white space, which is
    [unicode.IsSpace] as soon as one byte of the string is not ASCII. *)
Definition Fields (s : string) : list string :=
  if isASCII s then Fields_aux EmptyString s
  else FieldsFunc s Unicode.IsSpace.

Definition upper (c : ascii) : ascii :=
  let n := nat_of_ascii c in
  if ((97 <=? n) && (n <=? 122))%nat then ascii_of_nat (n - 32) else c.

Definition lower (c : ascii) : ascii :=
  let n := nat_of_ascii c in
  if ((65 <=? n) && (n <=? 90))%nat then ascii_of_nat (n + 32) else c.

Fixpoint map_bytes (f : ascii -> ascii) (s : string) : string :=
  match s with
  | EmptyString => EmptyString
  | String c s' => String (f c) (map_bytes f s')
  end.

(** The second loop of [Map]: every rune is mapped and encoded anew. *)
Fixpoint Map_rest (mapping : Utf8.rune -> Utf8.rune) (rs : list (Utf8.rune * string))
  : string :=
  match rs with
  | [] => ""
  | (c, _) :: rest => Utf8.EncodeRune (mapping c) ++ Map_rest mapping rest
  end.

(** The first loop of [Map]: the bytes are kept up to the first rune
    that the mapping changes, or that is a byte of no valid sequence. *)
Fixpoint Map_head (mapping : Utf8.rune -> Utf8.rune) (rs : list (Utf8.rune * string))
  : string :=
  match rs with
  | [] => ""
  | (c, bytes) :: rest =>
      let r := mapping c in
      if (r =? c)%N && (negb (c =? Utf8.RuneError)%N || negb (String.length bytes =? 1)%nat)
      then bytes ++ Map_head mapping rest
      else Utf8.EncodeRune r ++ Map_rest mapping rest
  end.

(** [strings.Map], for a mapping that drops no rune. *)
Definition Map (mapping : Utf8.rune -> Utf8.rune) (s : string) : string :=
  Map_head mapping (Utf8.range s).

(** [strings.ToUpper] and [strings.ToLower]: byte by byte on a string
    of ASCII bytes, through [Map] otherwise; [to] stands for the case
    tables of [unicode]. *)
Definition ToUpper (to : Utf8.rune -> Utf8.rune) (s : string) : string :=
  if isASCII s then map_bytes upper s else Map (Unicode.ToUpper to) s.

Definition ToLower (to : Utf8.rune -> Utf8.rune) (s : string) : string :=
  if isASCII s then map_bytes lower s else Map (Unicode.ToLower to) s.

(** [indexFunc(s, f, truth)], [i] being the offset of the first rune of
    [rs]. *)
Fixpoint indexFunc_from (f : Utf8.rune -> bool) (truth : bool) (i : nat)
    (rs : list (Utf8.rune * string)) : option nat :=
  match rs with
  | [] => None
  | (r, bytes) :: rest =>
      if Bool.eqb (f r) truth then Some i
      else indexFunc_from f truth (i + String.length bytes) rest
  end.

(** [strings.TrimLeftFunc] *)
Definition TrimLeftFunc (s : string) (f : Utf8.rune -> bool) : string :=
  match indexFunc_from f false 0 (Utf8.range s) with
  | None => ""
  | Some i => Utf8.from i s
  end.

(** [lastIndexFunc(s, f, truth)]: the loop [for i := len(s); i > 0;]. *)
Fixpoint lastIndexFunc_from (fuel : nat) (f : Utf8.rune -> bool) (truth : bool)
    (s : string) (i : nat) : option nat :=
  match fuel with
  | O => None
  | S fuel' =>
      if (i =? 0)%nat then None
      else
        let '(r, size) := Utf8.DecodeLastRuneInString (Utf8.upto i s) in
        let i := (i - size)%nat in
        if Bool.eqb (f r) truth then Some i
        else lastIndexFunc_from fuel' f truth s i
  end.

(** [strings.TrimRightFunc] *)
Definition TrimRightFunc (s : string) (f : Utf8.rune -> bool) : string :=
  match lastIndexFunc_from (S (String.length s)) f false s (String.length s) with
  | Some i =>
      if (Utf8.RuneSelf <=? Utf8.at_ s (Z.of_nat i))%N
      then let '(_, wid) := Utf8.DecodeRuneInString (Utf8.from i s) in
           Utf8.upto (i + wid) s
      else Utf8.upto (i + 1) s
  | None => ""
  end.

(** [strings.TrimFunc] *)
Definition TrimFunc (s : string) (f : Utf8.rune -> bool) : string :=
  TrimRightFunc (TrimLeftFunc s f) f.

Fixpoint rev_string (acc s : string) : string :=
  match s with
  | EmptyString => acc
  | String c s' => rev_string (String c acc) s'
  end.

(** One of the two loops of the fast path of [TrimSpace], read in the
    direction of the loop: the text from the first byte that is no
    ASCII space on, and whether that byte is outside ASCII. *)
Fixpoint TrimSpace_scan (s : string) : string * bool :=
  match s with
  | EmptyString => (EmptyString, false)
  | String c s' =>
      if (Utf8.RuneSelf <=? Utf8.byte c)%N then (s, true)
      else if isSpace c then TrimSpace_scan s'
      else (s, false)
  end.

(** [strings.TrimSpace]: the ASCII spaces are taken from both ends; at
    the first byte outside ASCII the rest is left to [TrimFunc], or to
    [TrimRightFunc] when the start is already trimmed, with
    [unicode.IsSpace]. *)
Definition TrimSpace (s : string) : string :=
  let '(t, beyond) := TrimSpace_scan s in
  if beyond then TrimFunc t Unicode.IsSpace
  else
    let '(u, beyond) := TrimSpace_scan (rev_string EmptyString t) in
    if beyond then TrimRightFunc (rev_string EmptyString u) Unicode.IsSpace
    else rev_string EmptyString u.

(** [cut c s]: the text before the first byte [c] and, when there is
    one, the text after it. *)
Fixpoint cut (c : ascii) (s : string) : string * option string :=
  match s with
  | EmptyString => (EmptyString, None)
  | String d s' =>
      if Ascii.eqb d c then (EmptyString, Some s')
      else let '(a, b) := cut c s' in (String d a, b)
  end.

(** [strings.SplitN(s, sep, 2)] for a one-byte separator. *)
Definition SplitN2 (s : string) (sep : ascii) : list string :=
  match cut sep s with
  | (a, Some b) => [a; b]
  | (a, None) => [a]
  end.

(** [strings.Split(s, sep)[0]] for a one-byte separator. *)
Definition Split_first (s : string) (sep : ascii) : string := fst (cut sep s).

(** [strings.Split(s, sep)] for a one-byte separator; [cur] gathers the
    element being read. *)
Fixpoint Split_from (sep : ascii) (cur : string) (s : string) : list string :=
  match s with
  | EmptyString => [cur]
  | String c s' =>
      if Ascii.eqb c sep then cur :: Split_from sep EmptyString s'
      else Split_from sep (cur ++ String c EmptyString) s'
  end.

Definition Split (s : string) (sep : ascii) : list string := Split_from sep "" s.

(** [strings.Count(s, sep)] for a one-byte separator. *)
Fixpoint Count (s : string) (sep : ascii) : nat :=
  match s with
  | EmptyString => 0%nat
  | String d s' => ((if Ascii.eqb d sep then 1 else 0) + Count s' sep)%nat
  end.

(** [strings.Join(elems, sep)]. *)
Fixpoint Join (elems : list string) (sep : string) : string :=
  match elems with
  | [] => EmptyString
  | [e] => e
  | e :: rest => e ++ sep ++ Join rest sep
  end.

End Strs.

(** [fmt]'s [%d] for a non-negative count. *)
Definition fmt_d (n : nat) : string := NilEmpty.string_of_uint (Nat.to_uint n).

(** ** Go's [path/filepath] on a Unix host *)
Module Filepath.

Definition IsAbs (p : string) : bool := Strs.HasPrefix p "/".

(** One path element met by [Clean]; [stack] holds the elements kept so
    far, innermost first. *)
Definition clean_step (rooted : bool) (stack : list string) (e : string)
  : list string :=
  if String.eqb e "" || String.eqb e "." then stack
  else if String.eqb e ".." then
    match stack with
    | top :: rest => if String.eqb top ".." then e :: stack else rest
    | [] => if rooted then [] else [e]
    end
  else e :: stack.

(** [filepath.Clean]: the shortest equivalent path, by dropping empty
    and [.] elements and resolving [..] against the element before. *)
Definition Clean (p : string) : string :=
  if String.eqb p "" then "."
  else
    let rooted := IsAbs p in
    let body := Strs.Join (rev (fold_left (clean_step rooted) (Strs.Split p "/") [])) "/" in
    if rooted then "/" ++ body
    else if String.eqb body "" then "." else body.

(** [filepath.Join]: the elements from the first non-empty one on,
    separated by [/] and cleaned; the empty path when all are empty. *)
Fixpoint Join (elems : list string) : string :=
  match elems with
  | [] => ""
  | e :: rest => if String.eqb e "" then Join rest else Clean (Strs.Join elems "/")
  end.

(** [filepath.Abs], given the outcome of [os.Getwd]. *)
Definition Abs (getwd : result string) (p : string) : result string :=
  if IsAbs p then Ok (Clean p)
  else match getwd with
       | Ok wd => Ok (Join [wd; p])
       | Err e => Err e
       end.

(** The element-wise scan of [Rel]: the rest of both paths from their
    first differing elements, and that element of [base] ([""] when one
    path ran out first). *)
Fixpoint Rel_scan (fuel : nat) (base targ : string) : string * string * string :=
  match fuel with
  | O => (base, targ, "")
  | S f =>
      if String.eqb base "" || String.eqb targ "" then (base, targ, "")
      else
        let '(eb, rb) := Strs.cut "/" base in
        let '(et, rt) := Strs.cut "/" targ in
        if String.eqb et eb
        then Rel_scan f (default "" rb) (default "" rt)
        else (base, targ, eb)
  end.

Fixpoint ups (n : nat) : string :=
  match n with O => "" | S k => "/.." ++ ups k end.

(** [filepath.Rel]: a path that joined to [basepath] is [targpath], or
    an error when one path is rooted and the other is not, or when
    [basepath] climbs above the common part. *)
Definition Rel (basepath targpath : string) : result string :=
  let cant := Err ("Rel: can't make " ++ targpath ++ " relative to " ++ basepath) in
  let base := Clean basepath in
  let targ := Clean targpath in
  if String.eqb targ base then Ok "."
  else
    let base := if String.eqb base "." then "" else base in
    if negb (Bool.eqb (IsAbs base) (IsAbs targ)) then cant
    else
      let '(b, t, e) := Rel_scan (S (String.length base)) base targ in
      if String.eqb e ".." then cant
      else if negb (String.eqb b "")
      then Ok (".." ++ ups (Strs.Count b "/")
                    ++ (if String.eqb t "" then "" else "/" ++ t))
      else Ok t.

End Filepath.

(** ** Regular expressions with submatches

    Go's [regexp] prefers the leftmost match and, among those, the one a
    backtracking search finds first.  The matcher below is that search,
    in continuation-passing style.  The patterns of this file use only
    ASCII literals and (negated) ASCII classes, for which matching bytes
    and matching UTF-8 runes give the same submatch boundaries. *)
Module Regexp.

Inductive regex : Type :=
| Empty                         (* the empty pattern *)
| Byte (p : ascii -> bool)      (* one byte in a class; a literal is a one-byte class *)
| Seq (r1 r2 : regex)           (* r1 r2 *)
| Star (r : regex)              (* r*, greedy *)
| Group (i : nat) (r : regex)   (* ( r ), the i-th capturing group *)
| Bot                           (* ^ without the m flag: beginning of text *)
| Eot.                          (* $ without the m flag: end of text *)

(** r+ *)
Definition Plus (r : regex) : regex := Seq r (Star r).

(** r{n} *)
Fixpoint Rep (n : nat) (r : regex) : regex :=
  match n with
  | O => Empty
  | S k => Seq r (Rep k r)
  end.

Definition lit (c : ascii) : regex := Byte (Ascii.eqb c).
Definition non (c : ascii) : regex := Byte (fun d => negb (Ascii.eqb c d)).

(** \d *)
Definition digit : regex :=
  Byte (fun c => let n := nat_of_ascii c in ((48 <=? n) && (n <=? 57))%nat).

(** [a-z] *)
Definition a_z : regex :=
  Byte (fun c => let n := nat_of_ascii c in ((97 <=? n) && (n <=? 122))%nat).

(** . without the s flag: any byte but a newline *)
Definition dot : regex := non "010"%char.

(** The literal text [s]. *)
Fixpoint text (s : string) : regex :=
  match s with
  | EmptyString => Empty
  | String c s' => Seq (lit c) (text s')
  end.

(** [run r pos s caps k]: match [r] against [s], the input from offset
    [pos] on; on success hand the new offset, the rest of the input and
    the submatches to [k]; when [k] fails, try the next alternative.
    [caps] is indexed by group number, entry 0 being unused here. *)
Fixpoint run {R : Type} (r : regex) (pos : nat) (s : string) (caps : list string)
    (k : nat -> string -> list string -> option R) {struct r} : option R :=
  match r with
  | Empty => k pos s caps
  | Byte p =>
      match s with
      | String c s' => if p c then k (S pos) s' caps else None
      | EmptyString => None
      end
  | Seq r1 r2 =>
      run r1 pos s caps (fun pos' s' caps' => run r2 pos' s' caps' k)
  | Star r1 =>
      (fix iter (fuel : nat) (pos : nat) (s : string) (caps : list string)
         {struct fuel} : option R :=
         match fuel with
         | O => k pos s caps
         | S f =>
             match run r1 pos s caps
                     (fun pos' s' caps' =>
                        if (pos <? pos')%nat then iter f pos' s' caps' else None)
             with
             | Some x => Some x
             | None => k pos s caps
             end
         end) (String.length s) pos s caps
  | Group i r1 =>
      run r1 pos s caps
        (fun pos' s' caps' =>
           k pos' s' (<[i := String.substring 0 (pos' - pos) s]> caps'))
  | Bot => if (pos =? 0)%nat then k pos s caps else None
  | Eot => match s with EmptyString => k pos s caps | _ => None end
  end.

(** A match of [r] that starts at offset [pos], where [s] is the input
    from there on: the end offset and the submatches. *)
Definition match_at (r : regex) (ngroups : nat) (pos : nat) (s : string)
  : option (nat * list string) :=
  run r pos s (replicate (S ngroups) "") (fun pos' _ caps => Some (pos', caps)).

Fixpoint find_from (r : regex) (ngroups : nat) (pos : nat) (s : string)
  : option (list string) :=
  match match_at r ngroups pos s with
  | Some (pos', caps) => Some (<[0%nat := String.substring 0 (pos' - pos) s]> caps)
  | None =>
      match s with
      | String _ s' => find_from r ngroups (S pos) s'
      | EmptyString => None
      end
  end.

(** [FindStringSubmatch] of a compiled pattern: the leftmost match and its
    submatches, entry 0 being the whole match; [None] is Go's nil
    slice. *)
Definition FindStringSubmatch (r : regex) (ngroups : nat) (s : string)
  : option (list string) :=
  find_from r ngroups 0 s.

(** The scan behind [ReplaceAllString]; [skip] counts the bytes of the
    current match that are still to be dropped. *)
Fixpoint replace_from (r : regex) (repl : string) (pos skip : nat) (s : string)
  : string :=
  match skip, s with
  | S k, String _ s' => replace_from r repl (S pos) k s'
  | S _, EmptyString => ""
  | O, _ =>
      match match_at r 0 pos s, s with
      | Some (pos', _), String c s' =>
          if (pos <? pos')%nat
          then repl ++ replace_from r repl (S pos) (pos' - pos - 1) s'
          else repl ++ String c (replace_from r repl (S pos) 0 s')
      | Some _, EmptyString => repl
      | None, String c s' => String c (replace_from r repl (S pos) 0 s')
      | None, EmptyString => ""
      end
  end.

(** [ReplaceAllString] of a compiled pattern, for a replacement without [$]
    references: every leftmost non-overlapping match becomes [repl]. *)
Definition ReplaceAllString (r : regex) (src repl : string) : string :=
  replace_from r repl 0 0 src.

End Regexp.

(** [bufio.Scanner] with [bufio.ScanLines]: the lines of [data] without
    their end-of-line markers, up to the first line that does not fit a
    buffer of [max] bytes; the flag tells whether the scan stopped there
    ([bufio.ErrTooLong]). *)
Module Bufio.

Definition dropCR (l : string) : string :=
  if Strs.HasSuffix l (String "013" "")
  then String.substring 0 (String.length l - 1) l else l.

Fixpoint fitting (max : N) (ls : list string) : list string * bool :=
  match ls with
  | [] => ([], false)
  | l :: rest =>
      if (N.of_nat (String.length l) <? max)%N
      then let '(out, long) := fitting max rest in (l :: out, long)
      else ([], true)
  end.

Definition ScanLines (max : N) (data : string) : list string * bool :=
  let raw := Strs.Split data "010" in
  (* the text after the last newline is a line only when it is not empty *)
  let raw := match rev raw with
             | EmptyString :: front => rev front
             | _ => raw
             end in
  let '(ls, long) := fitting max raw in
  (map dropCR ls, long).

(** [bufio.MaxScanTokenSize] *)
Definition MaxScanTokenSize : N := 65536.

End Bufio.

(** ** Data model *)

(** [type buildSource struct] *)
Record buildSource : Type := mkBuildSource { Local : string; Remote : string }.

(** [changes.Change]: [Operation] is ["add"] or ["remove"]. *)
Record Change : Type := mkChange { Operation : string; Base : string; Path : string }.

(** [manifest.Service], the fields read here
    ([Name], [Image], [Build.Path], [Build.Manifest]). *)
Record Service : Type := mkService {
  Name : string;
  Image : string;
  Build_Path : string;
  Build_Manifest : string
}.

(** [manifest.Manifest]: its services and its [Service(name)] method. *)
Record Manifest : Type := mkManifest {
  Services : list Service;
  Manifest_Service : string -> result Service
}.

(** [structs.App], [structs.Build] and [structs.Process], the fields
    read here. *)
Record App : Type := mkApp { Generation : string; App_Release : string }.
Record Build : Type := mkBuild { Build_Id : string; Status : string; Build_Release : string }.
Record Process : Type := mkProcess { Process_Id : string }.

(** [type Options2 struct], the fields that steer control flow. *)
Record Options2 : Type := mkOptions2 {
  opt_App : string;
  opt_Build : bool;
  opt_External : bool;
  opt_Manifest : string;
  opt_Services : option (list string)
}.

(** [os.FileInfo] as returned by [os.Stat]. *)
Record FileInfo : Type := mkFileInfo { Mode : Z; Size : Z; ModTime : Z; IsDir : bool }.

(** The three outcomes of [os.Stat] the engine tells apart: success, an
    error for which [os.IsNotExist] holds, any other error. *)
Inductive stat_result : Type :=
| StatOk (info : FileInfo)
| StatNotExist (msg : string)
| StatErr (msg : string).

(** [tar.Header] as filled in by [handleAdds]. *)
Record Header : Type := mkHeader { h_Name : string; h_Mode : Z; h_Size : Z; h_ModTime : Z }.

(** What a task does that others can see: a line handed to the prefix
    writer under a routing key ([pw.Writef(key, ...)], [text] being the
    formatted line), an error sent on the shared error channel
    ([ch <- err]), or a task started with a [go] statement. *)
Inductive effect : Type :=
| Writef (key text : string)
| Send (err : string)
| Go (task : string).

(** ** The collaborators

    Functions of packages outside [pkg/start]: [changes.Partition],
    [changes.Files], [json.Unmarshal] into a [[]string], the scheme of
    [url.Parse], [filepath.Rel], and the case tables of [unicode]:
    [unicode.To(unicode.UpperCase, r)] and
    [unicode.To(unicode.LowerCase, r)]. *)
Record Lib : Type := mkLib {
  changes_Partition : list Change -> list Change * list Change;
  changes_Files : list Change -> list string;
  json_Unmarshal : string -> result (list string);
  url_Parse_Scheme : string -> result string;
  filepath_Rel : string -> string -> result string;
  unicode_To_UpperCase : Utf8.rune -> Utf8.rune;
  unicode_To_LowerCase : Utf8.rune -> Utf8.rune
}.

(** The answers of the provider, of the operating system and of the Go
    runtime at one moment.

    [handleAdds] writes its archive into an unbuffered pipe ([io.Pipe])
    that [FilesUpload] reads in a task of its own.  A call that writes
    into the pipe returns when the upload has read what it wrote, or
    has closed its end; it never returns when the upload reads no more
    and leaves its end open.  So, for the application and the process
    given: [tar_WriteHeader] tells whether [tw.WriteHeader] returns
    (its error is not looked at); [io_Copy] and [tar_Close] tell how
    [io.Copy(tw, fd)] and [tw.Close()] end; and [FilesUpload], given
    the entries of the archive, tells what [<-ch] receives from the
    upload, if it receives anything. *)
Record Host : Type := mkHost {
  (* structs.Provider *)
  ProcessList : string -> string -> result (list Process);
  ProcessExec_pwd : string -> string -> result string;
  FilesUpload : string -> string -> list Header -> run error;
  FilesDelete : string -> string -> list string -> error;
  (* os, io, archive/tar *)
  os_Getwd : result string;
  os_Stat : string -> stat_result;
  os_ReadFile : string -> result string;
  os_Open : string -> error;
  tar_WriteHeader : string -> string -> Header -> bool;
  io_Copy : string -> string -> string -> run error;
  tar_Close : string -> string -> run error;
  pipe_Close : error;
  (* Exec.Execute(cmd, args...) *)
  Exec_Execute : list string -> result string;
  (* the order in which a range statement visits a map *)
  map_range : gmap string string -> list (string * string)
}.

(** A [range] over a map visits every entry once, in an order of the
    runtime's choosing. *)
Definition range_ok (h : Host) : Prop :=
  forall m, map_range h m ≡ₚ map_to_list m.

(** ** [replaceEnv] *)

(** One turn of the loop of [replaceEnv]: both spellings of the variable
    [k] are replaced by [v], the braced one first. *)
Definition replaceEnv_step (s : string) (kv : string * string) : string :=
  let s := Strs.Replace s ("${" ++ fst kv ++ "}") (snd kv) in
  Strs.Replace s ("$" ++ fst kv) (snd kv).

(** [replaceEnv(s, env)], the entries of [env] given in the order the
    range statement visits them. *)
Definition replaceEnv (s : string) (env : list (string * string)) : string :=
  fold_left replaceEnv_step env s.

(** ** [buildDockerfile] and [buildSources] *)

(** [buildDockerfile]: [Ok None] is the [nil, nil] returned for a
    service with a prebuilt image. *)
Definition buildDockerfile (h : Host) (m : Manifest) (root service : string)
  : result (option string) :=
  match Manifest_Service m service with
  | Err e => Err e
  | Ok s =>
      if negb (String.eqb (Image s) "") then Ok None
      else
        match Filepath.Abs (os_Getwd h)
                (Filepath.Join [root; Build_Path s; Build_Manifest s]) with
        | Err e => Err e
        | Ok path =>
            match os_Stat h path with
            | StatNotExist _ =>
                Err ("no such file: " ++ Filepath.Join [Build_Path s; Build_Manifest s])
            | _ =>
                match os_ReadFile h path with
                | Ok data => Ok (Some data)
                | Err e => Err e
                end
            end
        end
  end.

(** [reDockerOption = regexp.MustCompile("--([a-z]+)")] *)
Definition reDockerOption : Regexp.regex :=
  Regexp.Seq (Regexp.text "--") (Regexp.Group 1 (Regexp.Plus Regexp.a_z)).

(** How the analysis of one service ends: with a value, with an error,
    or in a run-time panic. *)
Inductive outcome (A : Type) : Type :=
| Done (a : A)
| Fails (msg : string)
| Panics.

Arguments Done {A} a.
Arguments Fails {A} msg.
Arguments Panics {A}.

(** The running state of the scan: the sources found so far, the
    environment map and the working directory. *)
Record scan_state : Type := mkScan_state {
  st_bs : list buildSource;
  st_env : gmap string string;
  st_wd : string
}.

(** The result of the loop that removes options from an [ADD] or [COPY]
    line. *)
Inductive stripped : Type :=
| Parts (parts : list string)
| FromStage               (* continue lines *)
| OutOfRange.             (* slice bounds out of range *)

(** [for i, p := range parts] over an [ADD]/[COPY] line.  The range
    walks the [n] slots of the backing array [arr] that [parts] had at
    loop entry; [len] is the current length of [parts], which shares
    that array: removing slot [i] moves the slots [i+1 .. len-1] one
    place down and leaves the slots from [len-1] on as they were. *)
Fixpoint stripOptions (lib : Lib) (todo i : nat) (arr : list string) (len : nat)
  : stripped :=
  match todo with
  | O => Parts (take len arr)
  | S todo' =>
      match Regexp.FindStringSubmatch reDockerOption 1 (nth i arr "") with
      | Some m =>
          if String.eqb (Strs.ToLower (unicode_To_LowerCase lib) (nth 1 m "")) "from"
          then FromStage
          else if (i + 1 <=? len)%nat
          then stripOptions lib todo' (S i)
                 (take i arr ++ drop (S i) (take len arr) ++ drop (len - 1) arr)
                 (len - 1)
          else OutOfRange
      | None => stripOptions lib todo' (S i) arr len
      end
  end.

(** [case "ADD", "COPY"] *)
Definition instrCOPY (lib : Lib) (h : Host) (svc : Service) (parts : list string)
    (st : scan_state) : outcome scan_state :=
  match stripOptions lib (length parts) 0 parts (length parts) with
  | FromStage => Done st
  | OutOfRange => Panics
  | Parts parts =>
      if (2 <? length parts)%nat then
        match url_Parse_Scheme lib (nth 1 parts "") with
        | Err e => Fails e
        | Ok scheme =>
            if Strs.HasPrefix (nth 1 parts "") "--from" then Done st
            else if String.eqb scheme "http" || String.eqb scheme "https" then Done st
            else
              let local := Filepath.Join [Build_Path svc; nth 1 parts ""] in
              let remote := replaceEnv (nth 2 parts "") (map_range h (st_env st)) in
              let remote :=
                if negb (String.eqb (st_wd st) "") && negb (Filepath.IsAbs remote)
                then Filepath.Join [st_wd st; remote] else remote in
              Done {| st_bs := st_bs st ++ [{| Local := local; Remote := remote |}];
                      st_env := st_env st;
                      st_wd := st_wd st |}
        end
      else Done st
  end.

(** [case "ENV"] *)
Definition instrENV (parts : list string) (st : scan_state) : scan_state :=
  if (2 <? length parts)%nat
  then {| st_bs := st_bs st;
          st_env := <[nth 1 parts "" := nth 2 parts ""]> (st_env st);
          st_wd := st_wd st |}
  else st.

(** [env[parts[0]] = parts[1]] for an entry [NAME=value] of the image. *)
Definition setImageEnv (env : gmap string string) (e : string) : gmap string string :=
  match Strs.SplitN2 e "=" with
  | [k; v] => <[k := v]> env
  | _ => env
  end.

(** [case "FROM"] *)
Definition instrFROM (lib : Lib) (h : Host) (parts : list string) (st : scan_state)
  : outcome scan_state :=
  if (1 <? length parts)%nat then
    match Exec_Execute h ["docker"; "inspect"; nth 1 parts ""; "--format";
                          "{{json .Config.Env}}"] with
    | Err _ => Done st
    | Ok data =>
        match json_Unmarshal lib data with
        | Err e => Fails e
        | Ok ee =>
            match Exec_Execute h ["docker"; "inspect"; nth 1 parts ""; "--format";
                                  "{{.Config.WorkingDir}}"] with
            | Err e => Fails e
            | Ok data =>
                Done {| st_bs := st_bs st;
                        st_env := fold_left setImageEnv ee (st_env st);
                        st_wd := Strs.TrimSpace data |}
            end
        end
    end
  else Done st.

(** [case "WORKDIR"] *)
Definition instrWORKDIR (h : Host) (parts : list string) (st : scan_state) : scan_state :=
  if (1 <? length parts)%nat
  then {| st_bs := st_bs st;
          st_env := st_env st;
          st_wd := replaceEnv (nth 1 parts "") (map_range h (st_env st)) |}
  else st.

(** The body of the [lines:] loop for one line of the Dockerfile. *)
Definition scanLine (lib : Lib) (h : Host) (svc : Service) (line : string)
    (st : scan_state) : outcome scan_state :=
  let parts := Strs.Fields line in
  if (length parts <? 1)%nat then Done st
  else
    let op := Strs.ToUpper (unicode_To_UpperCase lib) (nth 0 parts "") in
    if String.eqb op "ADD" || String.eqb op "COPY" then instrCOPY lib h svc parts st
    else if String.eqb op "ENV" then Done (instrENV parts st)
    else if String.eqb op "FROM" then instrFROM lib h parts st
    else if String.eqb op "WORKDIR" then Done (instrWORKDIR h parts st)
    else Done st.

(** The [lines:] loop. *)
Fixpoint scanLines (lib : Lib) (h : Host) (svc : Service) (lines : list string)
    (st : scan_state) : outcome scan_state :=
  match lines with
  | [] => Done st
  | line :: rest =>
      match scanLine lib h svc line st with
      | Done st' => scanLines lib h svc rest st'
      | Fails e => Fails e
      | Panics => Panics
      end
  end.

(** The first [for i := range bs] loop: every [Local] is made absolute,
    a directory gets a trailing separator, and the remote [.] becomes
    the working directory. *)
Fixpoint resolveLocals (h : Host) (wd : string) (bs : list buildSource)
  : result (list buildSource) :=
  match bs with
  | [] => Ok []
  | b :: rest =>
      match Filepath.Abs (os_Getwd h) (Local b) with
      | Err e => Err e
      | Ok abs =>
          match os_Stat h abs with
          | StatNotExist e | StatErr e => Err e
          | StatOk info =>
              let abs := if IsDir info && negb (Strs.HasSuffix abs "/")
                         then abs ++ "/" else abs in
              let remote := if String.eqb (Remote b) "." then wd else Remote b in
              match resolveLocals h wd rest with
              | Err e => Err e
              | Ok out => Ok ({| Local := abs; Remote := remote |} :: out)
              end
          end
      end
  end.

(** The inner loop [for j := i + 1; j < len(bs); j++] for the entry [x]
    at index [i], [later] being the entries after it: whether [x] is
    contained in one of them. *)
Fixpoint contained (rel : string -> string -> result string) (x : buildSource)
    (later : list buildSource) : result bool :=
  match later with
  | [] => Ok false
  | y :: later' =>
      if Strs.HasPrefix (Local x) (Local y) then
        if String.eqb (Remote x) (Remote y) then Ok true
        else
          match rel (Local y) (Local x) with
          | Err e => Err e
          | Ok rl =>
              match rel (Remote y) (Remote x) with
              | Err e => Err e
              | Ok rr => if String.eqb rl rr then Ok true else contained rel x later'
              end
          end
      else contained rel x later'
  end.

(** The second [for i := range bs] loop: the entries not contained in a
    later one, in their order. *)
Fixpoint dedup (rel : string -> string -> result string) (bs : list buildSource)
  : result (list buildSource) :=
  match bs with
  | [] => Ok []
  | x :: later =>
      match contained rel x later with
      | Err e => Err e
      | Ok c =>
          match dedup rel later with
          | Err e => Err e
          | Ok bss => Ok (if c then bss else x :: bss)
          end
      end
  end.

(** [buildSources(m, root, service)] *)
Definition buildSources (lib : Lib) (h : Host) (m : Manifest) (root service : string)
  : outcome (list buildSource) :=
  match buildDockerfile h m root service with
  | Err e => Fails e
  | Ok None => Done []
  | Ok (Some data) =>
      match Manifest_Service m service with
      | Err e => Fails e
      | Ok svc =>
          match scanLines lib h svc (fst (Bufio.ScanLines Bufio.MaxScanTokenSize data))
                  {| st_bs := []; st_env := ∅; st_wd := "" |} with
          | Fails e => Fails e
          | Panics => Panics
          | Done st =>
              match resolveLocals h (st_wd st) (st_bs st) with
              | Err e => Fails e
              | Ok bs =>
                  match dedup (filepath_Rel lib) bs with
                  | Err e => Fails e
                  | Ok bss => Done bss
                  end
              end
          end
      end
  end.

(** ** [waitForBuild] *)

(** What the [select] of [waitForBuild] receives: the cancellation
    signal, or a tick, at which [BuildGet] answers [b]. *)
Inductive wait_event : Type :=
| CtxDone
| Tick (b : result Build).

(** [waitForBuild(ctx, id)] against the events [evs]: how it ends, and
    the number of polls ([BuildGet] calls) it made. *)
Fixpoint waitForBuild (evs : list wait_event) : run error * nat :=
  match evs with
  | [] => (Pending, 0%nat)
  | CtxDone :: _ => (Returns None, 0%nat)
  | Tick (Err e) :: _ => (Returns (Some e), 1%nat)
  | Tick (Ok b) :: rest =>
      if String.eqb (Status b) "created" || String.eqb (Status b) "running"
      then let '(r, n) := waitForBuild rest in (r, S n)
      else if String.eqb (Status b) "complete" then (Returns None, 1%nat)
      else if String.eqb (Status b) "failed" then (Returns (Some "build failed"), 1%nat)
      else (Returns (Some ("unknown build status: " ++ Status b)), 1%nat)
  end.

(** ** [handleAdds] and [handleRemoves] *)

(** [tar.Header{Name: filepath.Join(remote, add.Path), ...}] *)
Definition headerOf (remote : string) (add : Change) (stat : FileInfo) : Header :=
  {| h_Name := Filepath.Join [remote; Path add];
     h_Mode := Mode stat;
     h_Size := Size stat;
     h_ModTime := ModTime stat |}.

(** The loop [for _, add := range adds]: the headers handed to the tar
    writer, and how the loop ends: blocked in a write to the pipe,
    returning from [handleAdds] with an error, or ([Returns None])
    running to its end. *)
Fixpoint tarAdds (h : Host) (app pid remote : string) (adds : list Change)
  : list Header * run error :=
  match adds with
  | [] => ([], Returns None)
  | add :: rest =>
      let local := Filepath.Join [Base add; Path add] in
      match os_Stat h local with
      | StatNotExist _ => tarAdds h app pid remote rest
      | StatErr e => ([], Returns (Some e))
      | StatOk stat =>
          let hd := headerOf remote add stat in
          if negb (tar_WriteHeader h app pid hd) then ([hd], Pending)
          else
            match os_Open h local with
            | Some e => ([hd], Returns (Some e))
            | None =>
                match io_Copy h app pid local with
                | Pending => ([hd], Pending)
                | Returns (Some e) => ([hd], Returns (Some e))
                | Returns None =>
                    let '(hds, r) := tarAdds h app pid remote rest in (hd :: hds, r)
                end
            end
      end
  end.

(** The remote directory of [handleAdds]: a path that is not rooted is
    joined to what [pwd] prints in the process. *)
Definition remoteDir (h : Host) (app pid remote : string) : result string :=
  if Filepath.IsAbs remote then Ok remote
  else match ProcessExec_pwd h app pid with
       | Err e => Err (pid ++ " pwd: " ++ e)
       | Ok out => Ok (Filepath.Join [Strs.TrimSpace out; remote])
       end.

(** [handleAdds(pid, remote, adds)]: how the call ends, and the headers
    handed to the tar writer. *)
Definition handleAdds (h : Host) (app pid remote : string) (adds : list Change)
  : run error * list Header :=
  if (length adds =? 0)%nat then (Returns None, [])
  else
    match remoteDir h app pid remote with
    | Err e => (Returns (Some e), [])
    | Ok remote =>
        match tarAdds h app pid remote adds with
        | (hds, Pending) => (Pending, hds)
        | (hds, Returns (Some e)) => (Returns (Some e), hds)
        | (hds, Returns None) =>
            match tar_Close h app pid with
            | Pending => (Pending, hds)
            | Returns (Some e) => (Returns (Some e), hds)
            | Returns None =>
                match pipe_Close h with
                | Some e => (Returns (Some e), hds)
                | None => (FilesUpload h app pid hds, hds)
                end
            end
        end
    end.

(** [handleRemoves(pid, removes)] *)
Definition handleRemoves (lib : Lib) (h : Host) (app pid : string)
    (removes : list Change) : error :=
  if (length removes =? 0)%nat then None
  else FilesDelete h app pid (changes_Files lib removes).

(** ** [watchPath] *)

(** [common.CoalesceString(s, d)] *)
Definition CoalesceString (s d : string) : string :=
  if String.eqb s "" then d else s.

(** What the [select] of [watchPath] receives: the cancellation signal,
    a change from the watcher, or a tick, the host then being [h]. *)
Inductive watch_event : Type :=
| WDone
| WChange (c : Change)
| WTick (h : Host).

(** The first [switch] of the loop over the processes. *)
Definition addMessages (service : string) (bs : buildSource) (adds : list Change)
  : list effect :=
  if (3 <? length adds)%nat then
    [Writef "convox" ("sync: " ++ fmt_d (length adds) ++ " files to <dir>"
                        ++ CoalesceString (Remote bs) "." ++ "</dir> on <service>"
                        ++ service ++ "</service>" ++ String "010" "")]
  else if (0 <? length adds)%nat then
    map (fun a => Writef "convox" ("sync: <dir>" ++ Path a ++ "</dir> to <dir>"
                        ++ CoalesceString (Remote bs) "." ++ "</dir> on <service>"
                        ++ service ++ "</service>" ++ String "010" "")) adds
  else [].

(** The second [switch] of the loop over the processes. *)
Definition removeMessages (service : string) (bs : buildSource) (removes : list Change)
  : list effect :=
  if (3 <? length removes)%nat then
    [Writef "convox" ("remove: " ++ fmt_d (length removes) ++ " files from <dir>"
                        ++ CoalesceString (Remote bs) "." ++ "</dir> to <service>"
                        ++ service ++ "</service>" ++ String "010" "")]
  else if (0 <? length removes)%nat then
    map (fun r => Writef "convox" ("remove: <dir>" ++ Path r ++ "</dir> from <dir>"
                        ++ CoalesceString (Remote bs) "." ++ "</dir> on <service>"
                        ++ service ++ "</service>" ++ String "010" "")) removes
  else [].

(** The line written when [handleAdds] or [handleRemoves] fails. *)
Definition reportError (what : string) (e : error) : list effect :=
  match e with
  | Some msg => [Writef "convox" (what ++ msg ++ String "010" "")]
  | None => []
  end.

(** The body of [for _, ps := range pss]: what it writes, and whether
    it comes to its end; it does not when [handleAdds] does not
    return. *)
Definition syncProcess (lib : Lib) (h : Host) (app service : string) (bs : buildSource)
    (adds removes : list Change) (ps : Process) : list effect * bool :=
  match fst (handleAdds h app (Process_Id ps) (Remote bs) adds) with
  | Pending => (addMessages service bs adds, false)
  | Returns e =>
      ((addMessages service bs adds
        ++ reportError "sync add error: " e
        ++ removeMessages service bs removes
        ++ reportError "sync remove error: "
             (handleRemoves lib h app (Process_Id ps) removes))%list,
       true)
  end.

(** The loop [for _, ps := range pss]: what it writes, and whether it
    comes to its end. *)
Fixpoint syncProcesses (lib : Lib) (h : Host) (app service : string) (bs : buildSource)
    (adds removes : list Change) (pss : list Process) : list effect * bool :=
  match pss with
  | [] => ([], true)
  | ps :: rest =>
      match syncProcess lib h app service bs adds removes ps with
      | (tr, false) => (tr, false)
      | (tr, true) =>
          let '(tr', ended) := syncProcesses lib h app service bs adds removes rest in
          ((tr ++ tr')%list, ended)
      end
  end.

(** The loop [for { select { ... } }] of [watchPath]; [chgs] is the
    batch gathered since the last flush.  A flush that does not come to
    its end is the last thing the loop does. *)
Fixpoint watchLoop (lib : Lib) (app service : string) (bs : buildSource)
    (evs : list watch_event) (chgs : list Change) : list effect :=
  match evs with
  | [] => []
  | WDone :: _ => []
  | WChange c :: rest => watchLoop lib app service bs rest (chgs ++ [c])
  | WTick h :: rest =>
      if (length chgs =? 0)%nat then watchLoop lib app service bs rest chgs
      else
        match ProcessList h app service with
        | Err e =>
            Writef "convox" ("sync error: " ++ e ++ String "010" "")
            :: watchLoop lib app service bs rest chgs
        | Ok pss =>
            let '(adds, removes) := changes_Partition lib chgs in
            let '(tr, ended) := syncProcesses lib h app service bs adds removes pss in
            if ended then (tr ++ watchLoop lib app service bs rest [])%list else tr
        end
  end.

(** [watchPath(ctx, pw, service, root, bs, ignores, ch)], [h] being the
    host when the task starts. *)
Definition watchPath (lib : Lib) (h : Host) (app service : string) (bs : buildSource)
    (evs : list watch_event) : list effect :=
  match Filepath.Abs (os_Getwd h) (Local bs) with
  | Err e => [Send ("sync error: " ++ e)]
  | Ok abs =>
      match os_Getwd h with
      | Err e => [Send ("sync error: " ++ e)]
      | Ok wd =>
          match filepath_Rel lib wd (Local bs) with
          | Err e => [Send ("sync error: " ++ e)]
          | Ok rel =>
              Writef "convox" ("starting sync from <dir>" ++ rel ++ "</dir> to <dir>"
                                 ++ CoalesceString (Remote bs) "." ++ "</dir> on <service>"
                                 ++ service ++ "</service>" ++ String "010" "")
              :: Go ("changes.Watch " ++ abs)
              :: watchLoop lib app service bs evs []
          end
      end
  end.

(** [handleErrors(ctx, pw, errch)]: what the aggregator writes for the
    values it receives from the error channel until cancellation. *)
Inductive errch_event : Type :=
| EDone
| ERecv (err : error).

Fixpoint handleErrors (evs : list errch_event) : list effect :=
  match evs with
  | [] => []
  | EDone :: _ => []
  | ERecv (Some e) :: rest =>
      Writef "convox" ("<error>error: " ++ e ++ "</error>" ++ String "010" "")
      :: handleErrors rest
  | ERecv None :: rest => handleErrors rest
  end.

(** ** [writeLogs] *)

(** [ScannerMaxSize] *)
Definition ScannerMaxSize : N := 20 * 1024 * 1024.

(** [reAppLog]: the whole line (from ^ to $) is
    [(\d{4}-\d{2}-\d{2})], [T], [(\d{2}:\d{2}:\d{2})], [Z], a space,
    [([^/]+)/([^/]+)/([^ ]+)], a space, and a sixth group that takes
    any number of bytes other than a newline. *)
Definition reAppLog : Regexp.regex :=
  let d n := Regexp.Rep n Regexp.digit in
  let l c := Regexp.lit c in
  fold_right Regexp.Seq Regexp.Empty
    [ Regexp.Bot;
      Regexp.Group 1
        (fold_right Regexp.Seq Regexp.Empty
           [d 4%nat; l "-"%char; d 2%nat; l "-"%char; d 2%nat]);
      l "T"%char;
      Regexp.Group 2
        (fold_right Regexp.Seq Regexp.Empty
           [d 2%nat; l ":"%char; d 2%nat; l ":"%char; d 2%nat]);
      l "Z"%char; l " "%char;
      Regexp.Group 3 (Regexp.Plus (Regexp.non "/"%char)); l "/"%char;
      Regexp.Group 4 (Regexp.Plus (Regexp.non "/"%char)); l "/"%char;
      Regexp.Group 5 (Regexp.Plus (Regexp.non " "%char)); l " "%char;
      Regexp.Group 6 (Regexp.Star Regexp.dot);
      Regexp.Eot ].

(** [ansiScreenSequences]: one pattern, "\033\[\d+;\d+H". *)
Definition ansiScreenSequences : list Regexp.regex :=
  [ fold_right Regexp.Seq Regexp.Empty
      [ Regexp.lit "027"%char; Regexp.lit "["%char;
        Regexp.Plus Regexp.digit; Regexp.lit ";"%char;
        Regexp.Plus Regexp.digit; Regexp.lit "H"%char ] ].

(** [stripANSIScreenCommands(data)] *)
Definition stripANSIScreenCommands (data : string) : string :=
  fold_left (fun data r => Regexp.ReplaceAllString r data "") ansiScreenSequences data.

(** [services[name]] for a [map[string]bool]: a missing key reads as
    [false]. *)
Definition wanted (services : gmap string bool) (name : string) : bool :=
  default false (services !! name).

(** The [default:] branch of the [select] in [writeLogs], for one line
    of the log stream. *)
Definition writeLine (services : gmap string bool) (line : string) : list effect :=
  match Regexp.FindStringSubmatch reAppLog 6 line with
  | None => []
  | Some m =>
      if negb (length m =? 7)%nat then []
      else if String.eqb (nth 3 m "") "service" then
        let service := nth 4 m "" in
        if negb (wanted services service) then []
        else [Writef service (stripANSIScreenCommands (nth 6 m "") ++ String "010" "")]
      else if String.eqb (nth 3 m "") "system" then
        let service := Strs.Split_first (nth 5 m "") "-" in
        if negb (wanted services service) then []
        else [Writef service (nth 6 m "" ++ String "010" "")]
      else []
  end.

(** The loop [for ls.Scan()]: [cancelled i] tells whether the
    cancellation signal is seen when line [i] is reached; the flag of
    the result tells whether the loop ran to the end of the scan. *)
Fixpoint writeLines (cancelled : nat -> bool) (services : gmap string bool)
    (i : nat) (lines : list string) : list effect * bool :=
  match lines with
  | [] => ([], true)
  | line :: rest =>
      if cancelled i then ([], false)
      else let '(out, fin) := writeLines cancelled services (S i) rest in
           ((writeLine services line ++ out)%list, fin)
  end.

(** [writeLogs(ctx, pw, r, services)]: [data] is what the reader [r]
    delivers and [rerr] how it ends ([None] for end of file). *)
Definition writeLogs (cancelled : nat -> bool) (services : gmap string bool)
    (data : string) (rerr : error) : list effect :=
  let '(lines, long) := Bufio.ScanLines ScannerMaxSize data in
  let '(out, fin) := writeLines cancelled services 0 lines in
  if fin then
    (out ++ reportError "scan error: "
              (if long then Some "bufio.Scanner: token too long" else rerr))%list
  else out.

(** ** [Start2] and [buildCreate]

    A sequential task either goes on with a value or leaves the function
    it belongs to (returning an error value, or blocked for good), and
    in both cases has written a trace. *)
Definition task (A : Type) : Type := (A + run error) * list effect.

Definition ret {A} (a : A) : task A := (inl a, []).
Definition leave {A} (r : run error) : task A := (inr r, []).
Definition emit (e : list effect) : task unit := (inl tt, e).

Definition bind {A B} (m : task A) (f : A -> task B) : task B :=
  match m with
  | (inl a, tr) => let '(r, tr') := f a in (r, (tr ++ tr')%list)
  | (inr r, tr) => (inr r, tr)
  end.

Notation "x <- m ;; k" := (bind m (fun x => k))
  (at level 62, m at next level, right associativity, only parsing).
Notation "m ;;; k" := (bind m (fun _ => k))
  (at level 62, right associativity, only parsing).

(** [if err != nil { return err }] *)
Definition try {A} (r : result A) : task A :=
  match r with Ok a => ret a | Err e => leave (Returns (Some e)) end.

Definition check (e : error) : task unit :=
  match e with None => ret tt | Some msg => leave (Returns (Some msg)) end.

(** [select { case <-ctx.Done(): return nil; default: }] *)
Definition returnIfDone (done : bool) : task unit :=
  if done then leave (Returns None) else ret tt.

(** What the function returns when the task runs to its end with [nil]. *)
Definition finish (t : task unit) : run error * list effect :=
  match t with
  | (inl _, tr) => (Returns None, tr)
  | (inr r, tr) => (r, tr)
  end.

(** The answers one session of [Start2] gets, in the order of the calls
    that ask for them. *)
Record Session : Type := mkSession {
  ctx_done_at_entry : bool;
  AppGet : string -> result App;
  AppCreate : string -> error;
  ReadFile : string -> result string;
  AppEnvironment : string -> error;
  manifest_Load : string -> result Manifest;
  manifest_Validate : Manifest -> error;
  (* buildCreate *)
  Tarball : error;
  ObjectStore : string -> result string;
  BuildCreate : string -> string -> result Build;
  BuildLogs : string -> string -> error;
  build_events : list wait_event;
  BuildGet : string -> string -> result Build;
  (* buildCreateExternal *)
  SystemGet : error;
  BuildUpdate_manifest : string -> string -> error;
  url_Parse : error;
  builder_New : error;
  builder_Execute : error;
  ReleaseCreate : string -> result string;
  BuildUpdate_release : string -> string -> result Build;
  (* after the build *)
  ctx_done_after_build : bool;
  ReleasePromote : string -> string -> error;
  Getwd : error;
  WaitForAppRunning : string -> error;
  ctx_cancelled : bool;
  AppGet_final : string -> result App;
  ReleasePromote_final : string -> string -> error
}.

(** [buildCreateExternal(ctx, pw, bopts)] *)
Definition buildCreateExternal (s : Session) (opts : Options2) : task Build :=
  check (SystemGet s) ;;;
  b <- try (BuildCreate s (opt_App opts) "") ;;
  let manifest := CoalesceString (opt_Manifest opts) "convox.yml" in
  data <- try (ReadFile s (Filepath.Join ["."; manifest])) ;;
  check (BuildUpdate_manifest s (Build_Id b) data) ;;;
  check (url_Parse s) ;;;
  check (builder_New s) ;;;
  check (builder_Execute s) ;;;
  r <- try (ReleaseCreate s (Build_Id b)) ;;
  bu <- try (BuildUpdate_release s (Build_Id b) r) ;;
  ret bu.

(** [buildCreate(ctx, pw, bopts)] *)
Definition buildCreate (s : Session) (opts : Options2) : task Build :=
  if opt_External opts then buildCreateExternal s opts
  else
    emit [Writef "build" ("uploading source" ++ String "010" "")] ;;;
    check (Tarball s) ;;;
    o <- try (ObjectStore s (opt_App opts)) ;;
    emit [Writef "build" ("starting build" ++ String "010" "")] ;;;
    b <- try (BuildCreate s (opt_App opts) o) ;;
    check (BuildLogs s (opt_App opts) (Build_Id b)) ;;;
    emit [Go "io.Copy"] ;;;
    match fst (waitForBuild (build_events s)) with
    | Pending => leave Pending
    | Returns (Some e) => leave (Returns (Some e))
    | Returns None =>
        b <- try (BuildGet s (opt_App opts) (Build_Id b)) ;;
        ret b
    end.

(** The [services] map of [Start2]. *)
Definition servicesOf (opts : Options2) (m : Manifest) : gmap string bool :=
  match opt_Services opts with
  | None => fold_left (fun acc svc => <[Name svc := true]> acc) (Services m) ∅
  | Some names => fold_left (fun acc n => <[n := true]> acc) names ∅
  end.

(** [Start2(ctx, w, opts)] *)
Definition Start2 (s : Session) (opts : Options2) : run error * list effect :=
  finish (
    returnIfDone (ctx_done_at_entry s) ;;;
    (if String.eqb (opt_App opts) "" then leave (Returns (Some "app required"))
     else ret tt) ;;;
    match AppGet s (opt_App opts) with
    | Err _ => check (AppCreate s (opt_App opts))
    | Ok a =>
        if negb (String.eqb (Generation a) "2") && negb (String.eqb (Generation a) "3")
        then leave (Returns (Some ("invalid generation: " ++ Generation a)))
        else ret tt
    end ;;;
    data <- try (ReadFile s (CoalesceString (opt_Manifest opts) "convox.yml")) ;;
    check (AppEnvironment s (opt_App opts)) ;;;
    m <- try (manifest_Load s data) ;;
    check (manifest_Validate s m) ;;;
    let services := servicesOf opts m in
    (if opt_Build opts then
       b <- buildCreate s opts ;;
       returnIfDone (ctx_done_after_build s) ;;;
       check (ReleasePromote s (opt_App opts) (Build_Release b))
     else ret tt) ;;;
    emit [Go "streamLogs"; Go "handleErrors"] ;;;
    check (Getwd s) ;;;
    emit (map (fun svc => Go ("watchChanges " ++ Name svc))
            (List.filter (fun svc => wanted services (Name svc)
                                     && negb (String.eqb (Build_Path svc) ""))
               (Services m))) ;;;
    check (WaitForAppRunning s (opt_App opts)) ;;;
    (if ctx_cancelled s then ret tt else leave Pending) ;;;
    match AppGet_final s (opt_App opts) with
    | Err _ => leave (Returns None)
    | Ok a =>
        emit [Writef "convox" ("stopping" ++ String "010" "")] ;;;
        if negb (String.eqb (App_Release a) "")
        then check (ReleasePromote_final s (opt_App opts) (App_Release a))
        else ret tt
    end).

(** ** A concrete project

    Collaborators for the examples below: a project in [/app] with a
    [Dockerfile] and a directory [src], built on the image [base], whose
    configured environment is [PORT=8080] and whose working directory
    is [/srv]; a service [web] with two running processes, to which
    every upload reads the archive to its end. *)
Module Sample.

(** The scheme that [url.Parse] finds at the head of [raw]: the letters,
    digits, [+], [-] and [.] before the first colon, when they start
    with a letter. *)
Fixpoint getScheme (first : bool) (acc raw : string) : result string :=
  match raw with
  | EmptyString => Ok ""
  | String c rest =>
      let n := nat_of_ascii c in
      if (((97 <=? n) && (n <=? 122)) || ((65 <=? n) && (n <=? 90)))%nat
      then getScheme false (acc ++ String c "") rest
      else if (((48 <=? n) && (n <=? 57)) || (n =? 43) || (n =? 45) || (n =? 46))%nat
      then if first then Ok "" else getScheme false (acc ++ String c "") rest
      else if (n =? 58)%nat
      then if first then Err "missing protocol scheme"
           else Ok (Strs.map_bytes Strs.lower acc)
      else Ok ""
  end.

Definition isOp (op : string) (c : Change) : bool := String.eqb (Operation c) op.

(** What [docker inspect --format '{{json .Config.Env}}' base] prints. *)
Definition baseEnvJSON : string :=
  "[" ++ String "034" "PORT=8080" ++ String "034" "]".

(** The case tables, on the runes beyond ASCII whose other case is an
    ASCII letter: the dotless i (U+0131) and the long s (U+017F) have
    the upper cases [I] and [S], the dotted capital I (U+0130) and the
    Kelvin sign (U+212A) the lower cases [i] and [k].  The other runes
    are left as they are: the examples hold none that has another
    case. *)
Definition toUpperCase (r : Utf8.rune) : Utf8.rune :=
  if (r =? 0x131)%N then 0x49%N else if (r =? 0x17F)%N then 0x53%N else r.

Definition toLowerCase (r : Utf8.rune) : Utf8.rune :=
  if (r =? 0x212A)%N then 0x6B%N else if (r =? 0x130)%N then 0x69%N else r.

Definition lib : Lib :=
  {| changes_Partition := fun chgs => (List.filter (isOp "add") chgs,
                                       List.filter (isOp "remove") chgs);
     changes_Files := map Path;
     json_Unmarshal := fun data =>
       if String.eqb data baseEnvJSON then Ok ["PORT=8080"]
       else Err "unexpected end of JSON input";
     url_Parse_Scheme := getScheme true "";
     filepath_Rel := Filepath.Rel;
     unicode_To_UpperCase := toUpperCase;
     unicode_To_LowerCase := toLowerCase |}.

Definition dir : FileInfo := {| Mode := 493; Size := 4096; ModTime := 0; IsDir := true |}.
Definition file : FileInfo := {| Mode := 420; Size := 12; ModTime := 0; IsDir := false |}.

Definition stat (p : string) : stat_result :=
  if String.eqb p "/app" || String.eqb p "/app/src" then StatOk dir
  else if String.eqb p "/app/Dockerfile" || String.eqb p "/app/src/main.go"
          || String.eqb p "/app/src/a.go" || String.eqb p "/app/src/b.go"
          || String.eqb p "/app/src/c.go" || String.eqb p "/app/src/d.go"
  then StatOk file
  else if String.eqb p "/app/src/secret.key"
  then StatErr ("stat " ++ p ++ ": permission denied")
  else StatNotExist ("stat " ++ p ++ ": no such file or directory").

Definition inspect (args : list string) : result string :=
  match args with
  | ["docker"; "inspect"; "base"; "--format"; what] =>
      if String.eqb what "{{json .Config.Env}}" then Ok baseEnvJSON
      else if String.eqb what "{{.Config.WorkingDir}}" then Ok ("/srv" ++ String "010" "")
      else Err "exit status 1"
  | _ => Err "exit status 1"
  end.

(** The host, [dockerfile] being the text of [/app/Dockerfile]. *)
Definition host (dockerfile : string) : Host :=
  {| ProcessList := fun _ _ => Ok [ {| Process_Id := "web-1" |}; {| Process_Id := "web-2" |} ];
     ProcessExec_pwd := fun _ _ => Ok ("/srv" ++ String "010" "");
     FilesUpload := fun _ _ _ => Returns None;
     FilesDelete := fun _ _ _ => None;
     os_Getwd := Ok "/app";
     os_Stat := stat;
     os_ReadFile := fun p =>
       if String.eqb p "/app/Dockerfile" then Ok dockerfile
       else Err ("open " ++ p ++ ": no such file or directory");
     os_Open := fun _ => None;
     tar_WriteHeader := fun _ _ _ => true;
     io_Copy := fun _ _ _ => Returns None;
     tar_Close := fun _ _ => Returns None;
     pipe_Close := None;
     Exec_Execute := inspect;
     map_range := map_to_list |}.

(** The same host when the uploads have stopped reading, their end of
    the pipe left open: no write into the pipe returns. *)
Definition stalled : Host :=
  {| ProcessList := ProcessList (host "");
     ProcessExec_pwd := ProcessExec_pwd (host "");
     FilesUpload := fun _ _ _ => Pending;
     FilesDelete := FilesDelete (host "");
     os_Getwd := os_Getwd (host "");
     os_Stat := os_Stat (host "");
     os_ReadFile := os_ReadFile (host "");
     os_Open := os_Open (host "");
     tar_WriteHeader := fun _ _ _ => false;
     io_Copy := fun _ _ _ => Pending;
     tar_Close := fun _ _ => Pending;
     pipe_Close := pipe_Close (host "");
     Exec_Execute := Exec_Execute (host "");
     map_range := map_range (host "") |}.

Definition web : Service :=
  {| Name := "web"; Image := ""; Build_Path := "."; Build_Manifest := "Dockerfile" |}.

Definition manifest : Manifest :=
  {| Services := [web];
     Manifest_Service := fun name =>
       if String.eqb name "web" then Ok web else Err ("no such service: " ++ name) |}.

(** A Dockerfile from its lines. *)
Definition unlines (ls : list string) : string :=
  fold_right (fun l acc => l ++ String "010" acc) "" ls.

Definition add (p : string) : Change :=
  {| Operation := "add"; Base := "/app/src"; Path := p |}.

Definition remove (p : string) : Change :=
  {| Operation := "remove"; Base := "/app/src"; Path := p |}.

End Sample.

(** * Properties *)

(** ** Environment substitution *)

Section ReplaceEnv.

Definition port : gmap string string := {[ "PORT" := "8080" ]}.

(** A map with one entry is visited in one way only. *)
Lemma range_singleton (kvs : list (string * string)) (k v : string) :
  kvs ≡ₚ map_to_list ({[ k := v ]} : gmap string string) -> kvs = [(k, v)].
Proof.
  rewrite map_to_list_singleton. intros Hp.
  symmetry in Hp. now apply Permutation_singleton_l in Hp.
Qed.

(** C9. With the environment [{PORT: 8080}], whatever the order in which
    the map is visited, [replaceEnv] turns ["/${PORT}/app"] and
    ["/$PORT/app"] into ["/8080/app"], and applied to ["/8080/app"]
    returns it unchanged. *)
Theorem replaceEnv_PORT (kvs : list (string * string)) :
  kvs ≡ₚ map_to_list port ->
  replaceEnv "/${PORT}/app" kvs = "/8080/app"
  /\ replaceEnv "/$PORT/app" kvs = "/8080/app"
  /\ replaceEnv "/8080/app" kvs = "/8080/app"
  /\ replaceEnv (replaceEnv "/${PORT}/app" kvs) kvs = replaceEnv "/${PORT}/app" kvs.
Proof.
  intros Hp. apply range_singleton in Hp. subst kvs.
  split; [| split; [| split]]; vm_compute; reflexivity.
Qed.

Lemma replaceEnv_PORT_witness :
  replaceEnv "/${PORT}/app" (map_to_list port) = "/8080/app"
  /\ replaceEnv "/$PORT/app" (map_to_list port) = "/8080/app"
  /\ replaceEnv "/8080/app" (map_to_list port) = "/8080/app"
  /\ replaceEnv (replaceEnv "/${PORT}/app" (map_to_list port)) (map_to_list port)
     = replaceEnv "/${PORT}/app" (map_to_list port).
Proof. apply (replaceEnv_PORT (map_to_list port)). reflexivity. Defined.

(** More generally, a string without a dollar sign holds no variable
    token, and [replaceEnv] returns it as it is, whatever the map. *)
Fixpoint no_dollar (s : string) : bool :=
  match s with
  | EmptyString => true
  | String c s' => negb (Ascii.eqb c "$") && no_dollar s'
  end.

Lemma Replace_no_dollar (s old new : string) :
  no_dollar s = true -> Strs.Replace s ("$" ++ old) new = s.
Proof.
  unfold Strs.Replace.
  change ("$" ++ old) with (String "$" old).
  induction s as [|c s IH]; [reflexivity |].
  cbn [no_dollar]. intros H. apply andb_true_iff in H as [Hc Hs].
  cbn [Strs.Replace_from String.prefix].
  destruct (ascii_dec "$" c) as [<- | _];
    [rewrite Ascii.eqb_refl in Hc; discriminate Hc |].
  now rewrite IH.
Qed.

Lemma replaceEnv_no_dollar (s : string) (env : list (string * string)) :
  no_dollar s = true -> replaceEnv s env = s.
Proof.
  intros Hs. unfold replaceEnv.
  assert (Hstep : forall kv, replaceEnv_step s kv = s).
  { intros [k v]. unfold replaceEnv_step. cbn [fst snd].
    change ("${" ++ k ++ "}") with ("$" ++ ("{" ++ k ++ "}")).
    rewrite (Replace_no_dollar s _ v Hs). exact (Replace_no_dollar s k v Hs). }
  induction env as [|kv env IH]; [reflexivity |].
  cbn [fold_left]. now rewrite Hstep.
Qed.

End ReplaceEnv.

(** ** Build polling *)

Section WaitForBuild.

Variables (id release : string).

(** The ticks at which the build [id] is reported with the statuses
    [sts], in turn. *)
Definition ticks (sts : list string) : list wait_event :=
  map (fun st => Tick (Ok {| Build_Id := id; Status := st; Build_Release := release |})) sts.

(** The statuses at which polling goes on. *)
Definition in_progress (st : string) : Prop := st = "created" \/ st = "running".

(** While the build is reported as created or running, every tick is
    one more poll and the loop goes on with the events that follow. *)
Lemma waitForBuild_in_progress (sts : list string) (rest : list wait_event) :
  Forall in_progress sts ->
  waitForBuild (ticks sts ++ rest)
  = (fst (waitForBuild rest), (length sts + snd (waitForBuild rest))%nat).
Proof.
  induction 1 as [|st sts Hst _ IH]; simpl.
  - now destruct (waitForBuild rest).
  - rewrite IH.
    destruct Hst as [-> | ->]; reflexivity.
Qed.

End WaitForBuild.

(** C2. One poll per tick: on the statuses created, running, complete
    [waitForBuild] returns nil after exactly 3 polls; on running, failed
    it returns the build-failure error at the second poll; on running,
    bogus it returns the unknown-status error; and as long as the
    statuses are created or running it keeps polling, one poll per
    tick, without returning. *)
Theorem waitForBuild_polls (id release : string) (sts : list string)
    (rest : list wait_event) :
  Forall in_progress sts ->
  waitForBuild (ticks id release ["created"; "running"; "complete"] ++ rest)
  = (Returns None, 3%nat)
  /\ waitForBuild (ticks id release ["running"; "failed"] ++ rest)
     = (Returns (Some "build failed"), 2%nat)
  /\ waitForBuild (ticks id release ["running"; "bogus"] ++ rest)
     = (Returns (Some "unknown build status: bogus"), 2%nat)
  /\ waitForBuild (ticks id release sts) = (Pending, length sts)
  /\ waitForBuild (ticks id release sts ++ rest)
     = (fst (waitForBuild rest), (length sts + snd (waitForBuild rest))%nat).
Proof.
  intros Hsts. repeat split; try reflexivity.
  - rewrite <- (app_nil_r (ticks id release sts)).
    rewrite waitForBuild_in_progress by assumption. simpl.
    now rewrite Nat.add_0_r.
  - now apply waitForBuild_in_progress.
Qed.

Lemma waitForBuild_polls_witness :
  waitForBuild (ticks "B1" "R1" ["created"; "running"; "complete"] ++ [CtxDone])
  = (Returns None, 3%nat)
  /\ waitForBuild (ticks "B1" "R1" ["running"; "failed"] ++ [CtxDone])
     = (Returns (Some "build failed"), 2%nat)
  /\ waitForBuild (ticks "B1" "R1" ["running"; "bogus"] ++ [CtxDone])
     = (Returns (Some "unknown build status: bogus"), 2%nat)
  /\ waitForBuild (ticks "B1" "R1" ["created"; "created"; "running"])
     = (Pending, 3%nat)
  /\ waitForBuild (ticks "B1" "R1" ["created"; "created"; "running"] ++ [CtxDone])
     = (fst (waitForBuild [CtxDone]), (3 + snd (waitForBuild [CtxDone]))%nat).
Proof.
  apply (waitForBuild_polls "B1" "R1" ["created"; "created"; "running"] [CtxDone]).
  repeat (constructor; [unfold in_progress; auto |]).
  constructor.
Defined.

(** ** Cancellation *)

Section Cancellation.

(** Everything [Start2] does before it builds succeeds: the session is
    not cancelled at entry, the application is named and exists in
    generation 2 or 3 (or can be created), and its manifest loads and
    validates. *)
Definition setup_succeeds (s : Session) (opts : Options2) : Prop :=
  ctx_done_at_entry s = false
  /\ opt_App opts <> ""
  /\ match AppGet s (opt_App opts) with
     | Err _ => AppCreate s (opt_App opts) = None
     | Ok a => Generation a = "2" \/ Generation a = "3"
     end
  /\ exists data m,
       ReadFile s (CoalesceString (opt_Manifest opts) "convox.yml") = Ok data
       /\ AppEnvironment s (opt_App opts) = None
       /\ manifest_Load s data = Ok m
       /\ manifest_Validate s m = None.

Lemma bind_inl {A B} (m : task A) (f : A -> task B) (a : A) (tr : list effect) :
  m = (inl a, tr) -> bind m f = (fst (f a), (tr ++ snd (f a))%list).
Proof. intros ->. unfold bind. now destruct (f a). Qed.

Lemma bind_inr {A B} (m : task A) (f : A -> task B) (r : run error) (tr : list effect) :
  m = (inr r, tr) -> bind m f = (inr r, tr).
Proof. now intros ->. Qed.

Lemma bind_ret {A B} (a : A) (f : A -> task B) : bind (ret a) f = f a.
Proof. unfold bind, ret. now destruct (f a). Qed.

(** A session in which every call succeeds and the build is reported
    created, running and then complete. *)
Definition calm (done_at_entry done_after_build : bool) : Session :=
  let b st := {| Build_Id := "B1"; Status := st; Build_Release := "R1" |} in
  {| ctx_done_at_entry := done_at_entry;
     AppGet := fun _ => Ok {| Generation := "2"; App_Release := "R0" |};
     AppCreate := fun _ => None;
     ReadFile := fun _ => Ok "services:";
     AppEnvironment := fun _ => None;
     manifest_Load := fun _ => Ok Sample.manifest;
     manifest_Validate := fun _ => None;
     Tarball := None;
     ObjectStore := fun _ => Ok "object://app/source.tgz";
     BuildCreate := fun _ _ => Ok (b "created");
     BuildLogs := fun _ _ => None;
     build_events := [Tick (Ok (b "created")); Tick (Ok (b "running"));
                      Tick (Ok (b "complete"))];
     BuildGet := fun _ _ => Ok (b "complete");
     SystemGet := None;
     BuildUpdate_manifest := fun _ _ => None;
     url_Parse := None;
     builder_New := None;
     builder_Execute := None;
     ReleaseCreate := fun _ => Ok "R1";
     BuildUpdate_release := fun _ _ => Ok (b "complete");
     ctx_done_after_build := done_after_build;
     ReleasePromote := fun _ _ => Some "promote: context canceled";
     Getwd := None;
     WaitForAppRunning := fun _ => None;
     ctx_cancelled := true;
     AppGet_final := fun _ => Ok {| Generation := "2"; App_Release := "R1" |};
     ReleasePromote_final := fun _ _ => None |}.

Definition dev : Options2 :=
  {| opt_App := "app"; opt_Build := true; opt_External := false;
     opt_Manifest := ""; opt_Services := None |}.

End Cancellation.

(** C7. Cancellation does not come back as an error: when the signal is
    received while [waitForBuild] waits for the next tick, it returns
    nil; [Start2] returns nil, having done nothing, when it finds the
    session cancelled at entry; and it returns nil, without promoting,
    when it finds the session cancelled after the build has completed. *)
Theorem cancellation_returns_nil (id release : string) (sts : list string)
    (rest : list wait_event) (s0 s : Session) (opts0 opts : Options2)
    (b : Build) (tr : list effect) :
  Forall in_progress sts ->
  ctx_done_at_entry s0 = true ->
  setup_succeeds s opts ->
  opt_Build opts = true ->
  buildCreate s opts = (inl b, tr) ->
  ctx_done_after_build s = true ->
  waitForBuild (ticks id release sts ++ CtxDone :: rest) = (Returns None, length sts)
  /\ Start2 s0 opts0 = (Returns None, [])
  /\ Start2 s opts = (Returns None, tr).
Proof.
  intros Hsts Hdone0 (Hentry & Happ & Hget & data & m & Hread & Henv & Hload & Hval)
         Hbuild Hcreate Hdone.
  split; [| split].
  - rewrite waitForBuild_in_progress by assumption. simpl.
    now rewrite Nat.add_0_r.
  - unfold Start2. now rewrite Hdone0.
  - unfold Start2. rewrite Hentry. unfold returnIfDone at 1. rewrite bind_ret.
    apply String.eqb_neq in Happ. rewrite Happ, bind_ret.
    assert (Hgen : match AppGet s (opt_App opts) with
                   | Ok a =>
                       if negb (String.eqb (Generation a) "2")
                          && negb (String.eqb (Generation a) "3")
                       then leave (Returns (Some ("invalid generation: " ++ Generation a)))
                       else ret tt
                   | Err _ => check (AppCreate s (opt_App opts))
                   end = ret tt).
    { destruct (AppGet s (opt_App opts)) as [a | e].
      - destruct Hget as [-> | ->]; reflexivity.
      - now rewrite Hget. }
    rewrite Hgen, bind_ret, Hread. unfold try at 1. rewrite bind_ret.
    rewrite Henv. unfold check at 1. rewrite bind_ret.
    rewrite Hload. unfold try at 1. rewrite bind_ret.
    rewrite Hval. unfold check at 1. rewrite bind_ret.
    rewrite Hbuild, Hcreate, Hdone. simpl. now rewrite app_nil_r.
Qed.

(** The build trace of the sample session. *)
Definition calm_build_trace : list effect :=
  [ Writef "build" ("uploading source" ++ String "010" "");
    Writef "build" ("starting build" ++ String "010" "");
    Go "io.Copy" ].

Lemma cancellation_returns_nil_witness :
  waitForBuild (ticks "B1" "R1" ["created"; "running"] ++ CtxDone :: [])
  = (Returns None, 2%nat)
  /\ Start2 (calm true true) dev = (Returns None, [])
  /\ Start2 (calm false true) dev = (Returns None, calm_build_trace).
Proof.
  apply (cancellation_returns_nil "B1" "R1" ["created"; "running"] []
           (calm true true) (calm false true) dev dev
           {| Build_Id := "B1"; Status := "complete"; Build_Release := "R1" |}
           calm_build_trace).
  - repeat (constructor; [unfold in_progress; auto |]). constructor.
  - reflexivity.
  - unfold setup_succeeds. simpl. repeat split; auto.
    exists "services:", Sample.manifest. repeat split; reflexivity.
  - reflexivity.
  - vm_compute. reflexivity.
  - reflexivity.
Defined.

(** Had the session [calm false true] not been cancelled, the promotion
    would have been attempted, and its failure returned. *)
Example Start2_not_cancelled :
  fst (Start2 (calm false false) dev) = Returns (Some "promote: context canceled").
Proof. vm_compute. reflexivity. Qed.

(** ** Log demultiplexing *)

Section WriteLogs.

(** What the loop of [writeLogs] writes for the line it has reached. *)
Lemma writeLines_cons (cancelled : nat -> bool) (services : gmap string bool)
    (i : nat) (line : string) (rest : list string) :
  fst (writeLines cancelled services i (line :: rest))
  = if cancelled i then []
    else (writeLine services line
          ++ fst (writeLines cancelled services (S i) rest))%list.
Proof.
  simpl. destruct (cancelled i); [reflexivity |].
  now destruct (writeLines cancelled services (S i) rest).
Qed.

(** The line of the specification: a service line of [web] whose
    message holds the cursor-positioning sequence ESC [ 1 ; 1 H. *)
Definition hello : string :=
  "2024-01-01T00:00:00Z service/web/i-123 Hello" ++ String "027" "[1;1HWorld".

Definition only_web : gmap string bool := {[ "web" := true ]}.

Definition never (_ : nat) : bool := false.

End WriteLogs.

(** C5. A line that the pattern does not match produces no output; a
    service line whose origin name is not in the interest set produces
    no output; and the line [hello], with the interest set [{web}],
    produces exactly one line, under the key [web], whose message is
    [HelloWorld]. *)
Theorem writeLogs_filters (services : gmap string bool) (junk line : string)
    (m : list string) :
  Regexp.FindStringSubmatch reAppLog 6 junk = None ->
  Regexp.FindStringSubmatch reAppLog 6 line = Some m ->
  nth 3 m "" = "service" ->
  wanted services (nth 4 m "") = false ->
  writeLine services junk = []
  /\ writeLine services line = []
  /\ fst (writeLines never services 0 [junk; line]) = []
  /\ writeLine only_web hello = [Writef "web" ("HelloWorld" ++ String "010" "")]
  /\ writeLogs never only_web (hello ++ String "010" "") None
     = [Writef "web" ("HelloWorld" ++ String "010" "")].
Proof.
  intros Hjunk Hline Hkind Hout.
  assert (H1 : writeLine services junk = []).
  { unfold writeLine. now rewrite Hjunk. }
  assert (H2 : writeLine services line = []).
  { unfold writeLine. rewrite Hline, Hkind, Hout. simpl.
    now destruct (negb (length m =? 7)%nat). }
  split; [exact H1 |]. split; [exact H2 |]. split; [| split].
  - rewrite !writeLines_cons. unfold never. now rewrite H1, H2.
  - vm_compute. reflexivity.
  - vm_compute. reflexivity.
Qed.

Lemma writeLogs_filters_witness :
  writeLine only_web "web: listening on :3000" = []
  /\ writeLine only_web "2024-01-01T00:00:00Z service/api/i-7 ready" = []
  /\ fst (writeLines never only_web 0
            ["web: listening on :3000"; "2024-01-01T00:00:00Z service/api/i-7 ready"])
     = []
  /\ writeLine only_web hello = [Writef "web" ("HelloWorld" ++ String "010" "")]
  /\ writeLogs never only_web (hello ++ String "010" "") None
     = [Writef "web" ("HelloWorld" ++ String "010" "")].
Proof.
  apply (writeLogs_filters only_web "web: listening on :3000"
           "2024-01-01T00:00:00Z service/api/i-7 ready"
           ["2024-01-01T00:00:00Z service/api/i-7 ready";
            "2024-01-01"; "00:00:00"; "service"; "api"; "i-7"; "ready"]).
  - vm_compute. reflexivity.
  - vm_compute. reflexivity.
  - reflexivity.
  - vm_compute. reflexivity.
Defined.

(** C10. A line that the pattern matches, but whose origin kind is
    neither [service] nor [system], produces no output, whatever the
    interest set. *)
Theorem writeLogs_other_kind (services : gmap string bool) (line : string)
    (m : list string) :
  Regexp.FindStringSubmatch reAppLog 6 line = Some m ->
  nth 3 m "" <> "service" ->
  nth 3 m "" <> "system" ->
  writeLine services line = []
  /\ forall (cancelled : nat -> bool) (i : nat) (rest : list string),
       fst (writeLines cancelled services i (line :: rest))
       = if cancelled i then [] else fst (writeLines cancelled services (S i) rest).
Proof.
  intros Hline Hsvc Hsys.
  assert (H : writeLine services line = []).
  { unfold writeLine. rewrite Hline.
    apply String.eqb_neq in Hsvc, Hsys. rewrite Hsvc, Hsys.
    now destruct (negb (length m =? 7)%nat). }
  split; [exact H |].
  intros cancelled i rest. rewrite writeLines_cons, H. reflexivity.
Qed.

Lemma writeLogs_other_kind_witness :
  writeLine only_web "2024-01-01T00:00:00Z build/web/i-7 step 1" = []
  /\ forall (cancelled : nat -> bool) (i : nat) (rest : list string),
       fst (writeLines cancelled only_web i
              ("2024-01-01T00:00:00Z build/web/i-7 step 1" :: rest))
       = if cancelled i then [] else fst (writeLines cancelled only_web (S i) rest).
Proof.
  apply (writeLogs_other_kind only_web "2024-01-01T00:00:00Z build/web/i-7 step 1"
           ["2024-01-01T00:00:00Z build/web/i-7 step 1";
            "2024-01-01"; "00:00:00"; "build"; "web"; "i-7"; "step 1"]).
  - vm_compute. reflexivity.
  - simpl. discriminate.
  - simpl. discriminate.
Defined.

(** ** Archiving the added files *)

Section HandleAdds.

Variables (h : Host) (app pid : string).

(** The file of a change, as [handleAdds] names it. *)
Definition localOf (c : Change) : string := Filepath.Join [Base c; Path c].

(** The header that [handleAdds] writes for a change whose file exists;
    none for a change whose [os.Stat] fails. *)
Definition entryOf (remote : string) (c : Change) : option Header :=
  match os_Stat h (localOf c) with
  | StatOk stat => Some (headerOf remote c stat)
  | _ => None
  end.

(** The file of [c] is gone: [os.Stat] reports that it does not
    exist. *)
Definition gone (c : Change) : Prop :=
  exists msg, os_Stat h (localOf c) = StatNotExist msg.

(** The file of [c] goes into the archive under [remote]: [os.Stat]
    succeeds, the header is written, the file is opened and its content
    is copied, the upload reading all of it. *)
Definition archived (remote : string) (c : Change) : Prop :=
  exists stat,
    os_Stat h (localOf c) = StatOk stat
    /\ tar_WriteHeader h app pid (headerOf remote c stat) = true
    /\ os_Open h (localOf c) = None
    /\ io_Copy h app pid (localOf c) = Returns None.

(** The file of [c] cannot be archived, the error being [e]: its
    [os.Stat] fails with an error other than not-exist, or it cannot be
    opened, or copying it into the archive fails. *)
Definition unreadable (c : Change) (e : string) : Prop :=
  os_Stat h (localOf c) = StatErr e
  \/ (exists stat, os_Stat h (localOf c) = StatOk stat /\ os_Open h (localOf c) = Some e)
  \/ (exists stat, os_Stat h (localOf c) = StatOk stat /\ os_Open h (localOf c) = None
                   /\ io_Copy h app pid (localOf c) = Returns (Some e)).

(** The write of the header of [c], if [c] gets one, returns. *)
Definition headed (remote : string) (c : Change) : Prop :=
  forall stat, os_Stat h (localOf c) = StatOk stat ->
               tar_WriteHeader h app pid (headerOf remote c stat) = true.

(** A file that is gone leaves no trace in the loop. *)
Lemma tarAdds_skip (remote : string) (pre post : list Change) (a : Change) :
  gone a ->
  tarAdds h app pid remote (pre ++ a :: post) = tarAdds h app pid remote (pre ++ post).
Proof.
  unfold gone, localOf. intros [msg Hgone].
  induction pre as [|x pre IH]; cbn [tarAdds List.app].
  - now rewrite Hgone.
  - now rewrite IH.
Qed.

(** The loop passes the files that are gone and archives the others,
    and goes on with the rest of the batch. *)
Lemma tarAdds_app (remote : string) (pre rest : list Change) :
  Forall (fun a => gone a \/ archived remote a) pre ->
  tarAdds h app pid remote (pre ++ rest)
  = ((omap (entryOf remote) pre ++ fst (tarAdds h app pid remote rest))%list,
     snd (tarAdds h app pid remote rest)).
Proof.
  unfold gone, archived, entryOf, localOf.
  induction 1 as [|a pre Ha _ IH]; cbn [List.app omap list_omap].
  - now destruct (tarAdds h app pid remote rest).
  - cbn [tarAdds]. destruct Ha as [[msg Hg] | (stat & Hs & Hw & Ho & Hc)].
    + now rewrite Hg.
    + rewrite Hs, Hw, Ho, Hc. cbn [negb]. now rewrite IH.
Qed.

Lemma tarAdds_archives (remote : string) (adds : list Change) :
  Forall (fun a => gone a \/ archived remote a) adds ->
  tarAdds h app pid remote adds = (omap (entryOf remote) adds, Returns None).
Proof.
  intros H. rewrite <- (app_nil_r adds) at 1.
  rewrite (tarAdds_app remote adds [] H). cbn [tarAdds fst snd].
  now rewrite app_nil_r.
Qed.

(** The loop returns the error of a file that cannot be archived as
    soon as it comes to it. *)
Lemma tarAdds_unreadable (remote : string) (c : Change) (post : list Change) (e : string) :
  unreadable c e -> headed remote c ->
  snd (tarAdds h app pid remote (c :: post)) = Returns (Some e).
Proof.
  unfold unreadable, headed, localOf. intros Hbad Hw. cbn [tarAdds].
  destruct Hbad as [-> | [(stat & Hs & Ho) | (stat & Hs & Ho & Hc)]]; [reflexivity | |].
  - rewrite Hs, (Hw stat Hs), Ho. reflexivity.
  - rewrite Hs, (Hw stat Hs), Ho, Hc. reflexivity.
Qed.

(** With a file that cannot be archived in the batch, the loop never
    runs to its end. *)
Lemma tarAdds_never_ends (remote : string) (adds : list Change) (c : Change) (e : string) :
  In c adds -> unreadable c e ->
  snd (tarAdds h app pid remote adds) <> Returns None.
Proof.
  unfold unreadable, localOf. intros Hin Hbad.
  induction adds as [|x adds IH]; [destruct Hin |].
  cbn [tarAdds].
  destruct (os_Stat h (Filepath.Join [Base x; Path x])) as [stat | msg | msg] eqn:Hstat.
  - destruct (tar_WriteHeader h app pid (headerOf remote x stat)); cbn [negb];
      [| discriminate].
    destruct (os_Open h (Filepath.Join [Base x; Path x])) as [e' |] eqn:Hopen;
      [discriminate |].
    destruct (io_Copy h app pid (Filepath.Join [Base x; Path x])) as [[e' |] |] eqn:Hcopy;
      [discriminate | | discriminate].
    destruct Hin as [-> | Hin].
    + exfalso. destruct Hbad as [He | [(i & He & He') | (i & _ & _ & He)]]; congruence.
    + specialize (IH Hin). now destruct (tarAdds h app pid remote adds).
  - destruct Hin as [-> | Hin].
    + exfalso. destruct Hbad as [He | [(i & He & _) | (i & He & _)]]; congruence.
    + now apply IH.
  - discriminate.
Qed.

(** Every header of the archive belongs to a file of the batch whose
    [os.Stat] succeeded. *)
Lemma entries_exist (remote : string) (adds : list Change) :
  Forall (fun hd => exists a stat,
            In a adds /\ os_Stat h (localOf a) = StatOk stat
            /\ hd = headerOf remote a stat)
         (omap (entryOf remote) adds).
Proof.
  induction adds as [|x adds IH]; cbn [omap list_omap]; [constructor |].
  assert (IH' : Forall (fun hd => exists a stat,
                          In a (x :: adds) /\ os_Stat h (localOf a) = StatOk stat
                          /\ hd = headerOf remote a stat)
                       (omap (entryOf remote) adds)).
  { eapply Forall_impl; [exact IH |].
    intros hd (a & stat & Hin & Hs & Hhd). exists a, stat.
    split; [now right | now split]. }
  unfold entryOf at 1.
  destruct (os_Stat h (localOf x)) as [stat | |] eqn:Hs; try exact IH'.
  constructor; [| exact IH']. exists x, stat. split; [now left | now split].
Qed.

End HandleAdds.

(** C8. In [handleAdds] a file whose [os.Stat] reports not-exist is
    passed over: a batch whose other files are archived is handled
    without an error, [handleAdds] returning [nil], and the archive
    holds the entries of the files that exist and none for the file
    that is gone; a file whose [os.Stat] fails otherwise, or that cannot
    be opened or copied, makes [handleAdds] return that error as soon as
    the loop comes to it, whatever follows it in the batch, and with
    such a file in the batch [handleAdds] never returns [nil]. *)
Theorem handleAdds_skips_or_fails (h : Host) (app pid remote dir : string)
    (adds pre post : list Change) (c : Change) (e : string) :
  remoteDir h app pid remote = Ok dir ->
  adds <> [] ->
  Forall (fun a => gone h a \/ archived h app pid dir a) adds ->
  tar_Close h app pid = Returns None ->
  pipe_Close h = None ->
  FilesUpload h app pid (omap (entryOf h dir) adds) = Returns None ->
  Forall (fun a => gone h a \/ archived h app pid dir a) pre ->
  unreadable h app pid c e ->
  headed h app pid dir c ->
  handleAdds h app pid remote adds = (Returns None, omap (entryOf h dir) adds)
  /\ Forall (fun hd => exists a stat,
               In a adds /\ os_Stat h (localOf a) = StatOk stat
               /\ hd = headerOf dir a stat)
            (snd (handleAdds h app pid remote adds))
  /\ fst (handleAdds h app pid remote (pre ++ c :: post)%list) = Returns (Some e)
  /\ (forall batch, In c batch ->
        fst (handleAdds h app pid remote batch) <> Returns None).
Proof.
  intros Hdir Hne Hadds Hclose Hpipe Hup Hpre Hbad Hhd.
  assert (Hok : handleAdds h app pid remote adds
                = (Returns None, omap (entryOf h dir) adds)).
  { unfold handleAdds.
    replace (length adds =? 0)%nat with false
      by (symmetry; apply Nat.eqb_neq; intros Hlen; apply Hne;
          now apply List.length_zero_iff_nil).
    rewrite Hdir, (tarAdds_archives h app pid dir adds Hadds), Hclose, Hpipe.
    now rewrite Hup. }
  split; [exact Hok |]. split; [| split].
  - rewrite Hok. apply entries_exist.
  - unfold handleAdds.
    replace (length (pre ++ c :: post)%list =? 0)%nat with false
      by (symmetry; apply Nat.eqb_neq; rewrite length_app; simpl; lia).
    rewrite Hdir, (tarAdds_app h app pid dir pre (c :: post) Hpre).
    pose proof (tarAdds_unreadable h app pid dir c post e Hbad Hhd) as Hc.
    destruct (tarAdds h app pid dir (c :: post)) as [hds r]. cbn [fst snd] in *.
    now subst r.
  - intros batch Hin. unfold handleAdds.
    replace (length batch =? 0)%nat with false
      by (symmetry; apply Nat.eqb_neq; destruct batch; [destruct Hin | discriminate]).
    rewrite Hdir.
    pose proof (tarAdds_never_ends h app pid dir batch c e Hin Hbad) as Hc.
    destruct (tarAdds h app pid dir batch) as [hds [[e' |] |]]; cbn [fst snd] in *;
      [discriminate | exfalso; now apply Hc | discriminate].
Qed.

Lemma handleAdds_skips_or_fails_witness :
  let h := Sample.host "" in
  let a := Sample.add "a.go" in
  let b := Sample.add "b.go" in
  let swp := Sample.add "main.go.swp" in
  let key := Sample.add "secret.key" in
  handleAdds h "app" "web-1" "src" [a; swp; b]
  = (Returns None, omap (entryOf h "/srv/src") [a; swp; b])
  /\ Forall (fun hd => exists c stat,
               In c [a; swp; b] /\ os_Stat h (localOf c) = StatOk stat
               /\ hd = headerOf "/srv/src" c stat)
            (snd (handleAdds h "app" "web-1" "src" [a; swp; b]))
  /\ fst (handleAdds h "app" "web-1" "src" ([a; swp] ++ key :: [b])%list)
     = Returns (Some "stat /app/src/secret.key: permission denied")
  /\ (forall batch, In key batch ->
        fst (handleAdds h "app" "web-1" "src" batch) <> Returns None).
Proof.
  intros h a b swp key.
  assert (Ha : forall p, os_Stat h (localOf (Sample.add p)) = StatOk Sample.file ->
                         archived h "app" "web-1" "/srv/src" (Sample.add p)).
  { intros p Hp. exists Sample.file. repeat split; [exact Hp | reflexivity ..]. }
  assert (Hg : gone h swp).
  { exists "stat /app/src/main.go.swp: no such file or directory". reflexivity. }
  apply (handleAdds_skips_or_fails h "app" "web-1" "src" "/srv/src"
           [a; swp; b] [a; swp] [b] key
           "stat /app/src/secret.key: permission denied").
  - reflexivity.
  - discriminate.
  - constructor; [right; now apply Ha |].
    constructor; [now left |].
    constructor; [right; now apply Ha | constructor].
  - reflexivity.
  - reflexivity.
  - reflexivity.
  - constructor; [right; now apply Ha |].
    constructor; [now left | constructor].
  - left. reflexivity.
  - intros stat Hs. discriminate Hs.
Defined.

(** What the sample host does with a vanished file and with an
    unreadable one; and what becomes of the batch when the upload to
    the process has stopped reading: the first write never returns. *)
Example handleAdds_sample :
  handleAdds (Sample.host "") "app" "web-1" "/srv/src"
    [Sample.add "a.go"; Sample.add "main.go.swp"; Sample.add "b.go"]
  = (Returns None,
     [ {| h_Name := "/srv/src/a.go"; h_Mode := 420; h_Size := 12; h_ModTime := 0 |};
       {| h_Name := "/srv/src/b.go"; h_Mode := 420; h_Size := 12; h_ModTime := 0 |} ])
  /\ handleAdds (Sample.host "") "app" "web-1" "/srv/src"
       [Sample.add "a.go"; Sample.add "secret.key"; Sample.add "b.go"]
     = (Returns (Some "stat /app/src/secret.key: permission denied"),
        [ {| h_Name := "/srv/src/a.go"; h_Mode := 420; h_Size := 12; h_ModTime := 0 |} ])
  /\ handleAdds Sample.stalled "app" "web-1" "/srv/src"
       [Sample.add "a.go"; Sample.add "secret.key"; Sample.add "b.go"]
     = (Pending,
        [ {| h_Name := "/srv/src/a.go"; h_Mode := 420; h_Size := 12; h_ModTime := 0 |} ]).
Proof. repeat split; vm_compute; reflexivity. Qed.

(** ** Flushing a batch *)

Section Flush.

Variables (lib : Lib) (app service : string) (bs : buildSource).

(** What one flush writes, the processes listed being [pss] and the
    batch being partitioned into [adds] and [removes]. *)
Definition flushed (h : Host) (adds removes : list Change) (pss : list Process)
  : list effect :=
  fst (syncProcesses lib h app service bs adds removes pss).

(** [handleAdds] returns for each of the processes: no write into the
    pipe is left unread by an upload that goes on without closing its
    end. *)
Definition uploads_return (h : Host) (adds : list Change) (pss : list Process) : bool :=
  forallb (fun ps => returned (fst (handleAdds h app (Process_Id ps) (Remote bs) adds)))
          pss.

(** What the loop writes for one process. *)
Definition synced (h : Host) (adds removes : list Change) (ps : Process) : list effect :=
  fst (syncProcess lib h app service bs adds removes ps).

Lemma syncProcess_returned (h : Host) (adds removes : list Change) (ps : Process) :
  returned (fst (handleAdds h app (Process_Id ps) (Remote bs) adds)) = true ->
  syncProcess lib h app service bs adds removes ps = (synced h adds removes ps, true).
Proof.
  unfold synced, syncProcess.
  now destruct (fst (handleAdds h app (Process_Id ps) (Remote bs) adds)).
Qed.

(** When every [handleAdds] returns, the loop over the processes comes
    to its end, having handled them all. *)
Lemma syncProcesses_return (h : Host) (adds removes : list Change) (pss : list Process) :
  uploads_return h adds pss = true ->
  syncProcesses lib h app service bs adds removes pss
  = (flat_map (synced h adds removes) pss, true).
Proof.
  unfold uploads_return. induction pss as [|ps pss IH]; [reflexivity |].
  cbn [forallb]. intros H. apply andb_true_iff in H as [Hps Hpss].
  cbn [syncProcesses flat_map]. rewrite (syncProcess_returned h adds removes ps Hps).
  now rewrite (IH Hpss).
Qed.

(** A tick with a non-empty batch and a process list flushes the batch
    and, when every [handleAdds] returns, goes on with an empty one. *)
Lemma watchLoop_flush (h : Host) (rest : list watch_event)
    (chgs adds removes : list Change) (pss : list Process) :
  chgs <> [] ->
  ProcessList h app service = Ok pss ->
  changes_Partition lib chgs = (adds, removes) ->
  uploads_return h adds pss = true ->
  watchLoop lib app service bs (WTick h :: rest) chgs
  = (flushed h adds removes pss ++ watchLoop lib app service bs rest [])%list.
Proof.
  intros Hne Hps Hpart Hret. cbn [watchLoop].
  replace (length chgs =? 0)%nat with false
    by (symmetry; apply Nat.eqb_neq; intros Hlen; apply Hne;
        now apply List.length_zero_iff_nil).
  rewrite Hps, Hpart. unfold flushed.
  now rewrite (syncProcesses_return h adds removes pss Hret).
Qed.

Definition isSend (e : effect) : bool :=
  match e with Send _ => true | _ => false end.

(** The progress lines of the adds start with [sync: ], those of the
    removes with [remove: ]. *)
Definition isSync (e : effect) : bool :=
  match e with Writef _ text => String.prefix "sync: " text | _ => false end.

Definition isRemove (e : effect) : bool :=
  match e with Writef _ text => String.prefix "remove: " text | _ => false end.

Lemma filter_flat_map {A B} (p : B -> bool) (f : A -> list B) (l : list A) :
  List.filter p (flat_map f l) = flat_map (fun x => List.filter p (f x)) l.
Proof.
  induction l as [|x l IH]; cbn [flat_map]; [reflexivity |].
  now rewrite List.filter_app, IH.
Qed.

Lemma flat_map_within {A B} (f g : A -> list B) (l : list A) :
  (forall x, In x l -> f x = g x) -> flat_map f l = flat_map g l.
Proof.
  induction l as [|x l IH]; intros H; cbn [flat_map]; [reflexivity |].
  rewrite (H x) by now left. rewrite IH; [reflexivity |].
  intros y Hy. apply H. now right.
Qed.

Lemma isSend_messages (adds removes : list Change) (e e' : error) :
  List.filter isSend (addMessages service bs adds) = []
  /\ List.filter isSend
       (addMessages service bs adds
        ++ reportError "sync add error: " e
        ++ removeMessages service bs removes
        ++ reportError "sync remove error: " e') = [].
Proof.
  unfold addMessages, removeMessages, reportError.
  rewrite !List.filter_app.
  assert (Hmap : forall (A : Type) (f : A -> string) (l : list A),
             List.filter isSend (map (fun a => Writef "convox" (f a)) l) = []).
  { intros A f l. induction l; simpl; auto. }
  split;
    repeat match goal with
           | |- context [if ?b then _ else _] => destruct b
           | |- context [match ?e with Some _ => _ | None => _ end] => destruct e
           end;
    cbn [List.filter isSend List.app]; rewrite ?Hmap; reflexivity.
Qed.

Lemma isSend_syncProcess (h : Host) (adds removes : list Change) (ps : Process) :
  List.filter isSend (fst (syncProcess lib h app service bs adds removes ps)) = [].
Proof.
  unfold syncProcess.
  destruct (fst (handleAdds h app (Process_Id ps) (Remote bs) adds)) as [e |]; cbn [fst].
  - exact (proj2 (isSend_messages adds removes e
                    (handleRemoves lib h app (Process_Id ps) removes))).
  - exact (proj1 (isSend_messages adds removes None None)).
Qed.

Lemma isSend_syncProcesses (h : Host) (adds removes : list Change) (pss : list Process) :
  List.filter isSend (fst (syncProcesses lib h app service bs adds removes pss)) = [].
Proof.
  induction pss as [|ps pss IH]; [reflexivity |].
  cbn [syncProcesses].
  pose proof (isSend_syncProcess h adds removes ps) as Hps.
  destruct (syncProcess lib h app service bs adds removes ps) as [tr [|]];
    cbn [fst] in Hps; [| exact Hps].
  destruct (syncProcesses lib h app service bs adds removes pss) as [tr' ended].
  cbn [fst] in *. now rewrite List.filter_app, Hps, IH.
Qed.

Lemma prefix_append (p x : string) : String.prefix p (p ++ x) = true.
Proof.
  induction p as [|c p IH]; simpl.
  - now destruct x.
  - destruct (ascii_dec c c); [exact IH | congruence].
Qed.

Lemma isSync_line (key x : string) : isSync (Writef key ("sync: " ++ x)) = true.
Proof. apply prefix_append. Qed.

Lemma isRemove_line (key x : string) : isRemove (Writef key ("remove: " ++ x)) = true.
Proof. apply prefix_append. Qed.

Lemma isSync_file (key x : string) : isSync (Writef key ("sync: <dir>" ++ x)) = true.
Proof. apply (prefix_append "sync: " ("<dir>" ++ x)). Qed.

Lemma isRemove_file (key x : string) : isRemove (Writef key ("remove: <dir>" ++ x)) = true.
Proof. apply (prefix_append "remove: " ("<dir>" ++ x)). Qed.

Lemma isSync_addMessages (adds : list Change) :
  List.filter isSync (addMessages service bs adds) = addMessages service bs adds.
Proof.
  unfold addMessages.
  destruct (3 <? length adds)%nat;
    [cbn [List.filter]; now rewrite isSync_line |].
  destruct (0 <? length adds)%nat; [| reflexivity].
  induction adds as [|a adds IH]; [reflexivity |].
  cbn [map List.filter]. now rewrite isSync_file, IH.
Qed.

Lemma isSync_removeMessages (removes : list Change) :
  List.filter isSync (removeMessages service bs removes) = [].
Proof.
  unfold removeMessages.
  destruct (3 <? length removes)%nat; [reflexivity |].
  destruct (0 <? length removes)%nat; [| reflexivity].
  induction removes as [|a removes IH]; [reflexivity |].
  cbn [map]. exact IH.
Qed.

Lemma isRemove_addMessages (adds : list Change) :
  List.filter isRemove (addMessages service bs adds) = [].
Proof.
  unfold addMessages.
  destruct (3 <? length adds)%nat; [reflexivity |].
  destruct (0 <? length adds)%nat; [| reflexivity].
  induction adds as [|a adds IH]; [reflexivity |].
  cbn [map]. exact IH.
Qed.

Lemma isRemove_removeMessages (removes : list Change) :
  List.filter isRemove (removeMessages service bs removes)
  = removeMessages service bs removes.
Proof.
  unfold removeMessages.
  destruct (3 <? length removes)%nat;
    [cbn [List.filter]; now rewrite isRemove_line |].
  destruct (0 <? length removes)%nat; [| reflexivity].
  induction removes as [|a removes IH]; [reflexivity |].
  cbn [map List.filter]. now rewrite isRemove_file, IH.
Qed.

Lemma progress_reportError (e : error) :
  List.filter isSync (reportError "sync add error: " e) = []
  /\ List.filter isSync (reportError "sync remove error: " e) = []
  /\ List.filter isRemove (reportError "sync add error: " e) = []
  /\ List.filter isRemove (reportError "sync remove error: " e) = [].
Proof. destruct e; repeat split; reflexivity. Qed.

(** The lines of the adds are written before [handleAdds] is called,
    those of the removes after it has returned. *)
Lemma isSync_syncProcess (h : Host) (adds removes : list Change) (ps : Process) :
  List.filter isSync (synced h adds removes ps) = addMessages service bs adds.
Proof.
  unfold synced, syncProcess.
  destruct (fst (handleAdds h app (Process_Id ps) (Remote bs) adds)) as [e |]; cbn [fst];
    [| apply isSync_addMessages].
  rewrite !List.filter_app.
  rewrite isSync_addMessages, isSync_removeMessages.
  destruct (progress_reportError e) as (-> & _ & _ & _).
  destruct (progress_reportError (handleRemoves lib h app (Process_Id ps) removes))
    as (_ & -> & _ & _).
  now rewrite !app_nil_r.
Qed.

Lemma isRemove_syncProcess (h : Host) (adds removes : list Change) (ps : Process) :
  returned (fst (handleAdds h app (Process_Id ps) (Remote bs) adds)) = true ->
  List.filter isRemove (synced h adds removes ps) = removeMessages service bs removes.
Proof.
  unfold synced, syncProcess.
  destruct (fst (handleAdds h app (Process_Id ps) (Remote bs) adds)) as [e |]; cbn [fst];
    [intros _ | discriminate].
  rewrite !List.filter_app.
  rewrite isRemove_addMessages, isRemove_removeMessages.
  destruct (progress_reportError e) as (_ & _ & -> & _).
  destruct (progress_reportError (handleRemoves lib h app (Process_Id ps) removes))
    as (_ & _ & _ & ->).
  now rewrite !app_nil_r.
Qed.

Lemma length_flat_map_const {A B} (l : list A) (m : list B) :
  length (flat_map (fun _ => m) l) = (length l * length m)%nat.
Proof.
  induction l as [|x l IH]; cbn [flat_map length]; [reflexivity |].
  rewrite length_app, IH. simpl. lia.
Qed.

(** Changes are added to the batch in the order of their arrival. *)
Lemma watchLoop_changes (cs : list Change) (rest : list watch_event)
    (chgs : list Change) :
  watchLoop lib app service bs (map WChange cs ++ rest)%list chgs
  = watchLoop lib app service bs rest (chgs ++ cs)%list.
Proof.
  revert chgs. induction cs as [|c cs IH]; intros chgs.
  - now rewrite app_nil_r.
  - cbn [map List.app watchLoop]. rewrite IH. now rewrite <- app_assoc.
Qed.

(** The loop sends nothing on the error channel. *)
Lemma watchLoop_no_send (evs : list watch_event) (chgs : list Change) :
  List.filter isSend (watchLoop lib app service bs evs chgs) = [].
Proof.
  revert chgs. induction evs as [|ev evs IH]; intros chgs; [reflexivity |].
  destruct ev as [| c | h]; cbn [watchLoop]; [reflexivity | apply IH |].
  destruct (length chgs =? 0)%nat; [apply IH |].
  destruct (ProcessList h app service) as [pss | e].
  - destruct (changes_Partition lib chgs) as [adds removes].
    pose proof (isSend_syncProcesses h adds removes pss) as Hs.
    destruct (syncProcesses lib h app service bs adds removes pss) as [tr ended].
    cbn [fst] in Hs. destruct ended; [| exact Hs].
    now rewrite List.filter_app, Hs, IH.
  - cbn [List.filter isSend]. apply IH.
Qed.

(** The loop over the processes comes to its end exactly when every
    [handleAdds] returns. *)
Lemma syncProcesses_ended (h : Host) (adds removes : list Change) (pss : list Process) :
  snd (syncProcesses lib h app service bs adds removes pss) = uploads_return h adds pss.
Proof.
  unfold uploads_return. induction pss as [|ps pss IH]; [reflexivity |].
  cbn [syncProcesses forallb]. unfold syncProcess at 1.
  destruct (fst (handleAdds h app (Process_Id ps) (Remote bs) adds)); [| reflexivity].
  cbn [returned andb]. rewrite <- IH.
  now destruct (syncProcesses lib h app service bs adds removes pss).
Qed.

(** A tick with a non-empty batch and a process list: the flush, and
    then the rest of the loop if the flush comes to its end. *)
Lemma watchLoop_tick (h : Host) (rest : list watch_event)
    (chgs adds removes : list Change) (pss : list Process) :
  chgs <> [] ->
  ProcessList h app service = Ok pss ->
  changes_Partition lib chgs = (adds, removes) ->
  watchLoop lib app service bs (WTick h :: rest) chgs
  = (flushed h adds removes pss
     ++ (if uploads_return h adds pss then watchLoop lib app service bs rest [] else []))%list.
Proof.
  intros Hne Hps Hpart. cbn [watchLoop].
  replace (length chgs =? 0)%nat with false
    by (symmetry; apply Nat.eqb_neq; intros Hlen; apply Hne;
        now apply List.length_zero_iff_nil).
  rewrite Hps, Hpart. unfold flushed. rewrite <- (syncProcesses_ended h adds removes pss).
  destruct (syncProcesses lib h app service bs adds removes pss) as [tr [|]];
    cbn [fst snd]; [reflexivity | now rewrite app_nil_r].
Qed.

End Flush.

Section Progress.

Variables (lib : Lib) (app service : string) (bs : buildSource).

Lemma prefix_append_append (p q x : string) :
  String.prefix (p ++ q) (p ++ x) = String.prefix q x.
Proof.
  induction p as [|c p IH]; [reflexivity |].
  change (String.prefix (String c (p ++ q)) (String c (p ++ x)) = String.prefix q x).
  cbn [String.prefix].
  destruct (ascii_dec c c); [exact IH | congruence].
Qed.

Lemma prefix_head (c : ascii) (p z : string) :
  String.prefix (String c "") z = false -> String.prefix (String c p) z = false.
Proof.
  destruct z as [|d z]; [reflexivity |].
  cbn [String.prefix]. destruct (ascii_dec c d); [| reflexivity].
  now destruct z.
Qed.

(** A decimal numeral does not start with [<]. *)
Lemma fmt_d_head (n : nat) (x : string) :
  String.prefix "<" (fmt_d n ++ x) = false.
Proof.
  unfold fmt_d.
  assert (Hnil : Nat.to_uint n <> Decimal.Nil).
  { intros H. pose proof (DecimalNat.Unsigned.to_of (Nat.to_uint n)) as E.
    rewrite DecimalNat.Unsigned.of_to, H in E. discriminate E. }
  destruct (Nat.to_uint n); [congruence | reflexivity ..].
Qed.

(** A line that starts with a count does not start with [<dir>]. *)
Lemma count_not_dir (p : string) (n : nat) (y : string) :
  String.prefix (p ++ "<dir>") (p ++ fmt_d n ++ y) = false.
Proof. rewrite prefix_append_append. apply prefix_head, fmt_d_head. Qed.

(** Among the progress lines of the adds, those that name a file start
    with [sync: <dir>]; the others are summaries. *)
Definition isPerFile (e : effect) : bool :=
  match e with Writef _ text => String.prefix "sync: <dir>" text | _ => false end.

Definition isSummary (e : effect) : bool := isSync e && negb (isPerFile e).

(** The same for the removes. *)
Definition isPerFileRemove (e : effect) : bool :=
  match e with Writef _ text => String.prefix "remove: <dir>" text | _ => false end.

Definition isSummaryRemove (e : effect) : bool := isRemove e && negb (isPerFileRemove e).

Lemma isPerFile_file (key x : string) :
  isPerFile (Writef key ("sync: <dir>" ++ x)) = true
  /\ isSummary (Writef key ("sync: <dir>" ++ x)) = false.
Proof.
  assert (H : isPerFile (Writef key ("sync: <dir>" ++ x)) = true)
    by apply prefix_append.
  split; [exact H |]. unfold isSummary. now rewrite H, andb_false_r.
Qed.

Lemma isPerFileRemove_file (key x : string) :
  isPerFileRemove (Writef key ("remove: <dir>" ++ x)) = true
  /\ isSummaryRemove (Writef key ("remove: <dir>" ++ x)) = false.
Proof.
  assert (H : isPerFileRemove (Writef key ("remove: <dir>" ++ x)) = true)
    by apply prefix_append.
  split; [exact H |]. unfold isSummaryRemove. now rewrite H, andb_false_r.
Qed.

Lemma count_addMessages (adds : list Change) :
  List.filter isPerFile (addMessages service bs adds)
  = (if (3 <? length adds)%nat then [] else addMessages service bs adds)
  /\ List.filter isSummary (addMessages service bs adds)
     = (if (3 <? length adds)%nat then addMessages service bs adds else [])
  /\ length (addMessages service bs adds)
     = (if (3 <? length adds)%nat then 1 else length adds)%nat.
Proof.
  unfold addMessages.
  destruct (3 <? length adds)%nat.
  - assert (Hp : forall x y, isPerFile (Writef "convox" ("sync: " ++ fmt_d x ++ y)) = false).
    { intros x y. apply (count_not_dir "sync: " x y). }
    split; [| split]; [| | reflexivity].
    + cbn [List.filter]. now rewrite Hp.
    + cbn [List.filter]. unfold isSummary. now rewrite isSync_line, Hp.
  - destruct (0 <? length adds)%nat eqn:Hpos.
    + split; [| split]; [| | apply length_map].
      * clear Hpos. induction adds as [|a adds IH]; [reflexivity |].
        cbn [map List.filter]. rewrite (proj1 (isPerFile_file _ _)). now rewrite IH.
      * clear Hpos. induction adds as [|a adds IH]; [reflexivity |].
        cbn [map List.filter]. rewrite (proj2 (isPerFile_file _ _)). exact IH.
    + apply Nat.ltb_ge in Hpos. destruct adds; [| simpl in Hpos; lia].
      repeat split; reflexivity.
Qed.

Lemma count_removeMessages (removes : list Change) :
  List.filter isPerFileRemove (removeMessages service bs removes)
  = (if (3 <? length removes)%nat then [] else removeMessages service bs removes)
  /\ List.filter isSummaryRemove (removeMessages service bs removes)
     = (if (3 <? length removes)%nat then removeMessages service bs removes else [])
  /\ length (removeMessages service bs removes)
     = (if (3 <? length removes)%nat then 1 else length removes)%nat.
Proof.
  unfold removeMessages.
  destruct (3 <? length removes)%nat.
  - assert (Hp : forall x y,
               isPerFileRemove (Writef "convox" ("remove: " ++ fmt_d x ++ y)) = false).
    { intros x y. apply (count_not_dir "remove: " x y). }
    split; [| split]; [| | reflexivity].
    + cbn [List.filter]. now rewrite Hp.
    + cbn [List.filter]. unfold isSummaryRemove. now rewrite isRemove_line, Hp.
  - destruct (0 <? length removes)%nat eqn:Hpos.
    + split; [| split]; [| | apply length_map].
      * clear Hpos. induction removes as [|a removes IH]; [reflexivity |].
        cbn [map List.filter]. rewrite (proj1 (isPerFileRemove_file _ _)). now rewrite IH.
      * clear Hpos. induction removes as [|a removes IH]; [reflexivity |].
        cbn [map List.filter]. rewrite (proj2 (isPerFileRemove_file _ _)). exact IH.
    + apply Nat.ltb_ge in Hpos. destruct removes; [| simpl in Hpos; lia].
      repeat split; reflexivity.
Qed.

End Progress.

Section ProgressCount.

Variables (lib : Lib) (app service : string) (bs : buildSource).

Lemma prefix_weaken (p q t : string) :
  String.prefix (p ++ q) t = true -> String.prefix p t = true.
Proof.
  revert t. induction p as [|c p IH]; intros t.
  - intros _. now destruct t.
  - change (String c p ++ q) with (String c (p ++ q)).
    destruct t as [|d t]; cbn [String.prefix]; [discriminate |].
    destruct (ascii_dec c d); [apply IH | discriminate].
Qed.

Lemma filter_within {A} (p q : A -> bool) (l : list A) :
  (forall x, q x = true -> p x = true) ->
  List.filter q (List.filter p l) = List.filter q l.
Proof.
  intros Hsub. induction l as [|x l IH]; [reflexivity |].
  cbn [List.filter].
  destruct (p x) eqn:Hp, (q x) eqn:Hq; cbn [List.filter]; rewrite ?Hq, ?IH; try reflexivity.
  apply Hsub in Hq. congruence.
Qed.

Lemma sync_kinds (e : effect) :
  (isPerFile e = true -> isSync e = true) /\ (isSummary e = true -> isSync e = true).
Proof.
  split.
  - destruct e as [key text | |]; try discriminate.
    apply (prefix_weaken "sync: " "<dir>").
  - unfold isSummary. intros H. now apply andb_true_iff in H.
Qed.

Lemma remove_kinds (e : effect) :
  (isPerFileRemove e = true -> isRemove e = true)
  /\ (isSummaryRemove e = true -> isRemove e = true).
Proof.
  split.
  - destruct e as [key text | |]; try discriminate.
    apply (prefix_weaken "remove: " "<dir>").
  - unfold isSummaryRemove. intros H. now apply andb_true_iff in H.
Qed.

(** The progress lines of one process for which [handleAdds]
    returns. *)
Lemma progress_of_process (h : Host) (adds removes : list Change) (ps : Process) :
  returned (fst (handleAdds h app (Process_Id ps) (Remote bs) adds)) = true ->
  let tr := synced lib app service bs h adds removes ps in
  List.filter isSummary tr
  = (if (3 <? length adds)%nat then addMessages service bs adds else [])
  /\ List.filter isPerFile tr
     = (if (3 <? length adds)%nat then [] else addMessages service bs adds)
  /\ List.filter isSummaryRemove tr
     = (if (3 <? length removes)%nat then removeMessages service bs removes else [])
  /\ List.filter isPerFileRemove tr
     = (if (3 <? length removes)%nat then [] else removeMessages service bs removes).
Proof.
  intros Hret tr. subst tr.
  destruct (count_addMessages service bs adds) as (Ha1 & Ha2 & _).
  destruct (count_removeMessages service bs removes) as (Hr1 & Hr2 & _).
  repeat split.
  - rewrite <- (filter_within isSync) by apply sync_kinds.
    now rewrite isSync_syncProcess.
  - rewrite <- (filter_within isSync) by apply sync_kinds.
    now rewrite isSync_syncProcess.
  - rewrite <- (filter_within isRemove) by apply remove_kinds.
    now rewrite isRemove_syncProcess.
  - rewrite <- (filter_within isRemove) by apply remove_kinds.
    now rewrite isRemove_syncProcess.
Qed.

End ProgressCount.

(** C6, as the code has it. For every flushed batch and for each process
    listed for the service at the flush, [handleAdds] returning for each
    of them: an adds list of more than 3 files (so one of size 4)
    produces exactly one summary line and no per-file line; an adds list
    of 1 to 3 files (so one of size 3) produces one line per file and no
    summary; the removes follow the same threshold. With [n] processes,
    the flush writes [n] times those lines. *)
Theorem progress_lines_per_process (lib : Lib) (app service : string)
    (bs : buildSource) (h : Host) (rest : list watch_event)
    (chgs adds removes : list Change) (pss : list Process) :
  chgs <> [] ->
  ProcessList h app service = Ok pss ->
  changes_Partition lib chgs = (adds, removes) ->
  uploads_return app bs h adds pss = true ->
  let tr := flushed lib app service bs h adds removes pss in
  watchLoop lib app service bs (WTick h :: rest) chgs
  = (tr ++ watchLoop lib app service bs rest [])%list
  /\ length (List.filter isSummary tr)
     = (length pss * (if (3 <? length adds) then 1 else 0))%nat
  /\ length (List.filter isPerFile tr)
     = (length pss * (if (3 <? length adds) then 0 else length adds))%nat
  /\ length (List.filter isSummaryRemove tr)
     = (length pss * (if (3 <? length removes) then 1 else 0))%nat
  /\ length (List.filter isPerFileRemove tr)
     = (length pss * (if (3 <? length removes) then 0 else length removes))%nat
  /\ List.filter isSync tr = flat_map (fun _ => addMessages service bs adds) pss
  /\ List.filter isRemove tr = flat_map (fun _ => removeMessages service bs removes) pss.
Proof.
  intros Hne Hps Hpart Hret tr. subst tr. unfold flushed.
  destruct (count_addMessages service bs adds) as (_ & _ & Hla).
  destruct (count_removeMessages service bs removes) as (_ & _ & Hlr).
  split; [now apply watchLoop_flush |].
  rewrite (syncProcesses_return lib app service bs h adds removes pss Hret). cbn [fst].
  rewrite !filter_flat_map.
  assert (Hin : forall ps, In ps pss ->
             returned (fst (handleAdds h app (Process_Id ps) (Remote bs) adds)) = true).
  { intros ps. unfold uploads_return in Hret.
    rewrite forallb_forall in Hret. apply Hret. }
  assert (Hext : forall (p : effect -> bool) (m : list effect),
             (forall ps, In ps pss ->
                List.filter p (synced lib app service bs h adds removes ps) = m) ->
             flat_map (fun ps => List.filter p
                                   (synced lib app service bs h adds removes ps)) pss
             = flat_map (fun _ => m) pss).
  { intros p m Hm. now apply flat_map_within. }
  rewrite (Hext isSummary _
             (fun ps Hps' => proj1 (progress_of_process lib app service bs h adds removes ps
                                      (Hin ps Hps')))).
  rewrite (Hext isPerFile _
             (fun ps Hps' => proj1 (proj2 (progress_of_process lib app service bs h adds
                                             removes ps (Hin ps Hps'))))).
  rewrite (Hext isSummaryRemove _
             (fun ps Hps' => proj1 (proj2 (proj2
                          (progress_of_process lib app service bs h adds removes ps
                             (Hin ps Hps')))))).
  rewrite (Hext isPerFileRemove _
             (fun ps Hps' => proj2 (proj2 (proj2
                          (progress_of_process lib app service bs h adds removes ps
                             (Hin ps Hps')))))).
  rewrite (Hext isSync _
             (fun ps _ => isSync_syncProcess lib app service bs h adds removes ps)).
  rewrite (Hext isRemove _
             (fun ps Hps' => isRemove_syncProcess lib app service bs h adds removes ps
                               (Hin ps Hps'))).
  rewrite !length_flat_map_const.
  repeat split.
  - destruct (3 <? length adds)%nat; [now rewrite Hla | reflexivity].
  - destruct (3 <? length adds)%nat; [reflexivity | now rewrite Hla].
  - destruct (3 <? length removes)%nat; [now rewrite Hlr | reflexivity].
  - destruct (3 <? length removes)%nat; [reflexivity | now rewrite Hlr].
Qed.

(** The host [h], but listing the processes [pss] and answering [e] to
    every [FilesDelete]. *)
Definition serving (h : Host) (pss : list Process) (e : error) : Host :=
  {| ProcessList := fun _ _ => Ok pss;
     ProcessExec_pwd := ProcessExec_pwd h;
     FilesUpload := FilesUpload h;
     FilesDelete := fun _ _ _ => e;
     os_Getwd := os_Getwd h;
     os_Stat := os_Stat h;
     os_ReadFile := os_ReadFile h;
     os_Open := os_Open h;
     tar_WriteHeader := tar_WriteHeader h;
     io_Copy := io_Copy h;
     tar_Close := tar_Close h;
     pipe_Close := pipe_Close h;
     Exec_Execute := Exec_Execute h;
     map_range := map_range h |}.

(** The source [/app/src/] of the sample project, synchronised to
    [/srv/src]. *)
Definition src : buildSource := {| Local := "/app/src/"; Remote := "/srv/src" |}.

Definition four : list Change :=
  [Sample.add "a.go"; Sample.add "b.go"; Sample.add "c.go"; Sample.add "d.go"].

Definition three : list Change :=
  [Sample.remove "x.go"; Sample.remove "y.go"; Sample.remove "z.go"].

Lemma progress_lines_per_process_witness :
  let h := serving (Sample.host "") [ {| Process_Id := "web-1" |} ] None in
  let tr := flushed Sample.lib "app" "web" src h four three [ {| Process_Id := "web-1" |} ] in
  watchLoop Sample.lib "app" "web" src (WTick h :: []) (four ++ three)%list
  = (tr ++ watchLoop Sample.lib "app" "web" src [] [])%list
  /\ length (List.filter isSummary tr) = (1 * 1)%nat
  /\ length (List.filter isPerFile tr) = (1 * 0)%nat
  /\ length (List.filter isSummaryRemove tr) = (1 * 0)%nat
  /\ length (List.filter isPerFileRemove tr) = (1 * 3)%nat
  /\ List.filter isSync tr
     = flat_map (fun _ => addMessages "web" src four) [ {| Process_Id := "web-1" |} ]
  /\ List.filter isRemove tr
     = flat_map (fun _ => removeMessages "web" src three) [ {| Process_Id := "web-1" |} ].
Proof.
  intros h.
  apply (progress_lines_per_process Sample.lib "app" "web" src h []
           (four ++ three)%list four three [ {| Process_Id := "web-1" |} ]).
  - discriminate.
  - reflexivity.
  - reflexivity.
  - reflexivity.
Defined.

(** C6 as stated fails: with the two processes of the sample host, one
    flush of four added files writes two summary lines, and one flush
    of three removed files writes six per-file lines. *)
Lemma progress_lines_not_per_batch :
  List.filter isSummary
    (watchLoop Sample.lib "app" "web" src [WTick (Sample.host "")] four)
  = [ Writef "convox"
        ("sync: 4 files to <dir>/srv/src</dir> on <service>web</service>" ++ String "010" "");
      Writef "convox"
        ("sync: 4 files to <dir>/srv/src</dir> on <service>web</service>" ++ String "010" "") ]
  /\ length (List.filter isPerFileRemove
               (watchLoop Sample.lib "app" "web" src [WTick (Sample.host "")] three))
     = 6%nat.
Proof. split; vm_compute; reflexivity. Qed.




(** ** Containment among build sources *)

Section Dedup.

Variable rel : string -> string -> result string.

(** [B] covers [A]: the local path of [B] is a prefix of that of [A],
    and either both have the same remote path, or the path from [B] to
    [A] is the same on both sides. *)
Definition covers (B A : buildSource) : Prop :=
  Strs.HasPrefix (Local A) (Local B) = true
  /\ (Remote A = Remote B
      \/ exists r, rel (Local B) (Local A) = Ok r /\ rel (Remote B) (Remote A) = Ok r).

(** When a later entry covers [A], the inner loop, if it returns at
    all, finds [A] contained. *)
Lemma contained_covered (A B : buildSource) (later : list buildSource) (c : bool) :
  In B later -> covers B A -> contained rel A later = Ok c -> c = true.
Proof.
  intros Hin [Hpre Hoff]. induction later as [|y later IH]; [destruct Hin |].
  cbn [contained]. destruct Hin as [-> | Hin].
  - rewrite Hpre. destruct Hoff as [-> | (r & -> & ->)].
    + rewrite String.eqb_refl. congruence.
    + destruct (String.eqb (Remote A) (Remote B)); [congruence |].
      rewrite String.eqb_refl. congruence.
  - destruct (Strs.HasPrefix (Local A) (Local y)); [| now apply IH].
    destruct (String.eqb (Remote A) (Remote y)); [congruence |].
    destruct (rel (Local y) (Local A)) as [rl | e]; [| discriminate].
    destruct (rel (Remote y) (Remote A)) as [rr | e]; [| discriminate].
    destruct (String.eqb rl rr); [congruence | now apply IH].
Qed.

(** An entry of the result stood in the list at a place where no later
    entry contained it. *)
Lemma dedup_kept (bs out : list buildSource) (x : buildSource) :
  dedup rel bs = Ok out -> In x out ->
  exists pre post, bs = (pre ++ x :: post)%list /\ contained rel x post = Ok false.
Proof.
  revert out. induction bs as [|y bs IH]; intros out Hd Hin; cbn [dedup] in Hd.
  - injection Hd as <-. destruct Hin.
  - destruct (contained rel y bs) as [c | e] eqn:Hc; [| discriminate].
    destruct (dedup rel bs) as [bss | e]; [| discriminate].
    injection Hd as <-.
    assert (Hrest : In x bss ->
              exists pre post, (y :: bs) = (pre ++ x :: post)%list
                               /\ contained rel x post = Ok false).
    { intros Hx. destruct (IH bss eq_refl Hx) as (pre & post & -> & Hk).
      now exists (y :: pre), post. }
    destruct c; [now apply Hrest |].
    destruct Hin as [-> | Hx]; [| now apply Hrest].
    now exists [], bs.
Qed.

(** The entries after any occurrence of [x] include those after its
    last occurrence. *)
Lemma after_last_occurrence {A : Type} (x : A) (pre post pre' post' : list A) :
  (pre ++ x :: post)%list = (pre' ++ x :: post')%list ->
  ~ In x post ->
  exists mid, post' = (mid ++ post)%list.
Proof.
  revert pre'. induction pre as [|a pre IH]; intros pre' Heq Hlast.
  - destruct pre' as [|b pre']; cbn [List.app] in Heq.
    + injection Heq as ->. now exists [].
    + injection Heq as <- ->. exfalso. apply Hlast.
      apply in_or_app. right. now left.
  - destruct pre' as [|b pre']; cbn [List.app] in Heq.
    + injection Heq as -> <-. exists (pre ++ [x])%list.
      now rewrite <- app_assoc.
    + injection Heq as _ Heq. now apply (IH pre').
Qed.

(** The last entry is never dropped. *)
Lemma dedup_keeps_last (pre out : list buildSource) (x : buildSource) :
  dedup rel (pre ++ [x])%list = Ok out -> In x out.
Proof.
  revert out. induction pre as [|y pre IH]; intros out Hd.
  - cbn in Hd. injection Hd as <-. now left.
  - cbn [List.app dedup] in Hd.
    destruct (contained rel y (pre ++ [x])%list) as [c | e]; [| discriminate].
    destruct (dedup rel (pre ++ [x])%list) as [bss | e]; [| discriminate].
    injection Hd as <-. specialize (IH bss eq_refl).
    destruct c; [exact IH | now right].
Qed.

End Dedup.

(** C1, as the code has it. When the local path of [B] is a (strict)
    prefix of that of [A], and the two have the same remote path or the
    same relative path on both sides, the list that the deduplication of
    [buildSources] returns does not hold [A], provided [B] stands after
    [A], that is after every occurrence of [A], in the list before
    deduplication. *)
Theorem dedup_drops_covered (rel : string -> string -> result string)
    (pre post out : list buildSource) (A B : buildSource) :
  In B post ->
  ~ In A post ->
  Local A <> Local B ->
  covers rel B A ->
  dedup rel (pre ++ A :: post)%list = Ok out ->
  ~ In A out.
Proof.
  intros HB Hlast _ Hcov Hd Hin.
  destruct (dedup_kept rel _ _ _ Hd Hin) as (pre' & post' & Heq & Hkeep).
  destruct (after_last_occurrence A pre post pre' post' Heq Hlast) as [mid ->].
  assert (HB' : In B (mid ++ post)%list) by (apply in_or_app; now right).
  pose proof (contained_covered rel A B _ false HB' Hcov Hkeep). discriminate.
Qed.

(** The nested source of the sample project and the source around it. *)
Definition inner : buildSource := {| Local := "/app/src/"; Remote := "/srv/src" |}.
Definition outer : buildSource := {| Local := "/app/"; Remote := "/srv" |}.

Lemma dedup_drops_covered_witness :
  dedup Filepath.Rel [inner; outer] = Ok [outer] /\ ~ In inner [outer].
Proof.
  split; [reflexivity |].
  apply (dedup_drops_covered Filepath.Rel [] [outer] [outer] inner outer).
  - now left.
  - intros [H | []]. discriminate H.
  - discriminate.
  - split; [reflexivity |]. right. exists "src". split; reflexivity.
  - reflexivity.
Defined.

(** C1 as stated fails: [outer] covers [inner], but when the Dockerfile
    copies the project before its subdirectory, [outer] stands before
    [inner] and both are returned; in the other order [inner] is
    dropped. *)
Lemma dedup_keeps_later_nested :
  (Strs.HasPrefix (Local inner) (Local outer) = true
   /\ Local inner <> Local outer
   /\ Filepath.Rel (Local outer) (Local inner) = Ok "src"
   /\ Filepath.Rel (Remote outer) (Remote inner) = Ok "src")
  /\ dedup Filepath.Rel [outer; inner] = Ok [outer; inner]
  /\ buildSources Sample.lib
       (Sample.host (Sample.unlines ["FROM base"; "COPY . /srv"; "COPY src /srv/src"]))
       Sample.manifest "/app" "web"
     = Done [outer; inner]
  /\ buildSources Sample.lib
       (Sample.host (Sample.unlines ["FROM base"; "COPY src /srv/src"; "COPY . /srv"]))
       Sample.manifest "/app" "web"
     = Done [outer].
Proof.
  split; [| repeat split; vm_compute; reflexivity].
  repeat split; try (vm_compute; reflexivity). discriminate.
Qed.

(** ** The base image *)

Section From.

(** The environment that the loop over the entries of an image builds
    from the empty map. *)
Definition imageEnv (ee : list string) : gmap string string :=
  fold_left setImageEnv ee ∅.

Lemma setImageEnv_union (acc env : gmap string string) (e : string) :
  setImageEnv (acc ∪ env) e = setImageEnv acc e ∪ env.
Proof.
  unfold setImageEnv.
  destruct (Strs.SplitN2 e "=") as [|k [|v [|? ?]]]; try reflexivity.
  now rewrite insert_union_l.
Qed.

(** Merging the entries into [env] is taking the image's environment
    first and [env] for the names the image does not set. *)
Lemma fold_setImageEnv (ee : list string) (env : gmap string string) :
  fold_left setImageEnv ee env = imageEnv ee ∪ env.
Proof.
  unfold imageEnv.
  rewrite <- (left_id_L ∅ (∪) env) at 1.
  generalize (∅ : gmap string string) as acc.
  induction ee as [|e ee IH]; intros acc; cbn [fold_left]; [reflexivity |].
  now rewrite setImageEnv_union, IH.
Qed.

(** The entry [NAME=value] of the configured environment of an image,
    as [docker inspect] lists it. *)
Definition entry (name value : string) : string := name ++ "=" ++ value.

(** The entry [e] is one for the name [k]: it starts with [k] and
    [=]. *)
Definition names (k e : string) : bool := String.prefix (k ++ "=") e.

Lemma cut_entry (k v : string) :
  Strs.Count k "=" = 0%nat -> Strs.cut "=" (entry k v) = (k, Some v).
Proof.
  unfold entry. induction k as [|c k IH]; intros Hk; [reflexivity |].
  change (String c k ++ "=" ++ v) with (String c (k ++ "=" ++ v)).
  cbn [Strs.Count] in Hk. cbn [Strs.cut].
  destruct (Ascii.eqb c "=") eqn:Hc; [discriminate Hk |].
  now rewrite IH.
Qed.

Lemma cut_names (e k v : string) :
  Strs.cut "=" e = (k, Some v) -> names k e = true.
Proof.
  unfold names. revert k. induction e as [|c e IH]; intros k; cbn [Strs.cut];
    [discriminate |].
  destruct (Ascii.eqb c "=") eqn:Hc.
  - intros [= <- <-]. apply Ascii.eqb_eq in Hc as ->.
    cbn. destruct (ascii_dec "=" "="); [now destruct e | congruence].
  - destruct (Strs.cut "=" e) as [a b] eqn:Hcut. intros [= <- ->].
    change (String c a ++ "=") with (String c (a ++ "=")).
    cbn [String.prefix]. destruct (ascii_dec c c); [now apply IH | congruence].
Qed.

(** An entry for another name leaves the value of [k] as it is. *)
Lemma setImageEnv_other (env : gmap string string) (e k : string) :
  names k e = false -> setImageEnv env e !! k = env !! k.
Proof.
  intros Hk. unfold setImageEnv, Strs.SplitN2.
  destruct (Strs.cut "=" e) as [a [b |]] eqn:Hcut; [| reflexivity].
  destruct (decide (a = k)) as [-> | Hne]; [| now apply lookup_insert_ne].
  apply cut_names in Hcut. congruence.
Qed.

Lemma fold_setImageEnv_other (ee : list string) (env : gmap string string) (k : string) :
  Forall (fun e => names k e = false) ee ->
  fold_left setImageEnv ee env !! k = env !! k.
Proof.
  intros H. revert env. induction H as [|e ee He _ IH]; intros env; [reflexivity |].
  cbn [fold_left]. now rewrite IH, setImageEnv_other.
Qed.

(** The last entry for a name gives the name its value. *)
Lemma fold_setImageEnv_entry (pre post : list string) (env : gmap string string)
    (k v : string) :
  Strs.Count k "=" = 0%nat ->
  Forall (fun e => names k e = false) post ->
  fold_left setImageEnv (pre ++ entry k v :: post) env !! k = Some v.
Proof.
  intros Hk Hpost. rewrite fold_left_app. cbn [fold_left].
  rewrite fold_setImageEnv_other by exact Hpost.
  unfold setImageEnv at 1, Strs.SplitN2. rewrite (cut_entry k v Hk).
  apply lookup_insert_eq.
Qed.

(** The two [docker inspect] commands of [case "FROM"]. *)
Definition inspectEnv (image : string) : list string :=
  ["docker"; "inspect"; image; "--format"; "{{json .Config.Env}}"].

Definition inspectWorkingDir (image : string) : list string :=
  ["docker"; "inspect"; image; "--format"; "{{.Config.WorkingDir}}"].

End From.

(** C3, as the code has it. At a [FROM] instruction whose image can be
    inspected, the entries of the image's configured environment are
    merged into the running map: a name gets the value of the last
    entry [NAME=value] that the image has for it, also when an earlier
    [ENV] instruction had set it; the names for which the image has no
    entry keep their values; the sources are left as they are; and the
    working directory becomes the image's configured one, without the
    surrounding white space. *)
Theorem FROM_merges_image_env (lib : Lib) (h : Host) (svc : Service) (line : string)
    (parts ee : list string) (st : scan_state) (envdata wddata : string) :
  Strs.Fields line = parts ->
  Strs.ToUpper (unicode_To_UpperCase lib) (nth 0 parts "") = "FROM" ->
  (1 < length parts)%nat ->
  Exec_Execute h (inspectEnv (nth 1 parts "")) = Ok envdata ->
  json_Unmarshal lib envdata = Ok ee ->
  Exec_Execute h (inspectWorkingDir (nth 1 parts "")) = Ok wddata ->
  exists st',
    scanLine lib h svc line st = Done st'
    /\ (forall pre post k v,
          ee = (pre ++ entry k v :: post)%list ->
          Strs.Count k "=" = 0%nat ->
          Forall (fun e => names k e = false) post ->
          st_env st' !! k = Some v)
    /\ (forall k, Forall (fun e => names k e = false) ee ->
                  st_env st' !! k = st_env st !! k)
    /\ st_env st' = imageEnv ee ∪ st_env st
    /\ st_bs st' = st_bs st
    /\ st_wd st' = Strs.TrimSpace wddata.
Proof.
  intros Hparts Hop Hlen Henv Hjson Hwd.
  exists {| st_bs := st_bs st;
            st_env := fold_left setImageEnv ee (st_env st);
            st_wd := Strs.TrimSpace wddata |}.
  cbn [st_env st_bs st_wd]. split; [| split; [| split; [| split; [| split]]]].
  - unfold scanLine. rewrite Hparts.
    replace (length parts <? 1)%nat with false by (symmetry; apply Nat.ltb_ge; lia).
    rewrite Hop. cbn [String.eqb Ascii.eqb Bool.eqb orb].
    unfold instrFROM.
    replace (1 <? length parts)%nat with true by (symmetry; apply Nat.ltb_lt; lia).
    unfold inspectEnv, inspectWorkingDir in *.
    now rewrite Henv, Hjson, Hwd.
  - intros pre post k v -> Hk Hpost. now apply fold_setImageEnv_entry.
  - intros k Hk. now apply fold_setImageEnv_other.
  - apply fold_setImageEnv.
  - reflexivity.
  - reflexivity.
Qed.

(** The state of the scan after [ENV PORT 3000]. *)
Definition port3000 : scan_state :=
  {| st_bs := []; st_env := {[ "PORT" := "3000" ]}; st_wd := "" |}.

Lemma FROM_merges_image_env_witness :
  exists st',
    scanLine Sample.lib (Sample.host "") Sample.web "FROM base" port3000 = Done st'
    /\ (forall pre post k v,
          ["PORT=8080"] = (pre ++ entry k v :: post)%list ->
          Strs.Count k "=" = 0%nat ->
          Forall (fun e => names k e = false) post ->
          st_env st' !! k = Some v)
    /\ (forall k, Forall (fun e => names k e = false) ["PORT=8080"] ->
                  st_env st' !! k = st_env port3000 !! k)
    /\ st_env st' = imageEnv ["PORT=8080"] ∪ st_env port3000
    /\ st_bs st' = st_bs port3000
    /\ st_wd st' = Strs.TrimSpace ("/srv" ++ String "010" "").
Proof.
  apply (FROM_merges_image_env Sample.lib (Sample.host "") Sample.web "FROM base"
           ["FROM"; "base"] ["PORT=8080"] port3000 Sample.baseEnvJSON
           ("/srv" ++ String "010" "")); reflexivity || (simpl; lia).
Defined.

(** C3 as stated fails: [ENV PORT 3000] sets [PORT], and the [FROM]
    instruction after it replaces the value by the image's. *)
Lemma FROM_overwrites_ENV :
  match scanLines Sample.lib (Sample.host "") Sample.web ["ENV PORT 3000"]
          {| st_bs := []; st_env := ∅; st_wd := "" |} with
  | Done st => st_env st !! "PORT"
  | _ => None
  end = Some "3000"
  /\ match scanLines Sample.lib (Sample.host "") Sample.web ["ENV PORT 3000"; "FROM base"]
             {| st_bs := []; st_env := ∅; st_wd := "" |} with
     | Done st => st_env st !! "PORT"
     | _ => None
     end = Some "8080".
Proof. split; vm_compute; reflexivity. Qed.

(** * The rest of the engine *)

(** ** [buildIgnores], [watchChanges] and [streamLogs] *)

(** The outcomes of [os.Open] that [buildIgnores] tells apart: the file
    and its text, an error for which [os.IsNotExist] holds, any other
    error. *)
Inductive open_result : Type :=
| Opened (text : string)
| OpenNotExist (msg : string)
| OpenErr (msg : string).

(** [buildIgnores(root, service)], given [os.Open] and
    [dockerignore.ReadAll]. *)
Definition buildIgnores (open : string -> open_result)
    (readAll : string -> result (list string)) (root : string)
  : result (list string) :=
  match open (Filepath.Join [root; ".dockerignore"]) with
  | OpenNotExist _ => Ok []
  | OpenErr e => Err e
  | Opened text => readAll text
  end.

(** [watchChanges(ctx, pw, m, service, root, ch)]: what the task sends
    and the watchers it starts, one [go opts.watchPath] per source;
    [None] when [buildSources] panics. *)
Definition watchChanges (lib : Lib) (h : Host) (open : string -> open_result)
    (readAll : string -> result (list string)) (m : Manifest) (service root : string)
  : option (list effect) :=
  match buildSources lib h m root service with
  | Panics => None
  | Fails e => Some [Send ("sync error: " ++ e)]
  | Done bss =>
      match buildIgnores open readAll root with
      | Err e => Some [Send ("sync error: " ++ e)]
      | Ok _ => Some (map (fun bs => Go ("watchPath " ++ Local bs)) bss)
      end
  end.

(** One turn of the loop of [streamLogs]: whether the session is found
    cancelled at the top of the turn; what [AppLogs] answers (the text
    of the stream, how it ends, and when [writeLogs] finds the session
    cancelled); whether the session is found cancelled before the
    sleep. *)
Record log_round : Type := mkLog_round {
  done_before : bool;
  AppLogs : result (string * error * (nat -> bool));
  done_after : bool
}.

(** [streamLogs(ctx, pw, services)] *)
Fixpoint streamLogs (services : gmap string bool) (rounds : list log_round)
  : list effect :=
  match rounds with
  | [] => []
  | r :: rest =>
      if done_before r then []
      else
        (match AppLogs r with
         | Ok (data, rerr, cancelled) => writeLogs cancelled services data rerr
         | Err _ => []
         end
         ++ (if done_after r then [] else streamLogs services rest))%list
  end.

(** ** Properties of the deduplication *)

Section DedupMore.

Variable rel : string -> string -> result string.

(** The test that the inner loop makes of a later entry [y]. *)
Definition nests (x y : buildSource) : result bool :=
  if Strs.HasPrefix (Local x) (Local y) then
    if String.eqb (Remote x) (Remote y) then Ok true
    else match rel (Local y) (Local x) with
         | Err e => Err e
         | Ok rl =>
             match rel (Remote y) (Remote x) with
             | Err e => Err e
             | Ok rr => Ok (String.eqb rl rr)
             end
         end
  else Ok false.

Lemma contained_cons (x y : buildSource) (later : list buildSource) :
  contained rel x (y :: later)
  = match nests x y with
    | Ok true => Ok true
    | Ok false => contained rel x later
    | Err e => Err e
    end.
Proof.
  cbn [contained]. unfold nests.
  destruct (Strs.HasPrefix (Local x) (Local y)); [| reflexivity].
  destruct (String.eqb (Remote x) (Remote y)); [reflexivity |].
  destruct (rel (Local y) (Local x)); [| reflexivity].
  destruct (rel (Remote y) (Remote x)); [| reflexivity].
  now destruct (String.eqb _ _).
Qed.

Lemma contained_false (x : buildSource) (later : list buildSource) :
  contained rel x later = Ok false <-> Forall (fun y => nests x y = Ok false) later.
Proof.
  induction later as [|y later IH]; [split; [constructor | reflexivity] |].
  rewrite contained_cons. split.
  - destruct (nests x y) as [[|] | e] eqn:Hn; try discriminate.
    intros H. constructor; [exact Hn | now apply IH].
  - intros H. inversion H as [|? ? Hy Hl]; subst. rewrite Hy. now apply IH.
Qed.

Lemma dedup_cons (x : buildSource) (later out : list buildSource) :
  dedup rel (x :: later) = Ok out ->
  exists c bss, contained rel x later = Ok c /\ dedup rel later = Ok bss
                /\ out = if c then bss else x :: bss.
Proof.
  cbn [dedup]. destruct (contained rel x later) as [c | e]; [| discriminate].
  destruct (dedup rel later) as [bss | e]; [| discriminate].
  intros [= <-]. now exists c, bss.
Qed.

Lemma dedup_In (bs out : list buildSource) (y : buildSource) :
  dedup rel bs = Ok out -> In y out -> In y bs.
Proof.
  revert out. induction bs as [|x bs IH]; intros out Hd Hin.
  - cbn in Hd. injection Hd as <-. destruct Hin.
  - destruct (dedup_cons _ _ _ Hd) as (c & bss & _ & Hbss & ->).
    destruct c; [right; now apply (IH bss) |].
    destruct Hin as [-> | Hin]; [now left | right; now apply (IH bss)].
Qed.

(** An entry of the result, with what follows it there, comes from an
    entry of the list with what follows it there. *)
Lemma dedup_split (bs pre post : list buildSource) (x : buildSource) :
  dedup rel bs = Ok (pre ++ x :: post)%list ->
  exists pre0 post0, bs = (pre0 ++ x :: post0)%list
                     /\ contained rel x post0 = Ok false
                     /\ dedup rel post0 = Ok post.
Proof.
  revert pre. induction bs as [|y bs IH]; intros pre Hd.
  - cbn in Hd. destruct pre; discriminate Hd.
  - destruct (dedup_cons _ _ _ Hd) as (c & bss & Hc & Hbss & Hout).
    assert (Hrec : forall pre', bss = (pre' ++ x :: post)%list ->
              exists pre0 post0, (y :: bs) = (pre0 ++ x :: post0)%list
                                 /\ contained rel x post0 = Ok false
                                 /\ dedup rel post0 = Ok post).
    { intros pre' ->. destruct (IH pre' Hbss) as (pre0 & post0 & -> & Hk & Hp).
      now exists (y :: pre0), post0. }
    destruct c; [now apply (Hrec pre) |].
    destruct pre as [|p pre]; cbn [List.app] in Hout.
    + injection Hout as -> ->. now exists [], bs.
    + injection Hout as _ Hout. now apply (Hrec pre).
Qed.

(** The entries of [bs] lie apart: no local path is a prefix of the
    local path of an entry before it. *)
Fixpoint apart (bs : list buildSource) : Prop :=
  match bs with
  | [] => True
  | x :: later =>
      Forall (fun y => Strs.HasPrefix (Local x) (Local y) = false) later /\ apart later
  end.

End DedupMore.

(** X1. The deduplication only removes entries: what it returns is a
    sublist of the list it is given, in the same order. *)
Theorem dedup_sublist (rel : string -> string -> result string)
    (bs out : list buildSource) :
  dedup rel bs = Ok out -> sublist out bs.
Proof.
  revert out. induction bs as [|x bs IH]; intros out Hd.
  - cbn in Hd. injection Hd as <-. constructor.
  - destruct (dedup_cons rel _ _ _ Hd) as (c & bss & _ & Hbss & ->).
    destruct c; [apply sublist_cons | apply sublist_skip]; now apply IH.
Qed.

Lemma dedup_sublist_witness : sublist [outer] [inner; outer].
Proof. apply (dedup_sublist Filepath.Rel [inner; outer] [outer]). reflexivity. Defined.

(** X2. In the list returned, no entry is covered by an entry that
    follows it. *)
Theorem dedup_not_covered_later (rel : string -> string -> result string)
    (bs pre post : list buildSource) (x y : buildSource) :
  dedup rel bs = Ok (pre ++ x :: post)%list ->
  In y post ->
  ~ covers rel y x.
Proof.
  intros Hd Hy Hcov.
  destruct (dedup_split rel bs pre post x Hd) as (pre0 & post0 & _ & Hk & Hp).
  pose proof (dedup_In rel post0 post y Hp Hy) as Hy0.
  pose proof (contained_covered rel x y post0 false Hy0 Hcov Hk). discriminate.
Qed.

Lemma dedup_not_covered_later_witness :
  dedup Filepath.Rel [outer; inner] = Ok [outer; inner]
  /\ ~ covers Filepath.Rel inner outer.
Proof.
  split; [reflexivity |].
  apply (dedup_not_covered_later Filepath.Rel [outer; inner] [] [inner] outer inner).
  - reflexivity.
  - now left.
Defined.

(** X3. Deduplicating a second time changes nothing. *)
Theorem dedup_idempotent (rel : string -> string -> result string)
    (bs out : list buildSource) :
  dedup rel bs = Ok out -> dedup rel out = Ok out.
Proof.
  revert out. induction bs as [|x bs IH]; intros out Hd.
  - cbn in Hd. now injection Hd as <-.
  - destruct (dedup_cons rel _ _ _ Hd) as (c & bss & Hc & Hbss & ->).
    specialize (IH bss Hbss).
    destruct c; [exact IH |].
    cbn [dedup]. rewrite IH.
    replace (contained rel x bss) with (Ok false : result bool); [reflexivity |].
    symmetry. apply contained_false. apply contained_false in Hc.
    rewrite List.Forall_forall in *. intros y Hy. apply Hc.
    now apply (dedup_In rel bs bss).
Qed.

Lemma dedup_idempotent_witness : dedup Filepath.Rel [outer] = Ok [outer].
Proof. apply (dedup_idempotent Filepath.Rel [inner; outer] [outer]). reflexivity. Defined.

(** X4. When no local path is a prefix of the local path of an entry
    before it, every entry is kept, and [filepath.Rel] is not consulted:
    the result does not depend on it and is no error. *)
Theorem dedup_apart (rel : string -> string -> result string) (bs : list buildSource) :
  apart bs -> dedup rel bs = Ok bs.
Proof.
  induction bs as [|x bs IH]; [reflexivity |].
  intros [Hx Hbs]. cbn [dedup]. rewrite (IH Hbs).
  replace (contained rel x bs) with (Ok false : result bool); [reflexivity |].
  symmetry. apply contained_false.
  eapply Forall_impl; [exact Hx |].
  intros y Hy. unfold nests. now rewrite Hy.
Qed.

Lemma dedup_apart_witness :
  dedup (fun _ _ => Err "unused")
    [ {| Local := "/app/web/"; Remote := "/srv/web" |};
      {| Local := "/app/api/"; Remote := "api" |} ]
  = Ok [ {| Local := "/app/web/"; Remote := "/srv/web" |};
         {| Local := "/app/api/"; Remote := "api" |} ].
Proof.
  apply (dedup_apart (fun _ _ => Err "unused")).
  cbn [apart]. repeat split; repeat constructor.
Defined.

(** X5. The last entry of the list is always returned: an entry is
    never removed on account of the entries before it. *)
Theorem dedup_last_kept (rel : string -> string -> result string)
    (pre out : list buildSource) (x : buildSource) :
  dedup rel (pre ++ [x])%list = Ok out -> In x out /\ last out = Some x.
Proof.
  revert out. induction pre as [|y pre IH]; intros out Hd.
  - cbn in Hd. injection Hd as <-. split; [now left | reflexivity].
  - cbn [List.app] in Hd.
    destruct (dedup_cons rel _ _ _ Hd) as (c & bss & _ & Hbss & ->).
    destruct (IH bss Hbss) as [Hin Hlast].
    destruct c; [now split |].
    split; [now right |].
    destruct bss as [|b bss]; [destruct Hin | exact Hlast].
Qed.

Lemma dedup_last_kept_witness :
  In inner [outer; inner] /\ last [outer; inner] = Some inner.
Proof. apply (dedup_last_kept Filepath.Rel [outer] [outer; inner] inner). reflexivity. Defined.

(** ** Properties of the scan of the Dockerfile *)

Section Options.

Variable lib : Lib.

(** A field in which [reDockerOption] finds nothing. *)
Definition plain (tok : string) : Prop :=
  Regexp.FindStringSubmatch reDockerOption 1 tok = None.

(** A field in which [reDockerOption] finds an option; [from] tells
    whether it is the option [from]. *)
Definition flag (from : bool) (tok : string) : Prop :=
  exists m, Regexp.FindStringSubmatch reDockerOption 1 tok = Some m
            /\ String.eqb (Strs.ToLower (unicode_To_LowerCase lib) (nth 1 m "")) "from"
               = from.

Lemma plain_nth (arr : list string) (k : nat) :
  Forall plain arr -> plain (nth k arr "").
Proof.
  intros H. destruct (Nat.lt_ge_cases k (length arr)) as [Hk | Hk].
  - rewrite List.Forall_forall in H. apply H. now apply nth_In.
  - rewrite nth_overflow by exact Hk. reflexivity.
Qed.

(** Over fields without options the loop changes nothing. *)
Lemma stripOptions_plain (todo i : nat) (arr : list string) (len : nat) :
  Forall plain arr -> stripOptions lib todo i arr len = Parts (take len arr).
Proof.
  intros H. revert i. induction todo as [|todo IH]; intros i; [reflexivity |].
  cbn [stripOptions]. pose proof (plain_nth arr i H) as Hi. unfold plain in Hi.
  rewrite Hi. apply IH.
Qed.

(** The loop passes over leading fields without options. *)
Lemma stripOptions_skip (pre rest : list string) (todo len : nat) :
  Forall plain pre ->
  stripOptions lib (length pre + todo) 0 (pre ++ rest)%list len
  = stripOptions lib todo (length pre) (pre ++ rest)%list len.
Proof.
  intros H.
  assert (G : forall a i, (i + a = length pre)%nat ->
            stripOptions lib (a + todo) i (pre ++ rest)%list len
            = stripOptions lib todo (length pre) (pre ++ rest)%list len).
  { induction a as [|a IH]; intros i Hi.
    - cbn [Nat.add]. now replace i with (length pre) by lia.
    - cbn [Nat.add stripOptions].
      assert (Hp : plain (nth i (pre ++ rest)%list "")).
      { rewrite app_nth1 by lia. now apply plain_nth. }
      unfold plain in Hp. rewrite Hp. apply IH. lia. }
  apply G. lia.
Qed.

Lemma nth_middle_app (pre rest : list string) (o : string) :
  nth (length pre) (pre ++ o :: rest)%list "" = o.
Proof. rewrite app_nth2 by lia. now rewrite Nat.sub_diag. Qed.

Lemma take_exact {A} (l k : list A) (n : nat) : n = length l -> take n (l ++ k) = l.
Proof. intros ->. apply take_app_length. Qed.

Lemma drop_past_middle {A} (pre post : list A) (o : A) :
  drop (S (length pre)) (pre ++ o :: post) = post.
Proof. induction pre as [|x pre IH]; [reflexivity | exact IH]. Qed.

Lemma drop_into_tail {A} (pre post : list A) (n : nat) :
  drop (length pre + n) (pre ++ post) = drop n post.
Proof. induction pre as [|x pre IH]; [reflexivity | exact IH]. Qed.

(** One option among fields without options is taken out. *)
Lemma stripOptions_one (pre post : list string) (o : string) :
  Forall plain pre -> Forall plain post -> flag false o ->
  stripOptions lib (length (pre ++ o :: post)) 0 (pre ++ o :: post)%list
    (length (pre ++ o :: post))
  = Parts (pre ++ post).
Proof.
  intros Hpre Hpost (m & Hm & Hfrom).
  set (arr := (pre ++ o :: post)%list).
  assert (Hlen : length arr = (length pre + S (length post))%nat)
    by (unfold arr; rewrite length_app; reflexivity).
  rewrite Hlen at 1. unfold arr at 1.
  rewrite stripOptions_skip by exact Hpre. fold arr.
  cbn [stripOptions]. unfold arr at 1. rewrite nth_middle_app, Hm, Hfrom.
  replace (length pre + 1 <=? length arr)%nat with true
    by (symmetry; apply Nat.leb_le; lia).
  rewrite firstn_all.
  replace (length arr - 1)%nat with (length pre + length post)%nat by lia.
  unfold arr. rewrite take_app_length, drop_past_middle, drop_into_tail.
  destruct post as [|p post].
  - cbn [stripOptions length]. rewrite app_nil_l, app_nil_r.
    f_equal. apply take_exact. lia.
  - rewrite stripOptions_plain.
    + f_equal. rewrite app_assoc. apply take_exact. now rewrite length_app.
    + apply Forall_app. split; [exact Hpre |].
      apply Forall_app. split; [exact Hpost |].
      cbn [length drop]. now apply Forall_drop.
Qed.

(** An option [from] after fields without options ends the loop. *)
Lemma stripOptions_from (pre post : list string) (o : string) :
  Forall plain pre -> flag true o ->
  stripOptions lib (length (pre ++ o :: post)) 0 (pre ++ o :: post)%list
    (length (pre ++ o :: post))
  = FromStage.
Proof.
  intros Hpre (m & Hm & Hfrom).
  rewrite length_app. cbn [length].
  rewrite stripOptions_skip by exact Hpre.
  cbn [stripOptions]. now rewrite nth_middle_app, Hm, Hfrom.
Qed.

(** Two options at the end of the line take the loop out of the bounds
    of the slice. *)
Lemma stripOptions_two (pre : list string) (o1 o2 : string) :
  Forall plain pre -> flag false o1 -> flag false o2 ->
  stripOptions lib (length (pre ++ [o1; o2])) 0 (pre ++ [o1; o2])%list
    (length (pre ++ [o1; o2]))
  = OutOfRange.
Proof.
  intros Hpre (m1 & Hm1 & Hf1) (m2 & Hm2 & Hf2).
  set (arr := (pre ++ [o1; o2])%list).
  assert (Hlen : length arr = (length pre + 2)%nat)
    by (unfold arr; rewrite length_app; reflexivity).
  rewrite Hlen at 1. unfold arr at 1.
  rewrite stripOptions_skip by exact Hpre. fold arr.
  cbn [stripOptions]. unfold arr at 1. rewrite nth_middle_app, Hm1, Hf1.
  replace (length pre + 1 <=? length arr)%nat with true
    by (symmetry; apply Nat.leb_le; lia).
  rewrite firstn_all.
  replace (length arr - 1)%nat with (length pre + 1)%nat by lia.
  unfold arr. rewrite take_app_length, drop_past_middle, drop_into_tail.
  cbn [drop List.app].
  replace (S (length pre)) with (length (pre ++ [o2])) by (rewrite length_app; simpl; lia).
  replace (pre ++ [o2; o2])%list with ((pre ++ [o2]) ++ [o2])%list
    by now rewrite <- app_assoc.
  rewrite nth_middle_app, Hm2, Hf2.
  replace (length (pre ++ [o2]) + 1 <=? length pre + 1)%nat with false
    by (symmetry; apply Nat.leb_gt; rewrite length_app; simpl; lia).
  reflexivity.
Qed.

End Options.

Section ScanLine.

Variables (lib : Lib) (h : Host) (svc : Service).

(** The fields of an [ADD] or [COPY] instruction, in any case of
    letters. *)
Definition copyFields (parts : list string) : Prop :=
  Strs.ToUpper (unicode_To_UpperCase lib) (nth 0 parts "") = "ADD"
  \/ Strs.ToUpper (unicode_To_UpperCase lib) (nth 0 parts "") = "COPY".

Lemma scanLine_copy (line : string) (parts : list string) (st : scan_state) :
  Strs.Fields line = parts -> copyFields parts -> parts <> [] ->
  scanLine lib h svc line st = instrCOPY lib h svc parts st.
Proof.
  intros Hf Hop Hne. unfold scanLine. rewrite Hf.
  replace (length parts <? 1)%nat with false
    by (symmetry; apply Nat.ltb_ge; destruct parts; [congruence | simpl; lia]).
  destruct Hop as [-> | ->]; reflexivity.
Qed.

Lemma instrCOPY_plain (parts : list string) (st : scan_state) :
  Forall plain parts ->
  stripOptions lib (length parts) 0 parts (length parts) = Parts parts.
Proof. intros H. rewrite stripOptions_plain by exact H. now rewrite firstn_all. Qed.

(** What [instrCOPY] does once the options are gone. *)
Definition recordSource (parts : list string) (st : scan_state) : outcome scan_state :=
  if (2 <? length parts)%nat then
    match url_Parse_Scheme lib (nth 1 parts "") with
    | Err e => Fails e
    | Ok scheme =>
        if Strs.HasPrefix (nth 1 parts "") "--from" then Done st
        else if String.eqb scheme "http" || String.eqb scheme "https" then Done st
        else
          let remote := replaceEnv (nth 2 parts "") (map_range h (st_env st)) in
          Done {| st_bs := st_bs st
                           ++ [{| Local := Filepath.Join [Build_Path svc; nth 1 parts ""];
                                  Remote :=
                                    if negb (String.eqb (st_wd st) "")
                                       && negb (Filepath.IsAbs remote)
                                    then Filepath.Join [st_wd st; remote] else remote |}];
                  st_env := st_env st;
                  st_wd := st_wd st |}
    end
  else Done st.

Lemma instrCOPY_stripped (parts parts' : list string) (st : scan_state) :
  stripOptions lib (length parts) 0 parts (length parts) = Parts parts' ->
  instrCOPY lib h svc parts st = recordSource parts' st.
Proof. intros H. unfold instrCOPY, recordSource. now rewrite H. Qed.

(** A rooted path stays rooted when cleaned, and so does what is joined
    to it. *)
Lemma IsAbs_Join (wd r : string) :
  Filepath.IsAbs wd = true -> Filepath.IsAbs (Filepath.Join [wd; r]) = true.
Proof.
  intros Hwd. destruct wd as [|c wd]; [discriminate |].
  unfold Filepath.IsAbs, Strs.HasPrefix in Hwd. cbn [String.prefix] in Hwd.
  destruct (ascii_dec "/" c) as [<- | ]; [| discriminate].
  cbn [Filepath.Join String.eqb Strs.Join].
  unfold Filepath.Clean.
  change (String "/" wd ++ "/" ++ r) with (String "/" (wd ++ "/" ++ r)).
  cbn [String.eqb]. 
  replace (Filepath.IsAbs (String "/" (wd ++ "/" ++ r))) with true
    by (unfold Filepath.IsAbs, Strs.HasPrefix; cbn [String.prefix];
        destruct (ascii_dec "/" "/"); [now destruct (wd ++ "/" ++ r) | congruence]).
  unfold Filepath.IsAbs, Strs.HasPrefix.
  match goal with |- String.prefix "/" ("/" ++ ?b) = true => generalize b end.
  intros b. change ("/" ++ b) with (String "/" b). cbn [String.prefix].
  destruct (ascii_dec "/" "/"); [now destruct b | congruence].
Qed.

(** One line adds at most one source, and only an [ADD] or [COPY]
    line adds one. *)
Lemma scanLine_bs (line : string) (st st' : scan_state) :
  scanLine lib h svc line st = Done st' ->
  st_bs st' = st_bs st
  \/ (copyFields (Strs.Fields line) /\ exists b, st_bs st' = (st_bs st ++ [b])%list).
Proof.
  unfold scanLine.
  destruct (length (Strs.Fields line) <? 1)%nat; [intros [= <-]; now left |].
  destruct (String.eqb (Strs.ToUpper (unicode_To_UpperCase lib)
                          (nth 0 (Strs.Fields line) "")) "ADD"
            || String.eqb (Strs.ToUpper (unicode_To_UpperCase lib)
                             (nth 0 (Strs.Fields line) "")) "COPY") eqn:Hop.
  - assert (Hcopy : copyFields (Strs.Fields line)).
    { apply orb_true_iff in Hop as [Hop | Hop]; apply String.eqb_eq in Hop;
        [now left | now right]. }
    unfold instrCOPY.
    destruct (stripOptions _ _ _ _ _) as [parts | |]; try discriminate;
      [| intros [= <-]; now left].
    destruct (2 <? length parts)%nat; [| intros [= <-]; now left].
    destruct (url_Parse_Scheme lib (nth 1 parts "")); [| discriminate].
    destruct (Strs.HasPrefix (nth 1 parts "") "--from"); [intros [= <-]; now left |].
    destruct (String.eqb a "http" || String.eqb a "https"); [intros [= <-]; now left |].
    intros [= <-]. right. split; [exact Hcopy |]. cbn [st_bs]. eauto.
  - destruct (String.eqb _ "ENV").
    { intros [= <-]. left. unfold instrENV.
      now destruct (2 <? length (Strs.Fields line))%nat. }
    destruct (String.eqb _ "FROM").
    { unfold instrFROM. intros H. left.
      destruct (1 <? length (Strs.Fields line))%nat; [| now injection H as <-].
      destruct (Exec_Execute h _); [| now injection H as <-].
      destruct (json_Unmarshal lib a); [| discriminate].
      destruct (Exec_Execute h _); [| discriminate].
      now injection H as <-. }
    destruct (String.eqb _ "WORKDIR").
    { intros [= <-]. left. unfold instrWORKDIR.
      now destruct (1 <? length (Strs.Fields line))%nat. }
    intros [= <-]. now left.
Qed.

(** The lines that are [ADD] or [COPY] instructions. *)
Definition copyLine (line : string) : bool :=
  String.eqb (Strs.ToUpper (unicode_To_UpperCase lib) (nth 0 (Strs.Fields line) "")) "ADD"
  || String.eqb (Strs.ToUpper (unicode_To_UpperCase lib) (nth 0 (Strs.Fields line) ""))
       "COPY".

End ScanLine.

(** X6. In an [ADD] or [COPY] line, one option other than [--from]
    among fields without options is transparent: the line is read as
    the line without it. *)
Theorem COPY_option_is_transparent (lib : Lib) (h : Host) (svc : Service)
    (pre post : list string) (o : string) (st : scan_state) :
  Forall plain pre -> Forall plain post -> flag lib false o ->
  instrCOPY lib h svc (pre ++ o :: post)%list st
  = instrCOPY lib h svc (pre ++ post)%list st.
Proof.
  intros Hpre Hpost Ho.
  rewrite (instrCOPY_stripped lib h svc _ (pre ++ post)%list)
    by now apply stripOptions_one.
  symmetry. apply instrCOPY_stripped.
  apply (instrCOPY_plain lib (pre ++ post)%list st).
  apply Forall_app. now split.
Qed.

(** The state of the scan after [FROM base] in the sample project. *)
Definition in_srv : scan_state := {| st_bs := []; st_env := ∅; st_wd := "/srv" |}.

Lemma COPY_option_is_transparent_witness :
  instrCOPY Sample.lib (Sample.host "") Sample.web
    (["COPY"] ++ "--chown=app:app" :: ["src"; "lib"])%list in_srv
  = instrCOPY Sample.lib (Sample.host "") Sample.web
      (["COPY"] ++ ["src"; "lib"])%list in_srv.
Proof.
  apply (COPY_option_is_transparent Sample.lib (Sample.host "") Sample.web
           ["COPY"] ["src"; "lib"] "--chown=app:app" in_srv).
  - repeat constructor.
  - repeat constructor.
  - exists ["--chown"; "chown"]. split; reflexivity.
Defined.

(** X7. An [ADD] or [COPY] line whose first option is [--from] is
    skipped: it adds no source and changes neither the environment nor
    the working directory. *)
Theorem COPY_from_stage_is_skipped (lib : Lib) (h : Host) (svc : Service)
    (pre post : list string) (o : string) (st : scan_state) :
  Forall plain pre -> flag lib true o ->
  instrCOPY lib h svc (pre ++ o :: post)%list st = Done st.
Proof.
  intros Hpre Ho. unfold instrCOPY.
  now rewrite (stripOptions_from lib pre post o Hpre Ho).
Qed.

Lemma COPY_from_stage_is_skipped_witness :
  instrCOPY Sample.lib (Sample.host "") Sample.web
    (["COPY"] ++ "--from=builder" :: ["/out"; "/srv/out"])%list in_srv
  = Done in_srv.
Proof.
  apply (COPY_from_stage_is_skipped Sample.lib (Sample.host "") Sample.web
           ["COPY"] ["/out"; "/srv/out"] "--from=builder" in_srv).
  - repeat constructor.
  - exists ["--from"; "from"]. split; reflexivity.
Defined.

(** X8. An [ADD] or [COPY] line that ends in two options, neither of
    them [--from], makes the loop over its fields slice past the end:
    the analysis panics. *)
Theorem COPY_two_trailing_options_panic (lib : Lib) (h : Host) (svc : Service)
    (pre : list string) (o1 o2 : string) (st : scan_state) :
  Forall plain pre -> flag lib false o1 -> flag lib false o2 ->
  instrCOPY lib h svc (pre ++ [o1; o2])%list st = Panics.
Proof.
  intros Hpre H1 H2. unfold instrCOPY.
  now rewrite (stripOptions_two lib pre o1 o2 Hpre H1 H2).
Qed.

Lemma COPY_two_trailing_options_panic_witness :
  instrCOPY Sample.lib (Sample.host "") Sample.web
    (["COPY"; "src"; "/srv/src"] ++ ["--chown=app"; "--link"])%list in_srv
  = Panics.
Proof.
  apply (COPY_two_trailing_options_panic Sample.lib (Sample.host "") Sample.web
           ["COPY"; "src"; "/srv/src"] "--chown=app" "--link" in_srv).
  - repeat constructor.
  - exists ["--chown"; "chown"]. split; reflexivity.
  - exists ["--link"; "link"]. split; reflexivity.
Defined.

(** X9. Of an [ADD] or [COPY] line without options only the first two
    operands are read: the fields after the third do not matter. *)
Theorem COPY_reads_two_operands (lib : Lib) (h : Host) (svc : Service)
    (parts : list string) (st : scan_state) :
  Forall plain parts ->
  instrCOPY lib h svc parts st = instrCOPY lib h svc (take 3 parts) st.
Proof.
  intros Hp.
  rewrite (instrCOPY_stripped lib h svc parts parts)
    by apply (instrCOPY_plain lib parts st Hp).
  rewrite (instrCOPY_stripped lib h svc (take 3 parts) (take 3 parts))
    by (apply (instrCOPY_plain lib (take 3 parts) st); now apply Forall_take).
  destruct parts as [|p0 [|p1 [|p2 rest]]]; reflexivity.
Qed.

Lemma COPY_reads_two_operands_witness :
  instrCOPY Sample.lib (Sample.host "") Sample.web
    ["COPY"; "src"; "lib"; "/srv/"] in_srv
  = instrCOPY Sample.lib (Sample.host "") Sample.web
      (take 3 ["COPY"; "src"; "lib"; "/srv/"]) in_srv.
Proof.
  apply (COPY_reads_two_operands Sample.lib (Sample.host "") Sample.web
           ["COPY"; "src"; "lib"; "/srv/"] in_srv).
  repeat constructor.
Defined.

(** X10. An [ENV] line with three fields or more maps its second field
    to its third and leaves the other names, the sources and the working
    directory as they are; an [ENV] line with fewer fields, such as one
    in the spelling [NAME=value], changes nothing. *)
Theorem ENV_sets_one_name (lib : Lib) (h : Host) (svc : Service)
    (line short : string) (parts : list string) (st : scan_state) :
  Strs.Fields line = parts ->
  Strs.ToUpper (unicode_To_UpperCase lib) (nth 0 parts "") = "ENV" ->
  (2 < length parts)%nat ->
  Strs.ToUpper (unicode_To_UpperCase lib) (nth 0 (Strs.Fields short) "") = "ENV" ->
  (length (Strs.Fields short) <= 2)%nat ->
  (exists st', scanLine lib h svc line st = Done st'
               /\ st_env st' !! nth 1 parts "" = Some (nth 2 parts "")
               /\ (forall k, k <> nth 1 parts "" -> st_env st' !! k = st_env st !! k)
               /\ st_bs st' = st_bs st /\ st_wd st' = st_wd st)
  /\ scanLine lib h svc short st = Done st.
Proof.
  intros Hf Hop Hlen Hop' Hlen'. split.
  - exists (instrENV parts st). unfold scanLine. rewrite Hf.
    replace (length parts <? 1)%nat with false by (symmetry; apply Nat.ltb_ge; lia).
    rewrite Hop. cbn [String.eqb Ascii.eqb Bool.eqb orb].
    split; [reflexivity |]. unfold instrENV.
    replace (2 <? length parts)%nat with true by (symmetry; apply Nat.ltb_lt; lia).
    cbn [st_env st_bs st_wd]. repeat split.
    + apply lookup_insert_eq.
    + intros k Hk. now apply lookup_insert_ne.
  - unfold scanLine.
    destruct (length (Strs.Fields short) <? 1)%nat; [reflexivity |].
    rewrite Hop'. cbn [String.eqb Ascii.eqb Bool.eqb orb]. unfold instrENV.
    now replace (2 <? length (Strs.Fields short))%nat with false
      by (symmetry; apply Nat.ltb_ge; lia).
Qed.

Lemma ENV_sets_one_name_witness :
  (exists st', scanLine Sample.lib (Sample.host "") Sample.web "env PORT 3000 # dev" in_srv
               = Done st'
               /\ st_env st' !! nth 1 ["env"; "PORT"; "3000"; "#"; "dev"] ""
                  = Some (nth 2 ["env"; "PORT"; "3000"; "#"; "dev"] "")
               /\ (forall k, k <> nth 1 ["env"; "PORT"; "3000"; "#"; "dev"] "" ->
                             st_env st' !! k = st_env in_srv !! k)
               /\ st_bs st' = st_bs in_srv /\ st_wd st' = st_wd in_srv)
  /\ scanLine Sample.lib (Sample.host "") Sample.web "ENV PORT=3000" in_srv = Done in_srv.
Proof.
  apply (ENV_sets_one_name Sample.lib (Sample.host "") Sample.web
           "env PORT 3000 # dev" "ENV PORT=3000" ["env"; "PORT"; "3000"; "#"; "dev"] in_srv).
  - reflexivity.
  - reflexivity.
  - simpl. lia.
  - reflexivity.
  - simpl. lia.
Defined.

(** X11. The scan never drops a source it has found: the sources after
    any number of lines extend those before, by at most one for each
    [ADD] or [COPY] line. *)
Theorem scanLines_only_adds (lib : Lib) (h : Host) (svc : Service)
    (lines : list string) (st st' : scan_state) :
  scanLines lib h svc lines st = Done st' ->
  exists added, st_bs st' = (st_bs st ++ added)%list
                /\ (length added <= length (List.filter (copyLine lib) lines))%nat.
Proof.
  revert st. induction lines as [|line lines IH]; intros st Hs.
  - cbn in Hs. injection Hs as <-. exists []. now rewrite app_nil_r.
  - cbn [scanLines] in Hs.
    destruct (scanLine lib h svc line st) as [st1 | e |] eqn:H1; try discriminate.
    destruct (IH st1 Hs) as (added & Hadd & Hlen).
    cbn [List.filter].
    destruct (scanLine_bs lib h svc line st st1 H1) as [Hsame | (Hcopy & b & Hb)].
    + exists added. rewrite Hadd, Hsame. split; [reflexivity |].
      destruct (copyLine lib line); simpl; lia.
    + exists (b :: added). rewrite Hadd, Hb, <- app_assoc. split; [reflexivity |].
      replace (copyLine lib line) with true; [simpl; lia |].
      symmetry. unfold copyLine. apply orb_true_iff.
      destruct Hcopy as [-> | ->]; [now left | now right].
Qed.

Lemma scanLines_only_adds_witness :
  exists added,
    st_bs {| st_bs := [ {| Local := "src"; Remote := "/srv/src" |} ];
             st_env := {[ "PORT" := "8080" ]};
             st_wd := "/srv" |}
    = (st_bs in_srv ++ added)%list
    /\ (length added
        <= length (List.filter (copyLine Sample.lib)
                     ["FROM base"; "RUN make"; "copy src src"; "CMD run"]))%nat.
Proof.
  apply (scanLines_only_adds Sample.lib (Sample.host "") Sample.web
           ["FROM base"; "RUN make"; "copy src src"; "CMD run"] in_srv).
  vm_compute. reflexivity.
Defined.

(** X12. While the working directory is a rooted path, the remote path
    of every source that an [ADD] or [COPY] line adds is rooted. *)
Theorem COPY_remote_is_rooted (lib : Lib) (h : Host) (svc : Service)
    (parts : list string) (st st' : scan_state) :
  Filepath.IsAbs (st_wd st) = true ->
  Forall (fun b => Filepath.IsAbs (Remote b) = true) (st_bs st) ->
  instrCOPY lib h svc parts st = Done st' ->
  Forall (fun b => Filepath.IsAbs (Remote b) = true) (st_bs st')
  /\ st_wd st' = st_wd st.
Proof.
  intros Hwd Hbs. unfold instrCOPY.
  destruct (stripOptions _ _ _ _ _) as [ps | |]; try discriminate;
    [| intros [= <-]; now split].
  destruct (2 <? length ps)%nat; [| intros [= <-]; now split].
  destruct (url_Parse_Scheme lib (nth 1 ps "")); [| discriminate].
  destruct (Strs.HasPrefix (nth 1 ps "") "--from"); [intros [= <-]; now split |].
  destruct (String.eqb a "http" || String.eqb a "https"); [intros [= <-]; now split |].
  intros [= <-]. cbn [st_bs st_wd]. split; [| reflexivity].
  apply Forall_app. split; [exact Hbs |]. constructor; [| constructor].
  cbn [Remote].
  assert (Hne : String.eqb (st_wd st) "" = false).
  { destruct (st_wd st); [discriminate Hwd | reflexivity]. }
  rewrite Hne. cbn [negb andb].
  destruct (Filepath.IsAbs (replaceEnv (nth 2 ps "") (map_range h (st_env st)))) eqn:Hr;
    cbn [negb]; [exact Hr |].
  pose proof (IsAbs_Join (st_wd st)
                (replaceEnv (nth 2 ps "") (map_range h (st_env st))) Hwd) as HJ.
  cbn [Filepath.Join Strs.Join] in HJ. rewrite Hne in HJ. exact HJ.
Qed.

Lemma COPY_remote_is_rooted_witness :
  Forall (fun b => Filepath.IsAbs (Remote b) = true)
    (st_bs {| st_bs := [ {| Local := "src"; Remote := "/srv/lib/src" |} ];
              st_env := ∅; st_wd := "/srv" |})
  /\ st_wd {| st_bs := [ {| Local := "src"; Remote := "/srv/lib/src" |} ];
              st_env := ∅; st_wd := "/srv" |}
     = st_wd in_srv.
Proof.
  apply (COPY_remote_is_rooted Sample.lib (Sample.host "") Sample.web
           ["COPY"; "src"; "lib/src"] in_srv).
  - reflexivity.
  - constructor.
  - vm_compute. reflexivity.
Defined.

(** The host [h], but answering [exec] to [Exec.Execute]. *)
Definition inspecting (h : Host) (exec : list string -> result string) : Host :=
  {| ProcessList := ProcessList h;
     ProcessExec_pwd := ProcessExec_pwd h;
     FilesUpload := FilesUpload h;
     FilesDelete := FilesDelete h;
     os_Getwd := os_Getwd h;
     os_Stat := os_Stat h;
     os_ReadFile := os_ReadFile h;
     os_Open := os_Open h;
     tar_WriteHeader := tar_WriteHeader h;
     io_Copy := io_Copy h;
     tar_Close := tar_Close h;
     pipe_Close := pipe_Close h;
     Exec_Execute := exec;
     map_range := map_range h |}.

(** X13. At a [FROM] instruction, an image whose environment cannot be
    inspected is passed over, the state being left as it is, working
    directory included; an image whose environment can be inspected but
    whose working directory cannot makes the analysis fail with the
    error of that inspection. *)
Theorem FROM_inspect_failures (lib : Lib) (h h' : Host) (svc : Service)
    (line : string) (parts ee : list string) (st : scan_state)
    (e e' envdata : string) :
  Strs.Fields line = parts ->
  Strs.ToUpper (unicode_To_UpperCase lib) (nth 0 parts "") = "FROM" ->
  (1 < length parts)%nat ->
  Exec_Execute h (inspectEnv (nth 1 parts "")) = Err e ->
  Exec_Execute h' (inspectEnv (nth 1 parts "")) = Ok envdata ->
  json_Unmarshal lib envdata = Ok ee ->
  Exec_Execute h' (inspectWorkingDir (nth 1 parts "")) = Err e' ->
  scanLine lib h svc line st = Done st
  /\ scanLine lib h' svc line st = Fails e'.
Proof.
  intros Hf Hop Hlen He Henv Hjson Hwd.
  unfold inspectEnv, inspectWorkingDir in *.
  split; unfold scanLine; rewrite Hf;
    replace (length parts <? 1)%nat with false by (symmetry; apply Nat.ltb_ge; lia);
    rewrite Hop; cbn [String.eqb Ascii.eqb Bool.eqb orb]; unfold instrFROM;
    replace (1 <? length parts)%nat with true by (symmetry; apply Nat.ltb_lt; lia).
  - now rewrite He.
  - now rewrite Henv, Hjson, Hwd.
Qed.

(** A host on which the working directory of no image can be read. *)
Definition no_workdir : Host :=
  inspecting (Sample.host "")
    (fun args => if String.eqb (nth 4 args "") "{{json .Config.Env}}"
                 then Ok Sample.baseEnvJSON else Err "exit status 1").

Lemma FROM_inspect_failures_witness :
  scanLine Sample.lib (Sample.host "") Sample.web "FROM scratch" port3000 = Done port3000
  /\ scanLine Sample.lib no_workdir Sample.web "FROM scratch" port3000
     = Fails "exit status 1".
Proof.
  apply (FROM_inspect_failures Sample.lib (Sample.host "") no_workdir Sample.web
           "FROM scratch" ["FROM"; "scratch"] ["PORT=8080"] port3000
           "exit status 1" "exit status 1" Sample.baseEnvJSON); reflexivity || (simpl; lia).
Defined.

(** White space and letter case beyond ASCII: a no-break space (U+00A0)
    separates fields as a space does, and a keyword spelled with a
    dotless i (U+0131) is the keyword. *)
Example scan_beyond_ASCII :
  let nbsp := String "194" (String "160" "") in
  let dotless_i := String "196" (String "177" "") in
  scanLine Sample.lib (Sample.host "") Sample.web ("ENV A" ++ nbsp ++ "B") in_srv
  = Done {| st_bs := []; st_env := {[ "A" := "B" ]}; st_wd := "/srv" |}
  /\ scanLine Sample.lib (Sample.host "") Sample.web ("COPY" ++ nbsp ++ "src /srv/src")
       in_srv
     = Done {| st_bs := [ {| Local := "src"; Remote := "/srv/src" |} ];
               st_env := ∅; st_wd := "/srv" |}
  /\ scanLine Sample.lib (Sample.host "") Sample.web ("workd" ++ dotless_i ++ "r /opt")
       in_srv
     = Done {| st_bs := []; st_env := ∅; st_wd := "/opt" |}
  /\ Strs.TrimSpace (nbsp ++ " /srv" ++ String "010" "" ++ nbsp) = "/srv".
Proof. repeat split; vm_compute; reflexivity. Qed.

(** X14. For a service with a prebuilt image, [buildSources] returns the
    empty list and no error, whatever the host; and where the root has
    no [.dockerignore], [watchChanges] then sends nothing and starts no
    watcher. *)
Theorem image_service_has_no_sources (lib : Lib) (h : Host)
    (open : string -> open_result) (readAll : string -> result (list string))
    (m : Manifest) (root service msg : string) (s : Service) :
  Manifest_Service m service = Ok s ->
  Image s <> "" ->
  open (Filepath.Join [root; ".dockerignore"]) = OpenNotExist msg ->
  buildSources lib h m root service = Done []
  /\ watchChanges lib h open readAll m service root = Some [].
Proof.
  intros Hs Himg Hopen.
  assert (Hb : buildSources lib h m root service = Done []).
  { unfold buildSources, buildDockerfile. rewrite Hs.
    apply String.eqb_neq in Himg. now rewrite Himg. }
  split; [exact Hb |].
  unfold watchChanges, buildIgnores. now rewrite Hb, Hopen.
Qed.

(** A manifest whose service [db] runs a prebuilt image. *)
Definition with_db : Manifest :=
  let db := {| Name := "db"; Image := "postgres:16"; Build_Path := "";
               Build_Manifest := "" |} in
  {| Services := [Sample.web; db];
     Manifest_Service := fun name =>
       if String.eqb name "web" then Ok Sample.web
       else if String.eqb name "db" then Ok db
       else Err ("no such service: " ++ name) |}.

Lemma image_service_has_no_sources_witness :
  buildSources Sample.lib (Sample.host "") with_db "/app" "db" = Done []
  /\ watchChanges Sample.lib (Sample.host "")
       (fun p => OpenNotExist ("open " ++ p ++ ": no such file or directory"))
       (fun _ => Ok []) with_db "db" "/app"
     = Some [].
Proof.
  apply (image_service_has_no_sources Sample.lib (Sample.host "")
           (fun p => OpenNotExist ("open " ++ p ++ ": no such file or directory"))
           (fun _ => Ok []) with_db "/app" "db"
           "open /app/.dockerignore: no such file or directory"
           {| Name := "db"; Image := "postgres:16"; Build_Path := "";
              Build_Manifest := "" |}).
  - reflexivity.
  - discriminate.
  - reflexivity.
Defined.

(** X15. For a service that is built, a Dockerfile that does not exist
    makes [buildSources] fail with [no such file:] and the path of the
    Dockerfile as the manifest gives it, relative to the root; and
    [watchChanges] then sends that error once, as a sync error, and
    starts no watcher. *)
Theorem missing_Dockerfile_is_reported (lib : Lib) (h : Host)
    (open : string -> open_result) (readAll : string -> result (list string))
    (m : Manifest) (root service path msg : string) (s : Service) :
  Manifest_Service m service = Ok s ->
  Image s = "" ->
  Filepath.Abs (os_Getwd h) (Filepath.Join [root; Build_Path s; Build_Manifest s])
  = Ok path ->
  os_Stat h path = StatNotExist msg ->
  buildSources lib h m root service
  = Fails ("no such file: " ++ Filepath.Join [Build_Path s; Build_Manifest s])
  /\ watchChanges lib h open readAll m service root
     = Some [Send ("sync error: no such file: "
                     ++ Filepath.Join [Build_Path s; Build_Manifest s])].
Proof.
  intros Hs Himg Habs Hstat.
  assert (Hb : buildSources lib h m root service
               = Fails ("no such file: "
                          ++ Filepath.Join [Build_Path s; Build_Manifest s])).
  { unfold buildSources, buildDockerfile. rewrite Hs, Himg. cbn [String.eqb negb].
    now rewrite Habs, Hstat. }
  split; [exact Hb |].
  unfold watchChanges. now rewrite Hb.
Qed.

(** A manifest whose service [web] is built from [Dockerfile.dev], which
    the sample project does not have. *)
Definition with_dev : Manifest :=
  let dev := {| Name := "web"; Image := ""; Build_Path := ".";
                Build_Manifest := "Dockerfile.dev" |} in
  {| Services := [dev]; Manifest_Service := fun _ => Ok dev |}.

Lemma missing_Dockerfile_is_reported_witness :
  buildSources Sample.lib (Sample.host "") with_dev "/app" "web"
  = Fails ("no such file: " ++ Filepath.Join ["."; "Dockerfile.dev"])
  /\ watchChanges Sample.lib (Sample.host "") (fun _ => Opened "") (fun _ => Ok [])
       with_dev "web" "/app"
     = Some [Send ("sync error: no such file: "
                     ++ Filepath.Join ["."; "Dockerfile.dev"])].
Proof.
  apply (missing_Dockerfile_is_reported Sample.lib (Sample.host "")
           (fun _ => Opened "") (fun _ => Ok []) with_dev "/app" "web"
           "/app/Dockerfile.dev" "stat /app/Dockerfile.dev: no such file or directory"
           {| Name := "web"; Image := ""; Build_Path := ".";
              Build_Manifest := "Dockerfile.dev" |}); reflexivity.
Defined.

(** ** Resolving the local paths *)

Section ResolveLocals.

Variables (h : Host) (wd : string).

Lemma HasSuffix_append (a suf : string) : Strs.HasSuffix (a ++ suf) suf = true.
Proof.
  unfold Strs.HasSuffix. induction a as [|c a IH].
  - change ("" ++ suf) with suf.
    destruct (String.length suf); cbn [Strs.HasSuffix_aux]; now rewrite String.eqb_refl.
  - change (String c a ++ suf) with (String c (a ++ suf)).
    cbn [String.length Strs.HasSuffix_aux].
    destruct (String.eqb (String c (a ++ suf)) suf); [reflexivity | exact IH].
Qed.

(** What the first loop makes of one entry, [abs] being its absolute
    path and [info] what [os.Stat] tells of it. *)
Definition resolved (b : buildSource) (abs : string) (info : FileInfo) : buildSource :=
  {| Local := if IsDir info && negb (Strs.HasSuffix abs "/") then abs ++ "/" else abs;
     Remote := if String.eqb (Remote b) "." then wd else Remote b |}.

Lemma resolveLocals_cons (b : buildSource) (bs out : list buildSource) :
  resolveLocals h wd (b :: bs) = Ok out ->
  exists abs info rest,
    Filepath.Abs (os_Getwd h) (Local b) = Ok abs
    /\ os_Stat h abs = StatOk info
    /\ resolveLocals h wd bs = Ok rest
    /\ out = resolved b abs info :: rest.
Proof.
  cbn [resolveLocals].
  destruct (Filepath.Abs (os_Getwd h) (Local b)) as [abs | e] eqn:Habs; [| discriminate].
  destruct (os_Stat h abs) as [info | e | e] eqn:Hstat; try discriminate.
  destruct (resolveLocals h wd bs) as [rest | e] eqn:Hrest; [| discriminate].
  intros [= <-]. exists abs, info, rest. repeat split; auto.
Qed.

End ResolveLocals.

(** X16. When the first loop of [buildSources] succeeds, it returns one
    entry for each entry, in the same order; the local path of each is
    the absolute path of the file, which exists, and ends in a separator
    when the file is a directory; the remote path is the working
    directory where it was [.], and is unchanged otherwise. *)
Theorem resolveLocals_resolves (h : Host) (wd : string) (bs out : list buildSource) :
  resolveLocals h wd bs = Ok out ->
  Forall2 (fun b o =>
             exists abs info,
               Filepath.Abs (os_Getwd h) (Local b) = Ok abs
               /\ os_Stat h abs = StatOk info
               /\ (Local o = abs \/ Local o = abs ++ "/")
               /\ (IsDir info = true -> Strs.HasSuffix (Local o) "/" = true)
               /\ (IsDir info = false -> Local o = abs)
               /\ Remote o = if String.eqb (Remote b) "." then wd else Remote b)
          bs out.
Proof.
  revert out. induction bs as [|b bs IH]; intros out Hr.
  - cbn in Hr. injection Hr as <-. constructor.
  - destruct (resolveLocals_cons h wd b bs out Hr)
      as (abs & info & rest & Habs & Hstat & Hrest & ->).
    constructor; [| now apply IH].
    exists abs, info. unfold resolved. cbn [Local Remote].
    split; [exact Habs |]. split; [exact Hstat |].
    destruct (IsDir info); cbn [andb].
    + destruct (Strs.HasSuffix abs "/") eqn:Hsuf; cbn [negb].
      * repeat split; auto; discriminate.
      * repeat split; auto; try discriminate. intros _. apply HasSuffix_append.
    + repeat split; auto; discriminate.
Qed.

Lemma resolveLocals_resolves_witness :
  Forall2 (fun b o =>
             exists abs info,
               Filepath.Abs (os_Getwd (Sample.host "")) (Local b) = Ok abs
               /\ os_Stat (Sample.host "") abs = StatOk info
               /\ (Local o = abs \/ Local o = abs ++ "/")
               /\ (IsDir info = true -> Strs.HasSuffix (Local o) "/" = true)
               /\ (IsDir info = false -> Local o = abs)
               /\ Remote o = if String.eqb (Remote b) "." then "/srv" else Remote b)
          [ {| Local := "src"; Remote := "." |};
            {| Local := "src/main.go"; Remote := "/srv/main.go" |} ]
          [ {| Local := "/app/src/"; Remote := "/srv" |};
            {| Local := "/app/src/main.go"; Remote := "/srv/main.go" |} ].
Proof.
  apply (resolveLocals_resolves (Sample.host "") "/srv"). reflexivity.
Defined.

(** X17. A source whose file does not exist makes the first loop, and
    with it [buildSources], fail. *)
Theorem resolveLocals_missing_source (h : Host) (wd : string)
    (bs : list buildSource) (b : buildSource) (abs msg : string) :
  In b bs ->
  Filepath.Abs (os_Getwd h) (Local b) = Ok abs ->
  os_Stat h abs = StatNotExist msg ->
  exists e, resolveLocals h wd bs = Err e.
Proof.
  intros Hin Habs Hstat. induction bs as [|x bs IH]; [destruct Hin |].
  cbn [resolveLocals].
  destruct (Filepath.Abs (os_Getwd h) (Local x)) as [xabs | e] eqn:Hx; [| now exists e].
  destruct (os_Stat h xabs) as [info | e | e] eqn:Hxs; try (now exists e).
  destruct Hin as [-> | Hin]; [congruence |].
  destruct (IH Hin) as [e He]. rewrite He. now exists e.
Qed.

Lemma resolveLocals_missing_source_witness :
  exists e, resolveLocals (Sample.host "") "/srv"
              [ {| Local := "src"; Remote := "." |};
                {| Local := "vendor"; Remote := "/srv/vendor" |} ]
            = Err e.
Proof.
  apply (resolveLocals_missing_source (Sample.host "") "/srv" _
           {| Local := "vendor"; Remote := "/srv/vendor" |} "/app/vendor"
           "stat /app/vendor: no such file or directory").
  - right. now left.
  - reflexivity.
  - reflexivity.
Defined.

(** ** More on polling, archiving and flushing *)

(** X18. When the provider fails to report the build, [waitForBuild]
    returns the provider's error at that poll, whatever the events that
    follow. *)
Theorem waitForBuild_provider_error (id release e : string) (sts : list string)
    (rest : list wait_event) :
  Forall in_progress sts ->
  waitForBuild (ticks id release sts ++ Tick (Err e) :: rest)
  = (Returns (Some e), S (length sts)).
Proof.
  intros Hsts. rewrite waitForBuild_in_progress by assumption.
  cbn [waitForBuild fst snd]. f_equal. lia.
Qed.

Lemma waitForBuild_provider_error_witness :
  waitForBuild (ticks "B1" "R1" ["created"; "running"]
                  ++ Tick (Err "connection refused") :: [CtxDone])
  = (Returns (Some "connection refused"), 3%nat).
Proof.
  apply (waitForBuild_provider_error "B1" "R1" "connection refused"
           ["created"; "running"] [CtxDone]).
  repeat (constructor; [unfold in_progress; auto |]). constructor.
Defined.



(** X21. A tick flushes, in the order of their arrival, the changes
    received since the last flush, all of them and no others; the loop
    then goes on with an empty batch, unless a [handleAdds] of the flush
    does not return: then the flush is the last thing the loop does. *)
Theorem tick_flushes_the_batch (lib : Lib) (app service : string) (bs : buildSource)
    (h : Host) (cs adds removes : list Change) (pss : list Process)
    (rest : list watch_event) :
  cs <> [] ->
  ProcessList h app service = Ok pss ->
  changes_Partition lib cs = (adds, removes) ->
  watchLoop lib app service bs (map WChange cs ++ WTick h :: rest)%list []
  = (flushed lib app service bs h adds removes pss
     ++ (if uploads_return app bs h adds pss
         then watchLoop lib app service bs rest [] else []))%list.
Proof.
  intros Hne Hps Hpart. rewrite watchLoop_changes, app_nil_l.
  now apply watchLoop_tick.
Qed.

Lemma tick_flushes_the_batch_witness :
  watchLoop Sample.lib "app" "web" src
    (map WChange [Sample.add "a.go"; Sample.remove "x.go"; Sample.add "b.go"]
       ++ WTick Sample.stalled :: [WTick (Sample.host "")])%list []
  = (flushed Sample.lib "app" "web" src Sample.stalled
       [Sample.add "a.go"; Sample.add "b.go"] [Sample.remove "x.go"]
       [ {| Process_Id := "web-1" |}; {| Process_Id := "web-2" |} ]
     ++ (if uploads_return "app" src Sample.stalled
              [Sample.add "a.go"; Sample.add "b.go"]
              [ {| Process_Id := "web-1" |}; {| Process_Id := "web-2" |} ]
         then watchLoop Sample.lib "app" "web" src [WTick (Sample.host "")] []
         else []))%list.
Proof.
  apply (tick_flushes_the_batch Sample.lib "app" "web" src Sample.stalled
           [Sample.add "a.go"; Sample.remove "x.go"; Sample.add "b.go"]);
    reflexivity || discriminate.
Defined.

(** What the loop writes at a tick on the sample host, where every
    upload reads the archive, and on the host where the uploads have
    stopped reading: there the lines of the adds for the first process
    are the last the loop writes. *)
Example flush_sample :
  watchLoop Sample.lib "app" "web" src
    [WChange (Sample.add "a.go"); WTick (Sample.host ""); WChange (Sample.remove "x.go")] []
  = [ Writef "convox"
        ("sync: <dir>a.go</dir> to <dir>/srv/src</dir> on <service>web</service>"
           ++ String "010" "");
      Writef "convox"
        ("sync: <dir>a.go</dir> to <dir>/srv/src</dir> on <service>web</service>"
           ++ String "010" "") ]
  /\ watchLoop Sample.lib "app" "web" src
       [WChange (Sample.add "a.go"); WTick Sample.stalled;
        WChange (Sample.add "b.go"); WTick (Sample.host "")] []
     = [ Writef "convox"
           ("sync: <dir>a.go</dir> to <dir>/srv/src</dir> on <service>web</service>"
              ++ String "010" "") ].
Proof. split; vm_compute; reflexivity. Qed.

(** X22. When the processes cannot be listed at a tick, the loop writes
    one [sync error] line and keeps the batch: the changes that arrive
    next are added to it, and the next tick at which the processes can
    be listed flushes them all; the loop then goes on with an empty
    batch, unless a [handleAdds] of that flush does not return. *)
Theorem failed_tick_keeps_the_batch (lib : Lib) (app service : string)
    (bs : buildSource) (h1 h2 : Host) (e : string)
    (chgs cs adds removes : list Change) (pss : list Process)
    (rest : list watch_event) :
  chgs <> [] ->
  ProcessList h1 app service = Err e ->
  ProcessList h2 app service = Ok pss ->
  changes_Partition lib (chgs ++ cs)%list = (adds, removes) ->
  watchLoop lib app service bs (WTick h1 :: map WChange cs ++ WTick h2 :: rest)%list chgs
  = Writef "convox" ("sync error: " ++ e ++ String "010" "")
    :: (flushed lib app service bs h2 adds removes pss
        ++ (if uploads_return app bs h2 adds pss
            then watchLoop lib app service bs rest [] else []))%list.
Proof.
  intros Hne H1 H2 Hpart. cbn [watchLoop].
  replace (length chgs =? 0)%nat with false
    by (symmetry; apply Nat.eqb_neq; intros Hlen; apply Hne;
        now apply List.length_zero_iff_nil).
  rewrite H1. f_equal. rewrite watchLoop_changes.
  apply watchLoop_tick; [| exact H2 | exact Hpart].
  destruct chgs; [congruence | discriminate].
Qed.

(** A host on which the processes cannot be listed. *)
Definition no_list : Host :=
  {| ProcessList := fun _ _ => Err "rack unreachable";
     ProcessExec_pwd := ProcessExec_pwd (Sample.host "");
     FilesUpload := FilesUpload (Sample.host "");
     FilesDelete := FilesDelete (Sample.host "");
     os_Getwd := os_Getwd (Sample.host "");
     os_Stat := os_Stat (Sample.host "");
     os_ReadFile := os_ReadFile (Sample.host "");
     os_Open := os_Open (Sample.host "");
     tar_WriteHeader := tar_WriteHeader (Sample.host "");
     io_Copy := io_Copy (Sample.host "");
     tar_Close := tar_Close (Sample.host "");
     pipe_Close := pipe_Close (Sample.host "");
     Exec_Execute := Exec_Execute (Sample.host "");
     map_range := map_range (Sample.host "") |}.

Lemma failed_tick_keeps_the_batch_witness :
  watchLoop Sample.lib "app" "web" src
    (WTick no_list :: map WChange [Sample.add "b.go"]
       ++ WTick (Sample.host "") :: [])%list [Sample.add "a.go"]
  = Writef "convox" ("sync error: " ++ "rack unreachable" ++ String "010" "")
    :: (flushed Sample.lib "app" "web" src (Sample.host "")
          [Sample.add "a.go"; Sample.add "b.go"] []
          [ {| Process_Id := "web-1" |}; {| Process_Id := "web-2" |} ]
        ++ (if uploads_return "app" src (Sample.host "")
                 [Sample.add "a.go"; Sample.add "b.go"]
                 [ {| Process_Id := "web-1" |}; {| Process_Id := "web-2" |} ]
            then watchLoop Sample.lib "app" "web" src [] [] else []))%list.
Proof.
  apply (failed_tick_keeps_the_batch Sample.lib "app" "web" src no_list (Sample.host "")
           "rack unreachable" [Sample.add "a.go"] [Sample.add "b.go"]);
    reflexivity || discriminate.
Defined.

(** X23. Once the cancellation signal is received the loop of
    [watchPath] does nothing more: the batch it holds is dropped without
    a flush, and the events that follow have no effect. *)
Theorem cancelled_watch_stops (lib : Lib) (app service : string) (bs : buildSource)
    (before after : list watch_event) (chgs : list Change) :
  watchLoop lib app service bs (before ++ WDone :: after)%list chgs
  = watchLoop lib app service bs before chgs
  /\ watchLoop lib app service bs (WDone :: after) chgs = [].
Proof.
  split; [| reflexivity].
  revert chgs. induction before as [|ev before IH]; intros chgs; [reflexivity |].
  destruct ev as [| c | h]; cbn [List.app watchLoop]; [reflexivity | apply IH |].
  destruct (length chgs =? 0)%nat; [apply IH |].
  destruct (ProcessList h app service) as [pss | e]; [| now rewrite IH].
  destruct (changes_Partition lib chgs) as [adds removes].
  destruct (syncProcesses lib h app service bs adds removes pss) as [tr [|]];
    [now rewrite IH | reflexivity].
Qed.

(** X24. [watchPath] uses the error channel for the errors of its
    set-up only: either it sends one error and does nothing else, or it
    sends nothing at all, whatever the events. *)
Theorem watchPath_sends_at_most_once (lib : Lib) (h : Host) (app service : string)
    (bs : buildSource) (evs : list watch_event) :
  (exists e, watchPath lib h app service bs evs = [Send ("sync error: " ++ e)])
  \/ List.filter isSend (watchPath lib h app service bs evs) = [].
Proof.
  unfold watchPath.
  destruct (Filepath.Abs (os_Getwd h) (Local bs)) as [abs | e]; [| left; now exists e].
  destruct (os_Getwd h) as [wd | e]; [| left; now exists e].
  destruct (filepath_Rel lib wd (Local bs)) as [rel | e]; [| left; now exists e].
  right. cbn [List.filter isSend]. apply watchLoop_no_send.
Qed.

(** ** The error aggregator and the logs *)

(** The line that [handleErrors] writes for an error. *)
Definition errorLine (e : string) : effect :=
  Writef "convox" ("<error>error: " ++ e ++ "</error>" ++ String "010" "").

(** X25. Until the cancellation signal, [handleErrors] writes one line
    for each error it receives, in the order received, and nothing for
    the nil values; what arrives after the signal is not written. *)
Theorem handleErrors_reports_each_error (errs : list error) (rest : list errch_event) :
  handleErrors (map ERecv errs ++ EDone :: rest)%list
  = map errorLine (omap (fun e => e) errs)
  /\ handleErrors (map ERecv errs) = map errorLine (omap (fun e => e) errs).
Proof.
  split; induction errs as [|[e |] errs IH]; cbn [map List.app handleErrors omap list_omap];
    try reflexivity; try exact IH; now rewrite IH.
Qed.

Section LogKeys.

Variable services : gmap string bool.

(** A line written under the key of a service of the interest set. *)
Definition routed (e : effect) : Prop :=
  exists key text, e = Writef key text /\ wanted services key = true.

(** The line written when the scan of the stream fails. *)
Definition scanError (e : effect) : Prop :=
  exists msg, e = Writef "convox" ("scan error: " ++ msg ++ String "010" "").

Lemma writeLine_routed (line : string) :
  (length (writeLine services line) <= 1)%nat
  /\ Forall routed (writeLine services line).
Proof.
  unfold writeLine.
  destruct (Regexp.FindStringSubmatch reAppLog 6 line) as [m |];
    [| split; [simpl; lia | constructor]].
  destruct (negb (length m =? 7)%nat); [split; [simpl; lia | constructor] |].
  destruct (String.eqb (nth 3 m "") "service").
  - destruct (wanted services (nth 4 m "")) eqn:Hw; cbn [negb];
      [| split; [simpl; lia | constructor]].
    split; [simpl; lia |]. constructor; [| constructor].
    now exists (nth 4 m ""), (stripANSIScreenCommands (nth 6 m "") ++ String "010" "").
  - destruct (String.eqb (nth 3 m "") "system"); [| split; [simpl; lia | constructor]].
    destruct (wanted services (Strs.Split_first (nth 5 m "") "-")) eqn:Hw; cbn [negb];
      [| split; [simpl; lia | constructor]].
    split; [simpl; lia |]. constructor; [| constructor].
    now exists (Strs.Split_first (nth 5 m "") "-"), (nth 6 m "" ++ String "010" "").
Qed.

Lemma writeLines_routed (cancelled : nat -> bool) (lines : list string) (i : nat) :
  (length (fst (writeLines cancelled services i lines)) <= length lines)%nat
  /\ Forall routed (fst (writeLines cancelled services i lines)).
Proof.
  revert i. induction lines as [|line lines IH]; intros i.
  - split; [simpl; lia | constructor].
  - rewrite writeLines_cons. destruct (cancelled i); [split; [simpl; lia | constructor] |].
    destruct (IH (S i)) as [Hlen Hall]. destruct (writeLine_routed line) as [Hl1 Hr1].
    split.
    + rewrite length_app. simpl. lia.
    + apply Forall_app. now split.
Qed.

Lemma writeLogs_routed (cancelled : nat -> bool) (data : string) (rerr : error) :
  Forall (fun e => routed e \/ scanError e) (writeLogs cancelled services data rerr).
Proof.
  unfold writeLogs.
  destruct (Bufio.ScanLines ScannerMaxSize data) as [lines long].
  pose proof (writeLines_routed cancelled lines 0) as [_ Hall].
  destruct (writeLines cancelled services 0 lines) as [out fin]. cbn [fst] in Hall.
  assert (Hout : Forall (fun e => routed e \/ scanError e) out).
  { eapply Forall_impl; [exact Hall |]. intros e He. now left. }
  destruct fin; [| exact Hout].
  apply Forall_app. split; [exact Hout |].
  assert (Hrep : forall e : error,
             Forall (fun e => routed e \/ scanError e) (reportError "scan error: " e)).
  { intros [msg |]; cbn [reportError]; [| constructor].
    constructor; [| constructor]. right. now exists msg. }
  apply Hrep.
Qed.

End LogKeys.

(** X27. [writeLogs] writes at most one line for each line of the
    stream, and every line it writes goes under the key of a service of
    the interest set, but for the line that reports a failed scan. *)
Theorem writeLogs_routes_to_wanted (services : gmap string bool)
    (cancelled : nat -> bool) (data : string) (rerr : error) (lines : list string) :
  Forall (fun e => routed services e \/ scanError e)
    (writeLogs cancelled services data rerr)
  /\ Forall (routed services) (fst (writeLines cancelled services 0 lines))
  /\ (length (fst (writeLines cancelled services 0 lines)) <= length lines)%nat.
Proof.
  split; [apply writeLogs_routed |].
  destruct (writeLines_routed services cancelled lines 0) as [Hlen Hall]. now split.
Qed.

(** X28. [streamLogs] writes nothing for the turns in which the logs
    cannot be fetched, and writes only under the keys of the services
    of the interest set, but for the lines that report a failed scan. *)
Theorem streamLogs_routes_to_wanted (services : gmap string bool)
    (rounds failing : list log_round) :
  Forall (fun r => is_err (AppLogs r) = true) failing ->
  streamLogs services failing = []
  /\ Forall (fun e => routed services e \/ scanError e) (streamLogs services rounds).
Proof.
  intros Hfail. split.
  - induction Hfail as [|r failing Hr _ IH]; [reflexivity |].
    cbn [streamLogs]. destruct (done_before r); [reflexivity |].
    destruct (AppLogs r) as [[[? ?] ?] | e]; [discriminate Hr |].
    cbn [List.app]. destruct (done_after r); [reflexivity | exact IH].
  - induction rounds as [|r rounds IH]; [constructor |].
    cbn [streamLogs]. destruct (done_before r); [constructor |].
    apply Forall_app. split.
    + destruct (AppLogs r) as [[[data rerr] cancelled] | e]; [| constructor].
      apply writeLogs_routed.
    + destruct (done_after r); [constructor | exact IH].
Qed.

Lemma streamLogs_routes_to_wanted_witness :
  let down := {| done_before := false; AppLogs := Err "rack unreachable";
                 done_after := false |} in
  let up := {| done_before := false;
               AppLogs := Ok (hello ++ String "010" "", None, never);
               done_after := true |} in
  streamLogs only_web [down; down] = []
  /\ Forall (fun e => routed only_web e \/ scanError e) (streamLogs only_web [down; up]).
Proof.
  intros down up.
  apply (streamLogs_routes_to_wanted only_web [down; up] [down; down]).
  repeat constructor.
Defined.

(** ** Well-formed log lines *)

Section Parse.

Fixpoint all_bytes (p : ascii -> bool) (s : string) : bool :=
  match s with
  | EmptyString => true
  | String c s' => p c && all_bytes p s'
  end.

Definition isDigit (c : ascii) : bool :=
  let n := nat_of_ascii c in ((48 <=? n) && (n <=? 57))%nat.

Definition digits (n : nat) (s : string) : Prop :=
  String.length s = n /\ all_bytes isDigit s = true.

Definition field (sep : ascii) (s : string) : Prop :=
  s <> "" /\ all_bytes (fun d => negb (Ascii.eqb sep d)) s = true.

Definition star_iter {R : Type} (r1 : Regexp.regex)
    (k : nat -> string -> list string -> option R)
  : nat -> nat -> string -> list string -> option R :=
  fix iter (fuel : nat) (pos : nat) (s : string) (caps : list string) {struct fuel} :=
    match fuel with
    | O => k pos s caps
    | S f =>
        match Regexp.run r1 pos s caps
                (fun pos' s' caps' =>
                   if (pos <? pos')%nat then iter f pos' s' caps' else None)
        with
        | Some x => Some x
        | None => k pos s caps
        end
    end.

Lemma length_append (a b : string) : String.length (a ++ b) = (String.length a + String.length b)%nat.
Proof. induction a as [|c a IH]; [reflexivity |]. change (String c a ++ b) with (String c (a ++ b)). cbn [String.length]. now rewrite IH. Qed.

Lemma star_class {R} (p : ascii -> bool) (k : nat -> string -> list string -> option R)
    (a b : string) (x : R) :
  all_bytes p a = true ->
  match b with EmptyString => true | String c _ => negb (p c) end = true ->
  forall fuel pos caps,
    (String.length a <= fuel)%nat ->
    k (pos + String.length a)%nat b caps = Some x ->
    star_iter (Regexp.Byte p) k fuel pos (a ++ b) caps = Some x.
Proof.
  intros Ha Hb. induction a as [|c a IH]; intros fuel pos caps Hf Hk.
  - change ("" ++ b) with b. cbn [String.length] in Hk. rewrite Nat.add_0_r in Hk.
    destruct fuel as [|f]; cbn [star_iter]; [exact Hk |].
    destruct b as [|c b]; cbn [Regexp.run]; [exact Hk |].
    apply negb_true_iff in Hb. now rewrite Hb.
  - cbn [all_bytes] in Ha. apply andb_true_iff in Ha as [Hc Ha].
    change (String c a ++ b) with (String c (a ++ b)).
    destruct fuel as [|f]; [cbn in Hf; lia |].
    cbn [star_iter Regexp.run]. rewrite Hc.
    replace (pos <? S pos)%nat with true by (symmetry; apply Nat.ltb_lt; lia).
    fold (@star_iter R (Regexp.Byte p) k).
    rewrite (IH Ha f (S pos) caps); [reflexivity | cbn in Hf; lia |].
    cbn [String.length] in Hk. now replace (S pos + String.length a)%nat with (pos + S (String.length a))%nat by lia.
Qed.


Lemma append_assoc (a b c : string) : (a ++ b) ++ c = a ++ (b ++ c).
Proof.
  induction a as [|x a IH]; [reflexivity |].
  change (String x (a ++ b) ++ c = String x (a ++ (b ++ c))).
  change (String x ((a ++ b) ++ c) = String x (a ++ (b ++ c))). now rewrite IH.
Qed.

Lemma substring_append (a b : string) :
  String.substring 0 (String.length a) (a ++ b) = a.
Proof.
  induction a as [|x a IH]; [now destruct b |].
  change (String x a ++ b) with (String x (a ++ b)).
  cbn [String.length String.substring]. now rewrite IH.
Qed.

Lemma append_empty (a : string) : a ++ "" = a.
Proof.
  induction a as [|c a IH]; [reflexivity |].
  change (String c (a ++ "") = String c a). now rewrite IH.
Qed.

Lemma substring_all (a : string) : String.substring 0 (String.length a) a = a.
Proof. pose proof (substring_append a "") as H. now rewrite append_empty in H. Qed.

Lemma run_lit {R} (c : ascii) pos s caps (k : nat -> string -> list string -> option R) :
  Regexp.run (Regexp.lit c) pos (String c s) caps k = k (S pos) s caps.
Proof. cbn [Regexp.run Regexp.lit]. now rewrite Ascii.eqb_refl. Qed.

Lemma run_digits {R} (n : nat) (a : string) :
  digits n a ->
  forall pos s caps (k : nat -> string -> list string -> option R),
    Regexp.run (Regexp.Rep n Regexp.digit) pos (a ++ s) caps k = k (pos + n)%nat s caps.
Proof.
  intros [Hn Ha]. revert a Hn Ha. induction n as [|n IH]; intros a Hn Ha pos s caps k.
  - destruct a; [| discriminate]. change ("" ++ s) with s.
    cbn [Regexp.Rep Regexp.run]. now rewrite Nat.add_0_r.
  - destruct a as [|c a]; [discriminate |].
    cbn [all_bytes] in Ha. apply andb_true_iff in Ha as [Hc Ha].
    change (String c a ++ s) with (String c (a ++ s)).
    cbn [Regexp.Rep Regexp.run Regexp.digit]. unfold isDigit in Hc. cbv zeta in Hc |- *. rewrite Hc.
    fold Regexp.digit.
    rewrite IH; [| now injection Hn | exact Ha].
    f_equal. lia.
Qed.

(** A field [[^sep]+] in group [i], followed by the separator. *)
Lemma run_field {R} (i : nat) (sep : ascii) (rest : Regexp.regex)
    (a s : string) (x : R) pos caps (k : nat -> string -> list string -> option R) :
  field sep a ->
  Regexp.run rest (pos + String.length a + 1)%nat s (<[i := a]> caps) k = Some x ->
  Regexp.run
    (Regexp.Seq (Regexp.Group i (Regexp.Plus (Regexp.non sep)))
       (Regexp.Seq (Regexp.lit sep) rest))
    pos (a ++ String sep s) caps k = Some x.
Proof.
  intros [Hne Ha] Hk. destruct a as [|c a]; [congruence |].
  cbn [all_bytes] in Ha. apply andb_true_iff in Ha as [Hc Ha].
  change (String c a ++ String sep s) with (String c (a ++ String sep s)).
  unfold Regexp.Plus, Regexp.non.
  cbn [Regexp.run]. rewrite Hc.
  change (star_iter (Regexp.Byte (fun d => negb (Ascii.eqb sep d)))
            (fun pos' s' caps' =>
               Regexp.run (Regexp.Seq (Regexp.lit sep) rest) pos' s'
                 (<[i := String.substring 0 (pos' - pos) (String c (a ++ String sep s))]> caps') k)
            (String.length (a ++ String sep s)) (S pos) (a ++ String sep s) caps = Some x).
  apply star_class; [exact Ha | | rewrite length_append; lia |].
  - now rewrite Ascii.eqb_refl.
  - cbn [Regexp.run]. fold (Regexp.lit sep). rewrite run_lit.
    replace (S pos + String.length a - pos)%nat with (String.length (String c a)) by (cbn [String.length]; lia).
    change (String c (a ++ String sep s)) with (String c a ++ String sep s).
    rewrite substring_append.
    cbn [String.length] in Hk.
    now replace (S (S pos + String.length a)) with (pos + S (String.length a) + 1)%nat by lia.
Qed.


Definition triple (sep : ascii) (a b c : string) : string :=
  a ++ String sep (b ++ String sep c).

Definition oneLine (msg : string) : Prop :=
  all_bytes (fun d => negb (Ascii.eqb "010" d)) msg = true.

Definition logLine (date time kind name inst msg : string) : string :=
  date ++ String "T" (time ++ String "Z" (String " "
    (kind ++ String "/" (name ++ String "/" (inst ++ String " " msg))))).

Lemma triple_append (sep : ascii) (a b c s : string) :
  triple sep a b c ++ s = a ++ String sep (b ++ String sep (c ++ s)).
Proof.
  unfold triple. rewrite append_assoc.
  change (String sep (b ++ String sep c) ++ s) with (String sep ((b ++ String sep c) ++ s)).
  now rewrite append_assoc.
Qed.

Lemma run_bot {R} rest s caps (k : nat -> string -> list string -> option R) :
  Regexp.run (Regexp.Seq Regexp.Bot rest) 0 s caps k = Regexp.run rest 0 s caps k.
Proof. reflexivity. Qed.

Lemma run_lit_seq {R} (c : ascii) rest pos s caps
    (k : nat -> string -> list string -> option R) :
  Regexp.run (Regexp.Seq (Regexp.lit c) rest) pos (String c s) caps k
  = Regexp.run rest (S pos) s caps k.
Proof. cbn [Regexp.run Regexp.lit]. now rewrite Ascii.eqb_refl. Qed.

Lemma run_triple {R} (i n1 n2 n3 : nat) (sep : ascii) (a b c : string) rest pos s caps
    (k : nat -> string -> list string -> option R) :
  digits n1 a -> digits n2 b -> digits n3 c ->
  Regexp.run
    (Regexp.Seq
       (Regexp.Group i
          (Regexp.Seq (Regexp.Rep n1 Regexp.digit)
             (Regexp.Seq (Regexp.lit sep)
                (Regexp.Seq (Regexp.Rep n2 Regexp.digit)
                   (Regexp.Seq (Regexp.lit sep)
                      (Regexp.Seq (Regexp.Rep n3 Regexp.digit) Regexp.Empty))))))
       rest)
    pos (triple sep a b c ++ s) caps k
  = Regexp.run rest (pos + String.length (triple sep a b c))%nat s
      (<[i := triple sep a b c]> caps) k.
Proof.
  intros Ha Hb Hc.
  assert (Hlen : String.length (triple sep a b c) = (n1 + 1 + n2 + 1 + n3)%nat).
  { unfold triple. destruct Ha as [<- _], Hb as [<- _], Hc as [<- _].
    rewrite length_append. cbn [String.length]. rewrite length_append.
    cbn [String.length]. lia. }
  set (t := triple sep a b c) in *.
  cbn [Regexp.run].
  replace (t ++ s) with (a ++ String sep (b ++ String sep (c ++ s))) at 1
    by (symmetry; apply triple_append).
  rewrite (run_digits n1 a Ha).
  fold (Regexp.lit sep). rewrite run_lit.
  rewrite (run_digits n2 b Hb). rewrite run_lit.
  rewrite (run_digits n3 c Hc).
  replace (S (S (pos + n1) + n2) + n3 - pos)%nat with (String.length t) by lia.
  rewrite substring_append.
  f_equal. lia.
Qed.

Lemma run_tail {R} (i : nat) (msg : string) (x : R) pos caps
    (k : nat -> string -> list string -> option R) :
  oneLine msg ->
  k (pos + String.length msg)%nat "" (<[i := msg]> caps) = Some x ->
  Regexp.run
    (Regexp.Seq (Regexp.Group i (Regexp.Star Regexp.dot))
       (Regexp.Seq Regexp.Eot Regexp.Empty))
    pos msg caps k = Some x.
Proof.
  intros Hmsg Hk. unfold Regexp.dot, Regexp.non. cbn [Regexp.run].
  change (star_iter (Regexp.Byte (fun d => negb (Ascii.eqb "010" d)))
            (fun pos' s' caps' =>
               match s' with
               | "" => k pos' s' (<[i := String.substring 0 (pos' - pos) msg]> caps')
               | String _ _ => None
               end)
            (String.length msg) pos msg caps = Some x).
  match goal with
  | |- star_iter ?r ?K _ _ _ _ = _ =>
      pose proof (star_class (fun d => negb (Ascii.eqb "010" d)) K msg "" x
                    Hmsg eq_refl (String.length msg) pos caps (le_n _)) as H
  end.
  rewrite append_empty in H. apply H.
  replace (pos + String.length msg - pos)%nat with (String.length msg) by lia.
  now rewrite substring_all.
Qed.

Lemma find_from_eq (r : Regexp.regex) (n pos : nat) (s : string) :
  Regexp.find_from r n pos s
  = match Regexp.match_at r n pos s with
    | Some (pos', caps) => Some (<[0%nat := String.substring 0 (pos' - pos) s]> caps)
    | None =>
        match s with
        | String _ s' => Regexp.find_from r n (S pos) s'
        | EmptyString => None
        end
    end.
Proof. destruct s; reflexivity. Qed.

Lemma reAppLog_parses (y mo d hh mi ss kind name inst msg : string) :
  digits 4 y -> digits 2 mo -> digits 2 d ->
  digits 2 hh -> digits 2 mi -> digits 2 ss ->
  field "/" kind -> field "/" name -> field " " inst -> oneLine msg ->
  let date := triple "-" y mo d in
  let time := triple ":" hh mi ss in
  let line := logLine date time kind name inst msg in
  Regexp.FindStringSubmatch reAppLog 6 line
  = Some [line; date; time; kind; name; inst; msg].
Proof.
  intros Hy Hmo Hd Hhh Hmi Hss Hkind Hname Hinst Hmsg date time line.
  unfold Regexp.FindStringSubmatch. rewrite find_from_eq.
  assert (E : Regexp.match_at reAppLog 6 0 line
              = Some (String.length line, ["" ; date; time; kind; name; inst; msg])).
  { unfold Regexp.match_at, reAppLog. cbn [fold_right replicate].
    unfold line at 1, logLine.
    rewrite run_bot.
    rewrite (run_triple 1 4 2 2 "-" y mo d) by assumption. fold date.
    rewrite run_lit_seq.
    rewrite (run_triple 2 2 2 2 ":" hh mi ss) by assumption. fold time.
    rewrite !run_lit_seq.
    apply run_field; [exact Hkind |].
    apply run_field; [exact Hname |].
    apply run_field; [exact Hinst |].
    apply run_tail; [exact Hmsg |].
    f_equal. f_equal.
    unfold line, logLine. clearbody date time.
    repeat (rewrite length_append; cbn [String.length]). lia. }
  rewrite E. rewrite Nat.sub_0_r.
  now rewrite substring_all.
Qed.

End Parse.

(** X20. A line made of a date [dddd-dd-dd], [T], a time [dd:dd:dd],
    [Z], a space, [kind/name/instance], a space and a message is taken
    apart into exactly these fields, when kind and name are not empty
    and hold no [/], the instance is not empty and holds no space, and
    the message holds no newline.  The line of a service is then written
    under the name, the message stripped of its screen sequences, and
    the line of the system under the part of the instance before its
    first [-], the message as it is, each only when the key is in the
    interest set; a line of any other kind is not written. *)
Theorem well_formed_line_is_written (services : gmap string bool)
    (y mo d hh mi ss kind name inst msg : string) :
  digits 4 y -> digits 2 mo -> digits 2 d ->
  digits 2 hh -> digits 2 mi -> digits 2 ss ->
  field "/" kind -> field "/" name -> field " " inst -> oneLine msg ->
  let date := triple "-" y mo d in
  let time := triple ":" hh mi ss in
  let line := logLine date time kind name inst msg in
  Regexp.FindStringSubmatch reAppLog 6 line
  = Some [line; date; time; kind; name; inst; msg]
  /\ writeLine services line
     = if String.eqb kind "service" then
         if wanted services name
         then [Writef name (stripANSIScreenCommands msg ++ String "010" "")]
         else []
       else if String.eqb kind "system" then
         if wanted services (Strs.Split_first inst "-")
         then [Writef (Strs.Split_first inst "-") (msg ++ String "010" "")]
         else []
       else [].
Proof.
  intros Hy Hmo Hd Hhh Hmi Hss Hkind Hname Hinst Hmsg date time line.
  pose proof (reAppLog_parses y mo d hh mi ss kind name inst msg
                Hy Hmo Hd Hhh Hmi Hss Hkind Hname Hinst Hmsg) as E.
  cbv zeta in E. fold date time line in E.
  split; [exact E |].
  unfold writeLine. rewrite E. cbn [length Nat.eqb negb nth].
  destruct (String.eqb kind "service").
  - now destruct (wanted services name).
  - destruct (String.eqb kind "system"); [| reflexivity].
    now destruct (wanted services (Strs.Split_first inst "-")).
Qed.

Lemma well_formed_line_is_written_witness :
  let line := "2024-01-01T00:00:00Z service/web/i-1/0 GET /health 200" in
  Regexp.FindStringSubmatch reAppLog 6 line
  = Some [line; "2024-01-01"; "00:00:00"; "service"; "web"; "i-1/0"; "GET /health 200"]
  /\ writeLine only_web line
     = [Writef "web" (stripANSIScreenCommands "GET /health 200" ++ String "010" "")].
Proof.
  apply (well_formed_line_is_written only_web "2024" "01" "01" "00" "00" "00"
           "service" "web" "i-1/0" "GET /health 200");
    first [reflexivity | split; reflexivity | split; [discriminate | reflexivity]].
Defined.

(** ** Screen sequences *)

Section Strip.

(** No byte of [s] is the escape byte. *)
Fixpoint no_escape (s : string) : bool :=
  match s with
  | EmptyString => true
  | String c s' => negb (Ascii.eqb "027" c) && no_escape s'
  end.

(** A decimal number: one digit or more. *)
Definition number (s : string) : Prop := s <> "" /\ all_bytes isDigit s = true.

(** The sequence that places the cursor at a row and a column. *)
Definition cursorTo (row col : string) : string :=
  String "027" (String "[" (row ++ String ";" (col ++ String "H" ""))).

(** The bytes of a string. *)
Definition bytes (s : string) : list ascii := list_ascii_of_string s.

(** One number and the byte [sep] after it, [sep] being no digit. *)
Lemma run_number {R} (sep : ascii) (rest : Regexp.regex)
    (a s : string) (x : R) pos caps (k : nat -> string -> list string -> option R) :
  number a -> isDigit sep = false ->
  Regexp.run rest (pos + String.length a + 1)%nat s caps k = Some x ->
  Regexp.run
    (Regexp.Seq (Regexp.Plus Regexp.digit) (Regexp.Seq (Regexp.lit sep) rest))
    pos (a ++ String sep s) caps k = Some x.
Proof.
  intros [Hne Ha] Hsep Hk. destruct a as [|c a]; [congruence |].
  cbn [all_bytes] in Ha. apply andb_true_iff in Ha as [Hc Ha].
  change (String c a ++ String sep s) with (String c (a ++ String sep s)).
  change Regexp.digit with (Regexp.Byte isDigit).
  unfold Regexp.Plus. cbn [Regexp.run]. rewrite Hc.
  change (star_iter (Regexp.Byte isDigit)
            (fun pos' s' caps' =>
               Regexp.run (Regexp.Seq (Regexp.lit sep) rest) pos' s' caps' k)
            (String.length (a ++ String sep s)) (S pos) (a ++ String sep s) caps = Some x).
  apply star_class; [exact Ha | now rewrite Hsep | rewrite length_append; lia |].
  rewrite run_lit_seq. cbn [String.length] in Hk.
  now replace (S (S pos + String.length a)) with (pos + S (String.length a) + 1)%nat by lia.
Qed.

(** The pattern matches a cursor sequence, and all of it. *)
Lemma match_cursorTo (r : Regexp.regex) (row col s : string) (pos : nat) :
  In r ansiScreenSequences -> number row -> number col ->
  Regexp.match_at r 0 pos (cursorTo row col ++ s)
  = Some ((pos + String.length (cursorTo row col))%nat, [""]).
Proof.
  intros [<- | []] Hrow Hcol. unfold Regexp.match_at, cursorTo.
  cbn [fold_right replicate].
  change (String "027" (String "[" (row ++ String ";" (col ++ String "H" ""))) ++ s)
    with (String "027" (String "[" ((row ++ String ";" (col ++ String "H" "")) ++ s))).
  rewrite append_assoc.
  change (String ";" (col ++ String "H" "") ++ s)
    with (String ";" ((col ++ String "H" "") ++ s)).
  rewrite append_assoc. change (String "H" "" ++ s) with (String "H" s).
  rewrite !run_lit_seq.
  apply run_number; [exact Hrow | reflexivity |].
  apply run_number; [exact Hcol | reflexivity |].
  cbn [Regexp.run]. f_equal. f_equal.
  cbn [String.length]. repeat (rewrite length_append; cbn [String.length]). lia.
Qed.

(** The pattern matches nowhere but at an escape byte. *)
Lemma match_escape (r : Regexp.regex) (pos : nat) (s : string) :
  In r ansiScreenSequences ->
  match s with String c _ => Ascii.eqb "027" c | EmptyString => false end = false ->
  Regexp.match_at r 0 pos s = None.
Proof.
  intros [<- | []] Hs. unfold Regexp.match_at.
  cbn [fold_right Regexp.run Regexp.lit].
  destruct s as [|c s]; [reflexivity | now rewrite Hs].
Qed.

(** The scan leaves a text without escape byte as it is and goes on
    behind it. *)
Lemma replace_plain (r : Regexp.regex) (a s : string) (pos : nat) :
  In r ansiScreenSequences -> no_escape a = true ->
  Regexp.replace_from r "" pos 0 (a ++ s)
  = a ++ Regexp.replace_from r "" (pos + String.length a) 0 s.
Proof.
  intros Hr Ha. revert pos. induction a as [|c a IH]; intros pos.
  - change ("" ++ s) with s. cbn [String.length]. now rewrite Nat.add_0_r.
  - cbn [no_escape] in Ha. apply andb_true_iff in Ha as [Hc Ha].
    apply negb_true_iff in Hc.
    change (String c a ++ s) with (String c (a ++ s)).
    cbn [Regexp.replace_from].
    rewrite (match_escape r pos (String c (a ++ s)) Hr Hc).
    rewrite (IH Ha (S pos)). cbn [String.length].
    now replace (S pos + String.length a)%nat with (pos + S (String.length a))%nat by lia.
Qed.

Lemma replace_keeps (r : Regexp.regex) (s : string) (pos : nat) :
  In r ansiScreenSequences -> no_escape s = true ->
  Regexp.replace_from r "" pos 0 s = s.
Proof.
  intros Hr. revert pos. induction s as [|c s IH]; intros pos Hs.
  - cbn [Regexp.replace_from]. now rewrite (match_escape r pos "" Hr).
  - cbn [no_escape] in Hs. apply andb_true_iff in Hs as [Hc Hs].
    apply negb_true_iff in Hc.
    cbn [Regexp.replace_from]. rewrite (match_escape r pos (String c s) Hr Hc).
    now rewrite IH.
Qed.

(** The scan passes over the bytes of a match. *)
Lemma replace_skip (r : Regexp.regex) (repl x s : string) (pos : nat) :
  Regexp.replace_from r repl pos (String.length x) (x ++ s)
  = Regexp.replace_from r repl (pos + String.length x) 0 s.
Proof.
  revert pos. induction x as [|c x IH]; intros pos.
  - change ("" ++ s) with s. cbn [String.length]. now rewrite Nat.add_0_r.
  - change (String c x ++ s) with (String c (x ++ s)).
    cbn [String.length Regexp.replace_from]. rewrite IH. f_equal. lia.
Qed.

(** What the scan returns is what it was given with bytes taken
    away. *)
Lemma replace_sublist (r : Regexp.regex) (s : string) :
  forall pos skip, sublist (bytes (Regexp.replace_from r "" pos skip s)) (bytes s).
Proof.
  unfold bytes.
  induction s as [|c s IH]; intros pos skip.
  - destruct skip; cbn [Regexp.replace_from]; [| constructor].
    destruct (Regexp.match_at r 0 pos "") as [[? ?] |]; constructor.
  - destruct skip as [|k]; cbn [Regexp.replace_from list_ascii_of_string].
    + destruct (Regexp.match_at r 0 pos (String c s)) as [[pos' ?] |].
      * destruct (pos <? pos')%nat.
        -- change ("" ++ ?x) with x. apply sublist_cons, IH.
        -- change ("" ++ ?x) with x. cbn [list_ascii_of_string].
           apply sublist_skip, IH.
      * cbn [list_ascii_of_string]. apply sublist_skip, IH.
    + apply sublist_cons, IH.
Qed.

End Strip.

(** X26. [stripANSIScreenCommands] only takes bytes away: what it
    returns is the text it was given with some of the bytes left out;
    it returns a text without the escape byte as it is; and it takes a
    cursor sequence, the escape byte, [[], a row, [;], a column and [H],
    out of the text that surrounds it. *)
Theorem stripANSI_keeps_plain_text (data plain_text before after row col : string) :
  no_escape plain_text = true ->
  no_escape before = true ->
  no_escape after = true ->
  number row ->
  number col ->
  stripANSIScreenCommands plain_text = plain_text
  /\ sublist (bytes (stripANSIScreenCommands data)) (bytes data)
  /\ stripANSIScreenCommands (before ++ cursorTo row col ++ after) = before ++ after.
Proof.
  intros Hp Hb Ha Hrow Hcol.
  pose (r := nth 0 ansiScreenSequences Regexp.Empty).
  assert (Hr : In r ansiScreenSequences) by now left.
  assert (Hstrip : forall d, stripANSIScreenCommands d = Regexp.replace_from r "" 0 0 d)
    by reflexivity.
  clearbody r.
  split; [| split]; rewrite Hstrip.
  - now apply replace_keeps.
  - apply replace_sublist.
  - rewrite replace_plain; [| exact Hr | exact Hb].
    cbn [Nat.add].
    set (seq := cursorTo row col).
    assert (Hseq : exists c t, seq = String c t) by (unfold seq, cursorTo; eauto).
    destruct Hseq as (c & t & Hseq).
    pose proof (match_cursorTo _ row col after (String.length before) Hr Hrow Hcol) as Hm.
    fold seq in Hm. rewrite Hseq in Hm |- *.
    change (String c t ++ after) with (String c (t ++ after)) in Hm |- *.
    cbn [Regexp.replace_from]. rewrite Hm.
    replace (String.length before <? String.length before + String.length (String c t))%nat
      with true by (symmetry; apply Nat.ltb_lt; cbn [String.length]; lia).
    change ("" ++ ?x) with x.
    replace (String.length before + String.length (String c t) - String.length before - 1)%nat
      with (String.length t) by (cbn [String.length]; lia).
    rewrite replace_skip. f_equal. now apply replace_keeps.
Qed.

Lemma stripANSI_keeps_plain_text_witness :
  stripANSIScreenCommands "listening on [::]:3000" = "listening on [::]:3000"
  /\ sublist (bytes (stripANSIScreenCommands hello)) (bytes hello)
  /\ stripANSIScreenCommands ("Hello" ++ cursorTo "12" "40" ++ "World") = "Hello" ++ "World".
Proof.
  apply (stripANSI_keeps_plain_text hello "listening on [::]:3000" "Hello" "World" "12" "40");
    first [reflexivity | split; [discriminate | reflexivity]].
Defined.

(** ** The start of a session *)

Section Services.

Lemma wanted_insert (acc : gmap string bool) (n name : string) :
  wanted (<[n := true]> acc) name = true <-> n = name \/ wanted acc name = true.
Proof.
  unfold wanted. destruct (decide (n = name)) as [-> | Hne].
  - rewrite lookup_insert_eq. cbn. split; auto.
  - rewrite lookup_insert_ne by exact Hne. split; [auto | intros [H | H]; congruence].
Qed.

Lemma wanted_fold {A} (f : A -> string) (l : list A) (acc : gmap string bool)
    (name : string) :
  wanted (fold_left (fun acc x => <[f x := true]> acc) l acc) name = true
  <-> In name (map f l) \/ wanted acc name = true.
Proof.
  revert acc. induction l as [|x l IH]; intros acc; cbn [fold_left map In].
  - split; [auto | intros [[] | H]; exact H].
  - rewrite IH, wanted_insert. tauto.
Qed.

End Services.

(** X29. The interest set of [Start2] holds exactly the services asked
    for or, when none is asked for, exactly the services of the
    manifest. *)
Theorem servicesOf_membership (opts : Options2) (m : Manifest) (name : string) :
  wanted (servicesOf opts m) name = true
  <-> match opt_Services opts with
      | Some names => In name names
      | None => In name (map Name (Services m))
      end.
Proof.
  unfold servicesOf. destruct (opt_Services opts) as [names |].
  - rewrite (wanted_fold (fun n => n)), map_id. unfold wanted.
    rewrite lookup_empty. cbn. intuition discriminate.
  - rewrite (wanted_fold Name). unfold wanted.
    rewrite lookup_empty. cbn. intuition discriminate.
Qed.

(** X30. Before it reads the manifest, [Start2] checks the application:
    without a name it returns [app required]; an application of a
    generation other than 2 and 3 is refused; an application that
    cannot be found is created, and the error of a failed creation is
    returned. In all three cases nothing is written and no task is
    started. *)
Theorem Start2_checks_the_app (s s' : Session) (unnamed opts : Options2)
    (a : App) (e e' : string) :
  ctx_done_at_entry s = false ->
  opt_App unnamed = "" ->
  opt_App opts <> "" ->
  AppGet s (opt_App opts) = Ok a ->
  Generation a <> "2" ->
  Generation a <> "3" ->
  ctx_done_at_entry s' = false ->
  AppGet s' (opt_App opts) = Err e ->
  AppCreate s' (opt_App opts) = Some e' ->
  Start2 s unnamed = (Returns (Some "app required"), [])
  /\ Start2 s opts = (Returns (Some ("invalid generation: " ++ Generation a)), [])
  /\ Start2 s' opts = (Returns (Some e'), []).
Proof.
  intros Hs Hun Hname Hget H2 H3 Hs' Hget' Hcreate.
  apply String.eqb_neq in Hname, H2, H3.
  repeat split; unfold Start2.
  - now rewrite Hs, Hun.
  - rewrite Hs. unfold returnIfDone. rewrite bind_ret, Hname, bind_ret, Hget, H2, H3.
    reflexivity.
  - rewrite Hs'. unfold returnIfDone. rewrite bind_ret, Hname, bind_ret, Hget', Hcreate.
    reflexivity.
Qed.

(** Sessions in which the application is of the first generation, and
    in which it can neither be found nor created. *)
Definition legacy : Session :=
  let s := calm false false in
  {| ctx_done_at_entry := false;
     AppGet := fun _ => Ok {| Generation := "1"; App_Release := "R0" |};
     AppCreate := AppCreate s; ReadFile := ReadFile s;
     AppEnvironment := AppEnvironment s; manifest_Load := manifest_Load s;
     manifest_Validate := manifest_Validate s; Tarball := Tarball s;
     ObjectStore := ObjectStore s; BuildCreate := BuildCreate s;
     BuildLogs := BuildLogs s; build_events := build_events s; BuildGet := BuildGet s;
     SystemGet := SystemGet s; BuildUpdate_manifest := BuildUpdate_manifest s;
     url_Parse := url_Parse s; builder_New := builder_New s;
     builder_Execute := builder_Execute s; ReleaseCreate := ReleaseCreate s;
     BuildUpdate_release := BuildUpdate_release s;
     ctx_done_after_build := false; ReleasePromote := ReleasePromote s;
     Getwd := Getwd s; WaitForAppRunning := WaitForAppRunning s;
     ctx_cancelled := true; AppGet_final := AppGet_final s;
     ReleasePromote_final := ReleasePromote_final s |}.

Definition forbidden : Session :=
  let s := calm false false in
  {| ctx_done_at_entry := false;
     AppGet := fun _ => Err "no such app";
     AppCreate := fun _ => Some "permission denied";
     ReadFile := ReadFile s;
     AppEnvironment := AppEnvironment s; manifest_Load := manifest_Load s;
     manifest_Validate := manifest_Validate s; Tarball := Tarball s;
     ObjectStore := ObjectStore s; BuildCreate := BuildCreate s;
     BuildLogs := BuildLogs s; build_events := build_events s; BuildGet := BuildGet s;
     SystemGet := SystemGet s; BuildUpdate_manifest := BuildUpdate_manifest s;
     url_Parse := url_Parse s; builder_New := builder_New s;
     builder_Execute := builder_Execute s; ReleaseCreate := ReleaseCreate s;
     BuildUpdate_release := BuildUpdate_release s;
     ctx_done_after_build := false; ReleasePromote := ReleasePromote s;
     Getwd := Getwd s; WaitForAppRunning := WaitForAppRunning s;
     ctx_cancelled := true; AppGet_final := AppGet_final s;
     ReleasePromote_final := ReleasePromote_final s |}.

Lemma Start2_checks_the_app_witness :
  Start2 legacy {| opt_App := ""; opt_Build := true; opt_External := false;
                   opt_Manifest := ""; opt_Services := None |}
  = (Returns (Some "app required"), [])
  /\ Start2 legacy dev
     = (Returns (Some ("invalid generation: "
                         ++ Generation {| Generation := "1"; App_Release := "R0" |})), [])
  /\ Start2 forbidden dev = (Returns (Some "permission denied"), []).
Proof.
  apply (Start2_checks_the_app legacy forbidden
           {| opt_App := ""; opt_Build := true; opt_External := false;
              opt_Manifest := ""; opt_Services := None |} dev
           {| Generation := "1"; App_Release := "R0" |} "no such app" "permission denied");
    reflexivity || discriminate.
Defined.
